(** * Template ingestion: from the template AST to the intermediate representation

    A shallow embedding of the ingestion pass of the template pipeline
    (the file whose entry points are [ingestComponent] and
    [ingestHostBinding]).  Mutable compilation units are threaded as values,
    the compilation job (identifier counter and view table) is the state of
    a small state-and-error monad, and every [throw] of the source is an
    [Throw] result. *)

From Stdlib Require Import ZArith String Ascii List Bool Lia DecimalString.
From stdpp Require Import base option gmap.
From stdpp Require strings.
Import ListNotations.
Local Open Scope string_scope.
Local Open Scope list_scope.
Set Warnings "-register-all".

(** ** Source locations *)

(** Modelled from the spec: a location of the source file.  The parser's
    location class is not part of the ingestion file; only its [moveBy]
    method is used, to translate a relative span through an anchor. *)
Record ParseLocation := { offset : Z }.

Definition moveBy (loc : ParseLocation) (delta : Z) : ParseLocation :=
  {| offset := offset loc + delta |}.

Module ParseSourceSpan.
Record t := mk { start : ParseLocation; end_ : ParseLocation; fullStart : ParseLocation }.
End ParseSourceSpan.

(** Identifiers handed out by [allocateXrefId]. *)
Definition XrefId := nat.

(** Modelled from the spec: the slot handle class is not part of the
    ingestion file.  A handle is "a deferred index placeholder ... resolved
    in a later pass"; ingestion only creates handles and never writes their
    slot, so the identity of a handle is not tracked. *)
Record SlotHandle := { slot : option nat }.

Definition new_SlotHandle : SlotHandle := {| slot := None |}.

Inductive SecurityContext :=
| SC_NONE | SC_HTML | SC_STYLE | SC_SCRIPT | SC_URL | SC_RESOURCE_URL.

Definition SecurityContext_eqb (a b : SecurityContext) : bool :=
  match a, b with
  | SC_NONE, SC_NONE | SC_HTML, SC_HTML | SC_STYLE, SC_STYLE
  | SC_SCRIPT, SC_SCRIPT | SC_URL, SC_URL | SC_RESOURCE_URL, SC_RESOURCE_URL => true
  | _, _ => false
  end.

(** The [securityContext] argument of [createBindingOp] is either one
    context (schema lookup) or an array of them (host bindings). *)
Inductive SecurityContexts :=
| OneContext (c : SecurityContext)
| ManyContexts (cs : list SecurityContext).

(** A literal value carried by the AST.  Numbers are only copied. *)
Inductive LiteralValue :=
| LString (s : string) | LNumber (n : Z) | LBool (b : bool) | LNull | LUndefined.

(** ** i18n metadata ([i18n_ast]) *)

Module i18n.
Inductive Node :=
| Text (value : string)
| Container (children : list Node)
| Icu (expression : string)
| TagPlaceholder (tag startName closeName : string) (children : list Node)
| Placeholder (value name : string)
| IcuPlaceholder (name : string)
| BlockPlaceholder (name startName closeName : string) (children : list Node).

Record Message := mkMessage {
  nodes : list Node;
  placeholders : list (string * string);
  id : string
}.

(** [I18nMeta = Message | Node] *)
Inductive I18nMeta :=
| IsMessage (m : Message)
| IsNode (n : Node).

Definition instanceof_Message (m : I18nMeta) : bool :=
  match m with IsMessage _ => true | _ => false end.
Definition instanceof_TagPlaceholder (m : I18nMeta) : bool :=
  match m with IsNode (TagPlaceholder _ _ _ _) => true | _ => false end.
Definition instanceof_BlockPlaceholder (m : I18nMeta) : bool :=
  match m with IsNode (BlockPlaceholder _ _ _ _) => true | _ => false end.
Definition instanceof_Container (m : I18nMeta) : bool :=
  match m with IsNode (Container _) => true | _ => false end.
End i18n.

(** ** Expression AST of the template parser ([expression_parser/ast]) *)

Module e.
Module ParseSpan.
Record t := mk { start : Z; end_ : Z }.
End ParseSpan.

Module BindingType.
Inductive t := Property | Attribute | Class | Style | Animation.
Definition eqb (a b : t) : bool :=
  match a, b with
  | Property, Property | Attribute, Attribute | Class, Class
  | Style, Style | Animation, Animation => true
  | _, _ => false
  end.
End BindingType.

Module ParsedEventType.
Inductive t := Regular | Animation.
Definition eqb (a b : t) : bool :=
  match a, b with
  | Regular, Regular | Animation, Animation => true
  | _, _ => false
  end.
End ParsedEventType.

Record LiteralMapKey := { key : string; quoted : bool }.

Inductive AST :=
| ASTWithSource (span : ParseSpan.t) (ast : AST)
| EmptyExpr (span : ParseSpan.t)
| ImplicitReceiver (span : ParseSpan.t)
| ThisReceiver (span : ParseSpan.t)
| Chain (span : ParseSpan.t) (expressions : list AST)
| Conditional (span : ParseSpan.t) (condition trueExp falseExp : AST)
| PropertyRead (span : ParseSpan.t) (receiver : AST) (name : string)
| PropertyWrite (span : ParseSpan.t) (receiver : AST) (name : string) (value : AST)
| SafePropertyRead (span : ParseSpan.t) (receiver : AST) (name : string)
| KeyedRead (span : ParseSpan.t) (receiver key : AST)
| SafeKeyedRead (span : ParseSpan.t) (receiver key : AST)
| KeyedWrite (span : ParseSpan.t) (receiver key value : AST)
| BindingPipe (span : ParseSpan.t) (exp : AST) (name : string) (args : list AST)
| LiteralPrimitive (span : ParseSpan.t) (value : LiteralValue)
| LiteralArray (span : ParseSpan.t) (expressions : list AST)
| LiteralMap (span : ParseSpan.t) (keys : list LiteralMapKey) (values : list AST)
| Interpolation (span : ParseSpan.t) (strings : list string) (expressions : list AST)
| Binary (span : ParseSpan.t) (operation : string) (left right : AST)
| Unary (span : ParseSpan.t) (operator : string) (expr : AST)
| PrefixNot (span : ParseSpan.t) (expression : AST)
| NonNullAssert (span : ParseSpan.t) (expression : AST)
| Call (span : ParseSpan.t) (receiver : AST) (args : list AST)
| SafeCall (span : ParseSpan.t) (receiver : AST) (args : list AST).

(** [x instanceof e.ThisReceiver] *)
Definition instanceof_ThisReceiver (x : AST) : bool :=
  match x with ThisReceiver _ => true | _ => false end.

(** [x instanceof e.ImplicitReceiver].  The class of explicit [this]
    extends the implicit receiver class, which is why the property-read
    case of [convertAst] has to exclude it by hand ("excluding explicit
    reads of this"). *)
Definition instanceof_ImplicitReceiver (x : AST) : bool :=
  match x with ImplicitReceiver _ | ThisReceiver _ => true | _ => false end.

Definition instanceof_Interpolation (x : AST) : bool :=
  match x with Interpolation _ _ _ => true | _ => false end.

(** [ast.constructor.name] *)
Definition constructor_name (x : AST) : string :=
  match x with
  | ASTWithSource _ _ => "ASTWithSource" | EmptyExpr _ => "EmptyExpr"
  | ImplicitReceiver _ => "ImplicitReceiver" | ThisReceiver _ => "ThisReceiver"
  | Chain _ _ => "Chain" | Conditional _ _ _ _ => "Conditional"
  | PropertyRead _ _ _ => "PropertyRead" | PropertyWrite _ _ _ _ => "PropertyWrite"
  | SafePropertyRead _ _ _ => "SafePropertyRead" | KeyedRead _ _ _ => "KeyedRead"
  | SafeKeyedRead _ _ _ => "SafeKeyedRead" | KeyedWrite _ _ _ _ => "KeyedWrite"
  | BindingPipe _ _ _ _ => "BindingPipe" | LiteralPrimitive _ _ => "LiteralPrimitive"
  | LiteralArray _ _ => "LiteralArray" | LiteralMap _ _ _ => "LiteralMap"
  | Interpolation _ _ _ => "Interpolation" | Binary _ _ _ _ => "Binary"
  | Unary _ _ _ => "Unary" | PrefixNot _ _ => "PrefixNot"
  | NonNullAssert _ _ => "NonNullAssert" | Call _ _ _ => "Call"
  | SafeCall _ _ _ => "SafeCall"
  end.

(** [ast.span] *)
Definition span_of (x : AST) : ParseSpan.t :=
  match x with
  | ASTWithSource s _ | EmptyExpr s | ImplicitReceiver s | ThisReceiver s
  | Chain s _ | Conditional s _ _ _ | PropertyRead s _ _ | PropertyWrite s _ _ _
  | SafePropertyRead s _ _ | KeyedRead s _ _ | SafeKeyedRead s _ _
  | KeyedWrite s _ _ _ | BindingPipe s _ _ _ | LiteralPrimitive s _
  | LiteralArray s _ | LiteralMap s _ _ | Interpolation s _ _ | Binary s _ _ _
  | Unary s _ _ | PrefixNot s _ | NonNullAssert s _ | Call s _ _
  | SafeCall s _ _ => s
  end.

(** A host property as the binding parser hands it over.  [expression_ast]
    is [property.expression.ast]. *)
Module ParsedProperty.
Record t := mk {
  name : string;
  expression_ast : AST;
  isAnimation : bool;
  sourceSpan : ParseSourceSpan.t
}.
End ParsedProperty.

Module ParsedEvent.
Record t := mk {
  name : string;
  targetOrPhase : string;
  type : ParsedEventType.t;
  handler : AST;
  sourceSpan : ParseSourceSpan.t;
  handlerSpan : ParseSourceSpan.t
}.
End ParsedEvent.
End e.

(** ** Output expressions ([output_ast] and the IR's own expression nodes) *)

Inductive UnaryOperator := UnaryPlus | UnaryMinus.

Inductive BinaryOperator :=
| Equals | NotEquals | Identical | NotIdentical | Minus | Plus | Divide
| Multiply | Modulo | And | Or | BitwiseAnd | Lower | LowerEquals | Bigger
| BiggerEquals | NullishCoalesce.

(** A template variable ([t.Variable]); referenced from
    [ConditionalCaseExpr] as the alias of an [@if] branch. *)
Module TemplateVariable.
Record t := mk { name : string; value : string }.
End TemplateVariable.

Inductive Expression :=
| LexicalReadExpr (name : string)
| ContextExpr (view : XrefId)
| ReadPropExpr (receiver : Expression) (name : string)
    (sourceSpan : option ParseSourceSpan.t)
| WritePropExpr (receiver : Expression) (name : string) (value : Expression)
    (sourceSpan : option ParseSourceSpan.t)
| ReadKeyExpr (receiver index : Expression) (sourceSpan : option ParseSourceSpan.t)
| WriteKeyExpr (receiver index value : Expression)
    (sourceSpan : option ParseSourceSpan.t)
| InvokeFunctionExpr (fn : Expression) (args : list Expression)
    (sourceSpan : option ParseSourceSpan.t)
| LiteralExpr (value : LiteralValue) (sourceSpan : option ParseSourceSpan.t)
| UnaryOperatorExpr (operator : UnaryOperator) (expr : Expression)
    (sourceSpan : option ParseSourceSpan.t)
| BinaryOperatorExpr (operator : BinaryOperator) (lhs rhs : Expression)
    (sourceSpan : option ParseSourceSpan.t)
| LiteralMapExpr (entries : list (string * Expression * bool))
    (sourceSpan : option ParseSourceSpan.t)
| LiteralArrayExpr (entries : list Expression)
| ConditionalExpr (condition trueCase falseCase : Expression)
    (sourceSpan : option ParseSourceSpan.t)
| NotExpr (condition : Expression) (sourceSpan : option ParseSourceSpan.t)
| PipeBindingExpr (target : XrefId) (targetSlot : SlotHandle) (name : string)
    (args : list Expression)
| SafeKeyedReadExpr (receiver index : Expression)
    (sourceSpan : option ParseSourceSpan.t)
| SafePropertyReadExpr (receiver : Expression) (name : string)
| SafeInvokeFunctionExpr (receiver : Expression) (args : list Expression)
| EmptyExpr (sourceSpan : option ParseSourceSpan.t)
| ConditionalCaseExpr (expr : option Expression) (target : XrefId)
    (targetSlot : SlotHandle) (alias : option TemplateVariable.t).

(** [o.literal(value)] and [o.literal(value, undefined, sourceSpan)] *)
Definition literal (value : LiteralValue) (sourceSpan : option ParseSourceSpan.t)
  : Expression := LiteralExpr value sourceSpan.

(** [o.not(expr, sourceSpan)] *)
Definition not_ (expr : Expression) (sourceSpan : option ParseSourceSpan.t)
  : Expression := NotExpr expr sourceSpan.

(** The fluent builders of [o.Expression] used for the loop aliases. *)
Definition identical (lhs rhs : Expression) : Expression :=
  BinaryOperatorExpr Identical lhs rhs None.
Definition notIdentical (lhs rhs : Expression) : Expression :=
  BinaryOperatorExpr NotIdentical lhs rhs None.
Definition minus (lhs rhs : Expression) : Expression :=
  BinaryOperatorExpr Minus lhs rhs None.
Definition modulo (lhs rhs : Expression) : Expression :=
  BinaryOperatorExpr Modulo lhs rhs None.

(** [expr.sourceSpan]; IR-only expressions are built without a span. *)
Definition sourceSpanOf (x : Expression) : option ParseSourceSpan.t :=
  match x with
  | ReadPropExpr _ _ s | WritePropExpr _ _ _ s | ReadKeyExpr _ _ s
  | WriteKeyExpr _ _ _ s | InvokeFunctionExpr _ _ s | LiteralExpr _ s
  | UnaryOperatorExpr _ _ s | BinaryOperatorExpr _ _ _ s | LiteralMapExpr _ s
  | ConditionalExpr _ _ _ s | NotExpr _ s | SafeKeyedReadExpr _ _ s
  | EmptyExpr s => s
  | _ => None
  end.

(** [ir.Interpolation] *)
Module Interpolation.
Record t := mk {
  strings : list string;
  expressions : list Expression;
  i18nPlaceholders : list string
}.
End Interpolation.

(** The [expression] of a binding: [o.Expression | ir.Interpolation]. *)
Inductive BindingExpression :=
| BExpr (x : Expression)
| BInterpolation (i : Interpolation.t).

Inductive Statement :=
| ExpressionStatement (expr : Expression) (sourceSpan : option ParseSourceSpan.t)
| ReturnStatement (value : Expression) (sourceSpan : option ParseSourceSpan.t).

(** ** Template AST ([render3/r3_ast]) *)

Module t.
Module TextAttribute.
Record t := mk {
  name : string;
  value : string;
  sourceSpan : ParseSourceSpan.t;
  i18n : option i18n.I18nMeta
}.
End TextAttribute.

Module BoundAttribute.
Record t := mk {
  name : string;
  type : e.BindingType.t;
  securityContext : SecurityContext;
  value : e.AST;
  unit : option string;
  sourceSpan : ParseSourceSpan.t;
  i18n : option i18n.I18nMeta
}.
End BoundAttribute.

Module BoundEvent.
Record t := mk {
  name : string;
  type : e.ParsedEventType.t;
  handler : e.AST;
  target : option string;
  phase : option string;
  sourceSpan : ParseSourceSpan.t;
  handlerSpan : ParseSourceSpan.t
}.
End BoundEvent.

Module Reference.
Record t := mk { name : string; value : string }.
End Reference.

Module Text.
Record t := mk { value : string; sourceSpan : ParseSourceSpan.t }.
End Text.

Module BoundText.
Record t := mk {
  value : e.AST;
  sourceSpan : ParseSourceSpan.t;
  i18n : option i18n.I18nMeta
}.
End BoundText.

Module Content.
Record t := mk {
  name : string;
  selector : string;
  attributes : list TextAttribute.t;
  sourceSpan : ParseSourceSpan.t;
  i18n : option i18n.I18nMeta
}.
End Content.

(** The [vars] and [placeholders] objects are association lists in
    insertion order (their keys are placeholder names, never array
    indices, so the engine enumerates them in that order). *)
Module Icu.
Record t := mk {
  vars : list (string * BoundText.t);
  placeholders : list (string * (Text.t + BoundText.t));
  sourceSpan : ParseSourceSpan.t;
  i18n : option i18n.I18nMeta
}.
End Icu.

(** A trigger of a deferred block.  Every trigger class has a source
    span; [when] has a [value], [timer] a [delay], and the three
    element-bound triggers a [reference]. *)
Module BoundDeferredTrigger.
Record t := mk { value : e.AST; sourceSpan : ParseSourceSpan.t }.
End BoundDeferredTrigger.
Module IdleDeferredTrigger.
Record t := mk { sourceSpan : ParseSourceSpan.t }.
End IdleDeferredTrigger.
Module ImmediateDeferredTrigger.
Record t := mk { sourceSpan : ParseSourceSpan.t }.
End ImmediateDeferredTrigger.
Module TimerDeferredTrigger.
Record t := mk { delay : Z; sourceSpan : ParseSourceSpan.t }.
End TimerDeferredTrigger.
Module HoverDeferredTrigger.
Record t := mk { reference : option string; sourceSpan : ParseSourceSpan.t }.
End HoverDeferredTrigger.
Module InteractionDeferredTrigger.
Record t := mk { reference : option string; sourceSpan : ParseSourceSpan.t }.
End InteractionDeferredTrigger.
Module ViewportDeferredTrigger.
Record t := mk { reference : option string; sourceSpan : ParseSourceSpan.t }.
End ViewportDeferredTrigger.

Module DeferredBlockTriggers.
Record t := mk {
  when : option BoundDeferredTrigger.t;
  idle : option IdleDeferredTrigger.t;
  immediate : option ImmediateDeferredTrigger.t;
  hover : option HoverDeferredTrigger.t;
  timer : option TimerDeferredTrigger.t;
  interaction : option InteractionDeferredTrigger.t;
  viewport : option ViewportDeferredTrigger.t
}.
End DeferredBlockTriggers.

Module ForLoopBlockContext.
Record t := mk {
  index : TemplateVariable.t;
  count : TemplateVariable.t;
  first : TemplateVariable.t;
  last : TemplateVariable.t;
  even : TemplateVariable.t;
  odd : TemplateVariable.t
}.
End ForLoopBlockContext.

(** The node classes that own child nodes are records over the node
    type, tied together by [Node] below. *)
Module Element.
Record t (N : Type) := mk {
  name : string;
  attributes : list TextAttribute.t;
  inputs : list BoundAttribute.t;
  outputs : list BoundEvent.t;
  children : list N;
  references : list Reference.t;
  sourceSpan : ParseSourceSpan.t;
  startSourceSpan : ParseSourceSpan.t;
  endSourceSpan : option ParseSourceSpan.t;
  i18n : option i18n.I18nMeta
}.
Arguments mk {N}. Arguments name {N}. Arguments attributes {N}.
Arguments inputs {N}. Arguments outputs {N}. Arguments children {N}.
Arguments references {N}. Arguments sourceSpan {N}.
Arguments startSourceSpan {N}. Arguments endSourceSpan {N}.
Arguments i18n {N}.
End Element.

Module Template.
Record t (N : Type) := mk {
  tagName : option string;
  attributes : list TextAttribute.t;
  inputs : list BoundAttribute.t;
  outputs : list BoundEvent.t;
  templateAttrs : list (BoundAttribute.t + TextAttribute.t);
  children : list N;
  references : list Reference.t;
  variables : list TemplateVariable.t;
  sourceSpan : ParseSourceSpan.t;
  startSourceSpan : ParseSourceSpan.t;
  endSourceSpan : option ParseSourceSpan.t;
  i18n : option i18n.I18nMeta
}.
Arguments mk {N}. Arguments tagName {N}. Arguments attributes {N}.
Arguments inputs {N}. Arguments outputs {N}. Arguments templateAttrs {N}.
Arguments children {N}. Arguments references {N}. Arguments variables {N}.
Arguments sourceSpan {N}. Arguments startSourceSpan {N}.
Arguments endSourceSpan {N}. Arguments i18n {N}.
End Template.

Module IfBlockBranch.
Record t (N : Type) := mk {
  expression : option e.AST;
  children : list N;
  expressionAlias : option TemplateVariable.t;
  sourceSpan : ParseSourceSpan.t;
  startSourceSpan : ParseSourceSpan.t;
  i18n : option i18n.I18nMeta
}.
Arguments mk {N}. Arguments expression {N}. Arguments children {N}.
Arguments expressionAlias {N}. Arguments sourceSpan {N}.
Arguments startSourceSpan {N}. Arguments i18n {N}.
End IfBlockBranch.

Module IfBlock.
Record t (N : Type) := mk {
  branches : list (IfBlockBranch.t N);
  sourceSpan : ParseSourceSpan.t
}.
Arguments mk {N}. Arguments branches {N}. Arguments sourceSpan {N}.
End IfBlock.

Module SwitchBlockCase.
Record t (N : Type) := mk {
  expression : option e.AST;
  children : list N;
  sourceSpan : ParseSourceSpan.t;
  startSourceSpan : ParseSourceSpan.t;
  i18n : option i18n.I18nMeta
}.
Arguments mk {N}. Arguments expression {N}. Arguments children {N}.
Arguments sourceSpan {N}. Arguments startSourceSpan {N}. Arguments i18n {N}.
End SwitchBlockCase.

Module SwitchBlock.
Record t (N : Type) := mk {
  expression : e.AST;
  cases : list (SwitchBlockCase.t N);
  sourceSpan : ParseSourceSpan.t;
  startSourceSpan : ParseSourceSpan.t
}.
Arguments mk {N}. Arguments expression {N}. Arguments cases {N}.
Arguments sourceSpan {N}. Arguments startSourceSpan {N}.
End SwitchBlock.

Module ForLoopBlockEmpty.
Record t (N : Type) := mk {
  children : list N;
  sourceSpan : ParseSourceSpan.t;
  i18n : option i18n.I18nMeta
}.
Arguments mk {N}. Arguments children {N}. Arguments sourceSpan {N}.
Arguments i18n {N}.
End ForLoopBlockEmpty.

Module ForLoopBlock.
Record t (N : Type) := mk {
  item : TemplateVariable.t;
  expression : e.AST;
  trackBy : e.AST;
  contextVariables : ForLoopBlockContext.t;
  children : list N;
  empty : option (ForLoopBlockEmpty.t N);
  sourceSpan : ParseSourceSpan.t;
  startSourceSpan : ParseSourceSpan.t;
  i18n : option i18n.I18nMeta
}.
Arguments mk {N}. Arguments item {N}. Arguments expression {N}.
Arguments trackBy {N}. Arguments contextVariables {N}.
Arguments children {N}. Arguments empty {N}. Arguments sourceSpan {N}.
Arguments startSourceSpan {N}. Arguments i18n {N}.
End ForLoopBlock.

Module DeferredBlockPlaceholder.
Record t (N : Type) := mk {
  children : list N;
  minimumTime : option Z;
  sourceSpan : ParseSourceSpan.t;
  i18n : option i18n.I18nMeta
}.
Arguments mk {N}. Arguments children {N}. Arguments minimumTime {N}.
Arguments sourceSpan {N}. Arguments i18n {N}.
End DeferredBlockPlaceholder.

Module DeferredBlockLoading.
Record t (N : Type) := mk {
  children : list N;
  afterTime : option Z;
  minimumTime : option Z;
  sourceSpan : ParseSourceSpan.t;
  i18n : option i18n.I18nMeta
}.
Arguments mk {N}. Arguments children {N}. Arguments afterTime {N}.
Arguments minimumTime {N}. Arguments sourceSpan {N}. Arguments i18n {N}.
End DeferredBlockLoading.

Module DeferredBlockError.
Record t (N : Type) := mk {
  children : list N;
  sourceSpan : ParseSourceSpan.t;
  i18n : option i18n.I18nMeta
}.
Arguments mk {N}. Arguments children {N}. Arguments sourceSpan {N}.
Arguments i18n {N}.
End DeferredBlockError.

Module DeferredBlock.
Record t (N : Type) := mk {
  children : list N;
  triggers : DeferredBlockTriggers.t;
  prefetchTriggers : DeferredBlockTriggers.t;
  placeholder : option (DeferredBlockPlaceholder.t N);
  loading : option (DeferredBlockLoading.t N);
  error : option (DeferredBlockError.t N);
  sourceSpan : ParseSourceSpan.t;
  i18n : option i18n.I18nMeta
}.
Arguments mk {N}. Arguments children {N}. Arguments triggers {N}.
Arguments prefetchTriggers {N}. Arguments placeholder {N}.
Arguments loading {N}. Arguments error {N}. Arguments sourceSpan {N}.
Arguments i18n {N}.
End DeferredBlock.

Inductive Node :=
| Element (element : Element.t Node)
| Template (tmpl : Template.t Node)
| Content (content : Content.t)
| Text (text : Text.t)
| BoundText (text : BoundText.t)
| IfBlock (ifBlock : IfBlock.t Node)
| SwitchBlock (switchBlock : SwitchBlock.t Node)
| DeferredBlock (deferBlock : DeferredBlock.t Node)
| Icu (icu : Icu.t)
| ForLoopBlock (forBlock : ForLoopBlock.t Node)
| Comment (value : string) (sourceSpan : ParseSourceSpan.t)
| UnknownBlock (name : string) (sourceSpan : ParseSourceSpan.t).

Definition instanceof_Comment (n : Node) : bool :=
  match n with Comment _ _ => true | _ => false end.

(** [node.constructor.name] *)
Definition constructor_name (n : Node) : string :=
  match n with
  | Element _ => "Element" | Template _ => "Template" | Content _ => "Content"
  | Text _ => "Text" | BoundText _ => "BoundText" | IfBlock _ => "IfBlock"
  | SwitchBlock _ => "SwitchBlock" | DeferredBlock _ => "DeferredBlock"
  | Icu _ => "Icu" | ForLoopBlock _ => "ForLoopBlock" | Comment _ _ => "Comment"
  | UnknownBlock _ _ => "UnknownBlock"
  end.
End t.

(** ** Intermediate representation ([ir]) *)

Inductive Namespace := NS_HTML | NS_SVG | NS_Math.

Definition Namespace_eqb (a b : Namespace) : bool :=
  match a, b with
  | NS_HTML, NS_HTML | NS_SVG, NS_SVG | NS_Math, NS_Math => true
  | _, _ => false
  end.

Inductive CompatibilityMode := Normal | TemplateDefinitionBuilder.

Module BindingKind.
Inductive t :=
| Attribute | ClassName | StyleProperty | Property | Template | I18n | Animation.
Definition eqb (a b : t) : bool :=
  match a, b with
  | Attribute, Attribute | ClassName, ClassName | StyleProperty, StyleProperty
  | Property, Property | Template, Template | I18n, I18n
  | Animation, Animation => true
  | _, _ => false
  end.
End BindingKind.

Module TemplateKind.
Inductive t := NgTemplate | Structural | Block.
End TemplateKind.

Module OpKind.
Inductive t :=
| ElementStart | ElementEnd | Template | Text | InterpolateText | Binding
| ExtractedAttribute | Listener | Projection | I18nStart | I18nEnd
| I18nAttributes | IcuStart | IcuEnd | Conditional | RepeaterCreate
| Repeater | Defer | DeferOn | DeferWhen | Statement.
End OpKind.

Module LocalRef.
Record t := mk { name : string; target : string }.
End LocalRef.

Module RepeaterVarNames.
Record t := mk {
  index : string; count : string; first : string; last : string;
  even : string; odd : string; implicit : string
}.
End RepeaterVarNames.

(** An alias of a view: [{kind: Alias, name: null, identifier, expression}]. *)
Module AliasVariable.
Record t := mk { identifier : string; expression : Expression }.
End AliasVariable.

(** Modelled from the spec: the static metadata of a deferred block
    (resolved dependency information); only passed through. *)
Record R3DeferBlockMetadata := { deps : list string }.

(** The targets of the element-bound defer triggers are resolved by a later
    phase; ingestion records the name and leaves the rest null. *)
Module DeferTarget.
Record t := mk {
  targetName : option string;
  targetXref : option XrefId;
  targetSlot : option SlotHandle;
  targetView : option XrefId;
  targetSlotViewSteps : option Z
}.
End DeferTarget.

Module DeferTrigger.
Inductive t :=
| Idle
| Immediate
| Timer (delay : Z)
| Hover (target : DeferTarget.t)
| Interaction (target : DeferTarget.t)
| Viewport (target : DeferTarget.t).
End DeferTrigger.

(** The secondary slots of a defer operation, assigned right after
    [createDeferOp]. *)
Module DeferSlots.
Record t := mk {
  placeholderView : option XrefId;
  placeholderSlot : option SlotHandle;
  loadingSlot : option SlotHandle;
  errorSlot : option SlotHandle;
  placeholderMinimumTime : option Z;
  loadingMinimumTime : option Z;
  loadingAfterTime : option Z
}.
End DeferSlots.

(** Create and update operations.  Each constructor keeps the arguments of
    the [ir.create...Op] function that builds it, plus the fields ingestion
    reads back or assigns ([handle], [localRefs], the defer slots). *)
Inductive Op :=
| ElementStartOp (tag : string) (xref : XrefId) (handle : SlotHandle)
    (namespace : Namespace) (i18nPlaceholder : option i18n.I18nMeta)
    (localRefs : list LocalRef.t)
    (startSourceSpan wholeSourceSpan : ParseSourceSpan.t)
| ElementEndOp (xref : XrefId) (sourceSpan : option ParseSourceSpan.t)
| TemplateOp (xref : XrefId) (templateKind : TemplateKind.t) (tag : option string)
    (functionNameSuffix : string) (handle : SlotHandle) (namespace : Namespace)
    (i18nPlaceholder : option i18n.I18nMeta) (localRefs : list LocalRef.t)
    (startSourceSpan wholeSourceSpan : ParseSourceSpan.t)
| TextOp (xref : XrefId) (initialValue : string) (icuPlaceholder : option string)
    (sourceSpan : option ParseSourceSpan.t)
| InterpolateTextOp (target : XrefId) (interpolation : Interpolation.t)
    (sourceSpan : ParseSourceSpan.t)
| BindingOp (target : XrefId) (kind : BindingKind.t) (name : string)
    (expression : BindingExpression) (unit : option string)
    (securityContext : SecurityContexts)
    (isTextAttribute isStructuralTemplateAttribute : bool)
    (templateKind : option TemplateKind.t) (i18nMessage : option i18n.Message)
    (sourceSpan : option ParseSourceSpan.t)
| ExtractedAttributeOp (target : XrefId) (bindingKind : BindingKind.t)
    (namespace : option string) (name : string) (expression : option Expression)
    (i18nContext : option XrefId) (i18nMessage : option i18n.Message)
    (securityContext : SecurityContexts)
| ListenerOp (target : XrefId) (targetSlot : SlotHandle) (name : string)
    (tag : option string) (handlerOps : list Op) (animationPhase : option string)
    (eventTarget : option string) (hostListener : bool)
    (sourceSpan : ParseSourceSpan.t)
| ProjectionOp (xref : XrefId) (selector : string)
    (i18nPlaceholder : option i18n.I18nMeta) (sourceSpan : ParseSourceSpan.t)
| I18nStartOp (xref : XrefId) (message : i18n.Message) (root : option XrefId)
    (sourceSpan : option ParseSourceSpan.t)
| I18nEndOp (xref : XrefId) (sourceSpan : option ParseSourceSpan.t)
| I18nAttributesOp (xref : XrefId) (handle : SlotHandle) (target : XrefId)
| IcuStartOp (xref : XrefId) (message : i18n.Message) (messagePlaceholder : string)
    (sourceSpan : option ParseSourceSpan.t)
| IcuEndOp (xref : XrefId)
| ConditionalOp (target : option XrefId) (targetSlot : option SlotHandle)
    (test : option Expression) (conditions : list Expression)
    (sourceSpan : ParseSourceSpan.t)
| RepeaterCreateOp (primaryView : XrefId) (emptyView : option XrefId)
    (tag : option string) (track : Expression) (varNames : RepeaterVarNames.t)
    (emptyTag : option string) (handle : SlotHandle)
    (i18nPlaceholder emptyI18nPlaceholder : option i18n.I18nMeta)
    (startSourceSpan wholeSourceSpan : ParseSourceSpan.t)
| RepeaterOp (target : XrefId) (targetSlot : SlotHandle) (collection : Expression)
    (sourceSpan : ParseSourceSpan.t)
| DeferOp (xref main : XrefId) (mainSlot : SlotHandle)
    (metadata : R3DeferBlockMetadata) (slots : DeferSlots.t)
    (sourceSpan : ParseSourceSpan.t)
| DeferOnOp (defer : XrefId) (trigger : DeferTrigger.t) (prefetch : bool)
    (sourceSpan : option ParseSourceSpan.t)
| DeferWhenOp (target : XrefId) (expr : Expression) (prefetch : bool)
    (sourceSpan : option ParseSourceSpan.t)
| StatementOp (statement : Statement).

(** [op.kind] *)
Definition kind_of (op : Op) : OpKind.t :=
  match op with
  | ElementStartOp _ _ _ _ _ _ _ _ => OpKind.ElementStart
  | ElementEndOp _ _ => OpKind.ElementEnd
  | TemplateOp _ _ _ _ _ _ _ _ _ _ => OpKind.Template
  | TextOp _ _ _ _ => OpKind.Text
  | InterpolateTextOp _ _ _ => OpKind.InterpolateText
  | BindingOp _ _ _ _ _ _ _ _ _ _ _ => OpKind.Binding
  | ExtractedAttributeOp _ _ _ _ _ _ _ _ => OpKind.ExtractedAttribute
  | ListenerOp _ _ _ _ _ _ _ _ _ => OpKind.Listener
  | ProjectionOp _ _ _ _ => OpKind.Projection
  | I18nStartOp _ _ _ _ => OpKind.I18nStart
  | I18nEndOp _ _ => OpKind.I18nEnd
  | I18nAttributesOp _ _ _ => OpKind.I18nAttributes
  | IcuStartOp _ _ _ _ => OpKind.IcuStart
  | IcuEndOp _ => OpKind.IcuEnd
  | ConditionalOp _ _ _ _ _ => OpKind.Conditional
  | RepeaterCreateOp _ _ _ _ _ _ _ _ _ _ _ => OpKind.RepeaterCreate
  | RepeaterOp _ _ _ _ => OpKind.Repeater
  | DeferOp _ _ _ _ _ _ => OpKind.Defer
  | DeferOnOp _ _ _ _ => OpKind.DeferOn
  | DeferWhenOp _ _ _ _ => OpKind.DeferWhen
  | StatementOp _ => OpKind.Statement
  end.

(** [b?.kind === ir.OpKind.ExtractedAttribute] on an entry of [bindings] *)
Definition isExtractedAttribute (b : option Op) : bool :=
  match b with Some (ExtractedAttributeOp _ _ _ _ _ _ _ _) => true | _ => false end.

(** [b?.kind === ir.OpKind.Binding] on an entry of [bindings] *)
Definition isBinding (b : option Op) : bool :=
  match b with Some (BindingOp _ _ _ _ _ _ _ _ _ _ _) => true | _ => false end.

(** [b?.i18nMessage]: the message of a binding or extracted attribute,
    [undefined] (here [None]) for a skipped binding. *)
Definition i18nMessage_of (b : option Op) : option i18n.Message :=
  match b with
  | Some (BindingOp _ _ _ _ _ _ _ _ _ m _) => m
  | Some (ExtractedAttributeOp _ _ _ _ _ _ m _) => m
  | _ => None
  end.

(** The entries of [bindings] that are operations, in order (what
    [filter] keeps once its predicate has accepted them). *)
Definition keep (p : option Op -> bool) (bindings : list (option Op)) : list Op :=
  omap (fun b => if p b then b else None) bindings.

(** ** Compilation units and the compilation job ([compilation]) *)

Module ViewCompilationUnit.
Record t := mk {
  xref : XrefId;
  parent : option XrefId;
  create : list Op;
  update : list Op;
  contextVariables : gmap string string;
  aliases : list AliasVariable.t
}.
End ViewCompilationUnit.

Module HostBindingCompilationUnit.
Record t := mk {
  xref : XrefId;
  create : list Op;
  update : list Op
}.
End HostBindingCompilationUnit.

(** The state of a compilation job during ingestion.  The constant pool is
    not touched by ingestion and is left out.  [views] is the job's table
    of view units by identifier; [deferBlocksMeta] is the side map from
    deferred blocks to their metadata. *)
Record CompilationJob := mkJob {
  componentName : string;
  compatibility : CompatibilityMode;
  relativeContextFilePath : string;
  i18nUseExternalIds : bool;
  deferBlocksMeta : t.DeferredBlock.t t.Node -> option R3DeferBlockMetadata;
  nextXrefId : XrefId;
  root_xref : XrefId;
  views : gmap XrefId ViewCompilationUnit.t
}.

Definition set_nextXrefId (job : CompilationJob) (n : XrefId) : CompilationJob :=
  mkJob (componentName job) (compatibility job) (relativeContextFilePath job)
        (i18nUseExternalIds job) (deferBlocksMeta job) n (root_xref job) (views job).

Definition set_views (job : CompilationJob) (vs : gmap XrefId ViewCompilationUnit.t)
  : CompilationJob :=
  mkJob (componentName job) (compatibility job) (relativeContextFilePath job)
        (i18nUseExternalIds job) (deferBlocksMeta job) (nextXrefId job)
        (root_xref job) vs.

(** ** The ingestion monad: job state plus fatal errors *)

Inductive Result (A : Type) :=
| Ok (a : A)
| Throw (msg : string).
Arguments Ok {A}. Arguments Throw {A}.

Definition M (A : Type) : Type := CompilationJob -> Result (A * CompilationJob).

Definition ret {A} (a : A) : M A := fun job => Ok (a, job).

Definition bind {A B} (m : M A) (k : A -> M B) : M B :=
  fun job => match m job with
             | Ok (a, job') => k a job'
             | Throw msg => Throw msg
             end.

Definition throw {A} (msg : string) : M A := fun _ => Throw msg.

(** [if (cond) throw Error(msg)] *)
Definition throwIf (cond : bool) (msg : string) : M unit :=
  if cond then throw msg else ret tt.

Declare Scope ingest_scope.
Delimit Scope ingest_scope with ingest.
Notation "x <- m ;; k" := (bind m (fun x => k))
  (at level 100, m at next level, right associativity) : ingest_scope.
Local Open Scope ingest_scope.

(** [items.map(f)] where [f] may throw or allocate: left to right. *)
Definition mapM {A B} (f : A -> M B) : list A -> M (list B) :=
  fix go (l : list A) : M (list B) :=
    match l with
    | [] => ret []
    | x :: xs => y <- f x ;; ys <- go xs ;; ret (y :: ys)
    end.

(** [for (const x of items) { acc = f(acc, x) }] *)
Definition forM {A S} (f : S -> A -> M S) : list A -> S -> M S :=
  fix go (l : list A) (acc : S) : M S :=
    match l with
    | [] => ret acc
    | x :: xs => acc' <- f acc x ;; go xs acc'
    end.

(** Modelled from the spec: [job.allocateXrefId()], identifiers are handed
    out in increasing order and never reused. *)
Definition allocateXrefId : M XrefId :=
  fun job => Ok (nextXrefId job, set_nextXrefId job (S (nextXrefId job))).

(** Write a view unit into the job's table (the table holds the unit
    object itself in the source, so a unit is written back whenever
    ingestion has finished changing it). *)
Definition storeView (view : ViewCompilationUnit.t) : M unit :=
  fun job => Ok (tt, set_views job (<[ViewCompilationUnit.xref view := view]> (views job))).

(** Modelled from the spec: [job.allocateView(parent)], a fresh unit with a
    fresh identifier and the given parent, registered in the job. *)
Definition allocateView (parent : XrefId) : M ViewCompilationUnit.t :=
  xref <- allocateXrefId ;;
  let view := ViewCompilationUnit.mk xref (Some parent) [] [] ∅ [] in
  _ <- storeView view ;;
  ret view.

(** [job.root.xref] *)
Definition rootXref : M XrefId := fun job => Ok (root_xref job, job).

(** [unit.job.compatibility] as a condition: the legacy mode is the
    non-zero member of the enumeration. *)
Definition inCompatibilityMode : M bool :=
  fun job => Ok (match compatibility job with
                 | TemplateDefinitionBuilder => true
                 | Normal => false
                 end, job).

(** [unit.job.deferBlocksMeta.get(deferBlock)] *)
Definition getDeferBlockMeta (deferBlock : t.DeferredBlock.t t.Node)
  : M (option R3DeferBlockMetadata) :=
  fun job => Ok (deferBlocksMeta job deferBlock, job).

(** ** Operation lists *)

Module Unit.
Import ViewCompilationUnit.
(** [unit.create.push(op)] *)
Definition push_create (u : t) (op : Op) : t :=
  mk (xref u) (parent u) (create u ++ [op]) (update u) (contextVariables u) (aliases u).
(** [unit.create.push(ops)] with an array of operations *)
Definition push_create_all (u : t) (ops : list Op) : t :=
  mk (xref u) (parent u) (create u ++ ops) (update u) (contextVariables u) (aliases u).
(** [unit.update.push(op)] *)
Definition push_update (u : t) (op : Op) : t :=
  mk (xref u) (parent u) (create u) (update u ++ [op]) (contextVariables u) (aliases u).
(** [unit.update.push(ops)] with an array of operations *)
Definition push_update_all (u : t) (ops : list Op) : t :=
  mk (xref u) (parent u) (create u) (update u ++ ops) (contextVariables u) (aliases u).
Definition set_create (u : t) (ops : list Op) : t :=
  mk (xref u) (parent u) ops (update u) (contextVariables u) (aliases u).
(** [unit.contextVariables.set(name, value)] *)
Definition set_contextVariable (u : t) (name value : string) : t :=
  mk (xref u) (parent u) (create u) (update u) (<[name := value]> (contextVariables u))
     (aliases u).
(** [unit.aliases.add(alias)]; every alias is a fresh object. *)
Definition add_alias (u : t) (a : AliasVariable.t) : t :=
  mk (xref u) (parent u) (create u) (update u) (contextVariables u) (aliases u ++ [a]).
End Unit.

Module HostUnit.
Import HostBindingCompilationUnit.
Definition push_create (u : t) (op : Op) : t := mk (xref u) (create u ++ [op]) (update u).
Definition push_update (u : t) (op : Op) : t := mk (xref u) (create u) (update u ++ [op]).
End HostUnit.

(** [OpList.insertBefore(op, target)] where [target] is the last operation
    of the list (the operation just pushed, or the list's tail sentinel). *)
Definition insertBeforeLast (op : Op) (ops : list Op) : list Op :=
  match List.rev ops with
  | [] => [op]
  | target :: before => List.rev before ++ [op; target]
  end.

(** ** Externally provided functions

    The schema registry, the tag-name helpers, the operator table and the
    i18n helpers live in other files; ingestion is stated over them. *)
Record Collaborators := {
  (** [domSchema.securityContext(tagName, propName, isAttribute)] *)
  domSchema_securityContext : string -> string -> bool -> SecurityContext;
  (** [splitNsName(elementName)]: namespace key and local name *)
  splitNsName : string -> option string * string;
  namespaceForKey : option string -> Namespace;
  prefixWithNamespace : string -> Namespace -> string;
  (** [BINARY_OPERATORS.get(operation)] *)
  BINARY_OPERATORS : string -> option BinaryOperator;
  (** [ir.CTX_REF], the marker that stands for the view context as the
      value of a context variable *)
  CTX_REF : string;
  isSingleI18nIcu : i18n.Message -> bool;
  (** [icuFromI18nMessage(message).name] *)
  icuFromI18nMessage_name : i18n.Message -> string
}.

(** Creates an absolute source span from a span relative to the start of
    the expression; null when no base span is given. *)
Definition convertSourceSpan (span : e.ParseSpan.t)
    (baseSourceSpan : option ParseSourceSpan.t) : option ParseSourceSpan.t :=
  match baseSourceSpan with
  | None => None
  | Some base =>
      let start := moveBy (ParseSourceSpan.start base) (e.ParseSpan.start span) in
      let end_ := moveBy (ParseSourceSpan.start base) (e.ParseSpan.end_ span) in
      let fullStart := moveBy (ParseSourceSpan.fullStart base) (e.ParseSpan.start span) in
      Some (ParseSourceSpan.mk start end_ fullStart)
  end.

(** The local variables of the branch loops of [@if] and [@switch]. *)
Module BranchLoop.
Record t := mk {
  unit : ViewCompilationUnit.t;
  firstXref : option XrefId;
  firstSlotHandle : option SlotHandle;
  conditions : list Expression;
  i : nat
}.
End BranchLoop.

(** The local variables of the trigger loop of a deferred block. *)
Module TriggerLoop.
Record t := mk {
  prefetch : bool;
  deferOnOps : list Op;
  deferWhenOps : list Op
}.
End TriggerLoop.

(** The input of host binding ingestion. *)
Module HostBindingInput.
Record t := mk {
  componentName : string;
  componentSelector : string;
  properties : option (list e.ParsedProperty.t);
  attributes : list (string * Expression);
  events : option (list e.ParsedEvent.t)
}.
End HostBindingInput.

(** The one method of the binding parser that ingestion calls. *)
Record BindingParser := {
  calcPossibleSecurityContexts : string -> string -> bool -> list SecurityContext
}.

(** ** Ingestion *)

Section Ingest.
Variable env : Collaborators.

(** Convert a template AST expression into an output AST expression. *)
Fixpoint convertAst (ast : e.AST) (baseSourceSpan : option ParseSourceSpan.t)
    {struct ast} : M Expression :=
  match ast with
  | e.ASTWithSource _ inner => convertAst inner baseSourceSpan
  | e.PropertyRead span receiver name =>
      let isThisReceiver := e.instanceof_ThisReceiver receiver in
      (* Whether this is an implicit receiver, excluding explicit reads of this. *)
      let isImplicitReceiver :=
        e.instanceof_ImplicitReceiver receiver && negb (e.instanceof_ThisReceiver receiver) in
      let isSpecialNode := String.eqb name "$any" || String.eqb name "$event" in
      if isImplicitReceiver || (isThisReceiver && negb isSpecialNode)
      then ret (LexicalReadExpr name)
      else
        receiver' <- convertAst receiver baseSourceSpan ;;
        ret (ReadPropExpr receiver' name (convertSourceSpan span baseSourceSpan))
  | e.PropertyWrite span receiver name value =>
      if e.instanceof_ImplicitReceiver receiver
      then
        root <- rootXref ;;
        value' <- convertAst value baseSourceSpan ;;
        ret (WritePropExpr (ContextExpr root) name value'
               (convertSourceSpan span baseSourceSpan))
      else
        receiver' <- convertAst receiver baseSourceSpan ;;
        value' <- convertAst value baseSourceSpan ;;
        ret (WritePropExpr receiver' name value' (convertSourceSpan span baseSourceSpan))
  | e.KeyedWrite span receiver key value =>
      receiver' <- convertAst receiver baseSourceSpan ;;
      key' <- convertAst key baseSourceSpan ;;
      value' <- convertAst value baseSourceSpan ;;
      ret (WriteKeyExpr receiver' key' value' (convertSourceSpan span baseSourceSpan))
  | e.Call span receiver args =>
      if e.instanceof_ImplicitReceiver receiver
      then throw "Unexpected ImplicitReceiver"
      else
        receiver' <- convertAst receiver baseSourceSpan ;;
        args' <- mapM (fun arg => convertAst arg baseSourceSpan) args ;;
        ret (InvokeFunctionExpr receiver' args' (convertSourceSpan span baseSourceSpan))
  | e.LiteralPrimitive span value =>
      ret (literal value (convertSourceSpan span baseSourceSpan))
  | e.Unary span operator expr =>
      if String.eqb operator "+" then
        expr' <- convertAst expr baseSourceSpan ;;
        ret (UnaryOperatorExpr UnaryPlus expr' (convertSourceSpan span baseSourceSpan))
      else if String.eqb operator "-" then
        expr' <- convertAst expr baseSourceSpan ;;
        ret (UnaryOperatorExpr UnaryMinus expr' (convertSourceSpan span baseSourceSpan))
      else throw ("AssertionError: unknown unary operator " ++ operator)
  | e.Binary span operation left_ right_ =>
      match BINARY_OPERATORS env operation with
      | None => throw ("AssertionError: unknown binary operator " ++ operation)
      | Some operator =>
          left' <- convertAst left_ baseSourceSpan ;;
          right' <- convertAst right_ baseSourceSpan ;;
          ret (BinaryOperatorExpr operator left' right'
                 (convertSourceSpan span baseSourceSpan))
      end
  | e.ThisReceiver _ =>
      root <- rootXref ;;
      ret (ContextExpr root)
  | e.KeyedRead span receiver key =>
      receiver' <- convertAst receiver baseSourceSpan ;;
      key' <- convertAst key baseSourceSpan ;;
      ret (ReadKeyExpr receiver' key' (convertSourceSpan span baseSourceSpan))
  | e.Chain _ _ => throw "AssertionError: Chain in unknown context"
  | e.LiteralMap span keys values =>
      entries <-
        (fix entriesOf (values : list e.AST) (keys : list e.LiteralMapKey)
             {struct values} : M (list (string * Expression * bool)) :=
           match keys with
           | [] => ret []
           | key :: keys' =>
               match values with
               | [] => throw "Unhandled expression type"
               | value :: values' =>
                   value' <- convertAst value baseSourceSpan ;;
                   rest <- entriesOf values' keys' ;;
                   ret ((e.key key, value', e.quoted key) :: rest)
               end
           end) values keys ;;
      ret (LiteralMapExpr entries (convertSourceSpan span baseSourceSpan))
  | e.LiteralArray _ expressions =>
      entries <- mapM (fun expr => convertAst expr baseSourceSpan) expressions ;;
      ret (LiteralArrayExpr entries)
  | e.Conditional span condition trueExp falseExp =>
      condition' <- convertAst condition baseSourceSpan ;;
      trueExp' <- convertAst trueExp baseSourceSpan ;;
      falseExp' <- convertAst falseExp baseSourceSpan ;;
      ret (ConditionalExpr condition' trueExp' falseExp'
             (convertSourceSpan span baseSourceSpan))
  | e.NonNullAssert _ expression =>
      (* A non-null assertion shouldn't impact generated instructions. *)
      convertAst expression baseSourceSpan
  | e.BindingPipe _ exp name args =>
      xref <- allocateXrefId ;;
      exp' <- convertAst exp baseSourceSpan ;;
      args' <- mapM (fun arg => convertAst arg baseSourceSpan) args ;;
      ret (PipeBindingExpr xref new_SlotHandle name (exp' :: args'))
  | e.SafeKeyedRead span receiver key =>
      receiver' <- convertAst receiver baseSourceSpan ;;
      key' <- convertAst key baseSourceSpan ;;
      ret (SafeKeyedReadExpr receiver' key' (convertSourceSpan span baseSourceSpan))
  | e.SafePropertyRead _ receiver name =>
      receiver' <- convertAst receiver baseSourceSpan ;;
      ret (SafePropertyReadExpr receiver' name)
  | e.SafeCall _ receiver args =>
      receiver' <- convertAst receiver baseSourceSpan ;;
      args' <- mapM (fun a => convertAst a baseSourceSpan) args ;;
      ret (SafeInvokeFunctionExpr receiver' args')
  | e.EmptyExpr span => ret (EmptyExpr (convertSourceSpan span baseSourceSpan))
  | e.PrefixNot span expression =>
      expression' <- convertAst expression baseSourceSpan ;;
      ret (not_ expression' (convertSourceSpan span baseSourceSpan))
  | e.ImplicitReceiver _ | e.Interpolation _ _ _ =>
      throw ("Unhandled expression type " ++ e.constructor_name ast)
  end.


(** Ensures that the i18nMeta, if provided, is an i18n.Message. *)
Definition asMessage (i18nMeta : option i18n.I18nMeta) : M (option i18n.Message) :=
  match i18nMeta with
  | None => ret None
  | Some (i18n.IsMessage m) => ret (Some m)
  | Some (i18n.IsNode _) => throw "Expected i18n meta to be a Message"
  end.

Definition astOf (ast : e.AST) : e.AST :=
  match ast with e.ASTWithSource _ inner => inner | _ => ast end.

(** [convertAstWithInterpolation(job, value, i18nMeta, sourceSpan?)]; the
    value of a binding is an expression tree or a plain string. *)
Definition convertAstWithInterpolation (value : e.AST + string)
    (i18nMeta : option i18n.I18nMeta) (sourceSpan : option ParseSourceSpan.t)
  : M BindingExpression :=
  match value with
  | inl (e.Interpolation _ strings expressions) =>
      expressions' <- mapM (fun x => convertAst x sourceSpan) expressions ;;
      message <- asMessage i18nMeta ;;
      let placeholders :=
        match message with Some m => i18n.placeholders m | None => [] end in
      ret (BInterpolation (Interpolation.mk strings expressions' (map fst placeholders)))
  | inl ast =>
      expression <- convertAst ast sourceSpan ;;
      ret (BExpr expression)
  | inr text => ret (BExpr (literal (LString text) None))
  end.

Definition BINDING_KINDS (type : e.BindingType.t) : BindingKind.t :=
  match type with
  | e.BindingType.Property => BindingKind.Property
  | e.BindingType.Attribute => BindingKind.Attribute
  | e.BindingType.Class => BindingKind.ClassName
  | e.BindingType.Style => BindingKind.StyleProperty
  | e.BindingType.Animation => BindingKind.Animation
  end.

(** [makeListenerHandlerOps(unit, handler, handlerSpan)] *)
Definition makeListenerHandlerOps (handler : e.AST) (handlerSpan : ParseSourceSpan.t)
  : M (list Op) :=
  let handler := astOf handler in
  let handlerExprs :=
    match handler with e.Chain _ expressions => expressions | _ => [handler] end in
  if Nat.eqb (List.length handlerExprs) 0
  then throw "Expected listener to have non-empty expression list."
  else
    expressions <- mapM (fun expr => convertAst expr (Some handlerSpan)) handlerExprs ;;
    match List.rev expressions with
    | [] => throw "Expected listener to have non-empty expression list."
    | returnExpr :: before =>
        ret (map (fun x => StatementOp (ExpressionStatement x (sourceSpanOf x)))
                 (List.rev before)
             ++ [StatementOp (ReturnStatement returnExpr (sourceSpanOf returnExpr))])
    end.

(** The fields of an element-like operation ([ir.ElementOpBase]) that the
    binding ingestion reads. *)
Definition op_xref (op : Op) : XrefId :=
  match op with
  | ElementStartOp _ xref _ _ _ _ _ _ => xref
  | TemplateOp xref _ _ _ _ _ _ _ _ _ => xref
  | _ => 0
  end.

Definition op_handle (op : Op) : SlotHandle :=
  match op with
  | ElementStartOp _ _ handle _ _ _ _ _ => handle
  | TemplateOp _ _ _ _ handle _ _ _ _ _ => handle
  | _ => new_SlotHandle
  end.

Definition op_tag (op : Op) : option string :=
  match op with
  | ElementStartOp tag _ _ _ _ _ _ _ => Some tag
  | TemplateOp _ _ tag _ _ _ _ _ _ _ => tag
  | _ => None
  end.

(** [ingestReferences(op, element)]: append the local references to
    [op.localRefs]. *)
Definition ingestReferences (op : Op) (references : list t.Reference.t) : Op :=
  let refs := map (fun r => LocalRef.mk (t.Reference.name r) (t.Reference.value r))
                  references in
  match op with
  | ElementStartOp tag xref handle ns i18nPlaceholder localRefs s w =>
      ElementStartOp tag xref handle ns i18nPlaceholder (localRefs ++ refs) s w
  | TemplateOp xref k tag suffix handle ns i18nPlaceholder localRefs s w =>
      TemplateOp xref k tag suffix handle ns i18nPlaceholder (localRefs ++ refs) s w
  | _ => op
  end.

(** The operation at position [idx] of the create list is the object that
    [ingestReferences] mutates. *)
Definition updateCreateAt (u : ViewCompilationUnit.t) (idx : nat) (op : Op)
  : ViewCompilationUnit.t :=
  Unit.set_create u (<[idx := op]> (ViewCompilationUnit.create u)).

Definition NG_TEMPLATE_TAG_NAME : string := "ng-template".

(** [x !== null] where [x] is the boolean that [Array.prototype.some]
    returns: a boolean is never strictly equal to null. *)
Definition boolean_strictNotEquals_null (x : bool) : bool := true.

(** Truthiness of [b?.i18nMessage]. *)
Definition hasI18nMessage (b : option Op) : bool :=
  match i18nMessage_of b with Some _ => true | None => false end.

(** Checks whether the given template is a plain ng-template. *)
Definition isPlainTemplate (tagName : option string) : bool :=
  String.eqb (snd (splitNsName env (default "" tagName))) NG_TEMPLATE_TAG_NAME.

(** The listener of one output of an element or ng-template. *)
Definition listenerOf (op : Op) (output : t.BoundEvent.t) : M Op :=
  handlerOps <- makeListenerHandlerOps (t.BoundEvent.handler output)
                  (t.BoundEvent.handlerSpan output) ;;
  ret (ListenerOp (op_xref op) (op_handle op) (t.BoundEvent.name output) (op_tag op)
         handlerOps (t.BoundEvent.phase output) (t.BoundEvent.target output) false
         (t.BoundEvent.sourceSpan output)).

Definition animationWithoutPhase (output : t.BoundEvent.t) : bool :=
  e.ParsedEventType.eqb (t.BoundEvent.type output) e.ParsedEventType.Animation
  && match t.BoundEvent.phase output with None => true | Some _ => false end.

(** Process all of the bindings on an element in the template AST and
    convert them to their IR representation. *)
Definition ingestElementBindings (unit : ViewCompilationUnit.t) (op : Op)
    (element : t.Element.t t.Node) : M ViewCompilationUnit.t :=
  attrBindings <-
    mapM (fun attr =>
            (* Attribute literal bindings, such as attr.foo=bar. *)
            let securityContext :=
              domSchema_securityContext env (t.Element.name element)
                (t.TextAttribute.name attr) true in
            expression <- convertAstWithInterpolation (inr (t.TextAttribute.value attr))
                            (t.TextAttribute.i18n attr) None ;;
            message <- asMessage (t.TextAttribute.i18n attr) ;;
            ret (Some (BindingOp (op_xref op) BindingKind.Attribute
                         (t.TextAttribute.name attr) expression None
                         (OneContext securityContext) true false None message
                         (Some (t.TextAttribute.sourceSpan attr)))))
         (t.Element.attributes element) ;;
  inputBindings <-
    mapM (fun input =>
            (* All dynamic bindings (both attribute and property bindings). *)
            expression <- convertAstWithInterpolation
                            (inl (astOf (t.BoundAttribute.value input)))
                            (t.BoundAttribute.i18n input) None ;;
            message <- asMessage (t.BoundAttribute.i18n input) ;;
            ret (Some (BindingOp (op_xref op) (BINDING_KINDS (t.BoundAttribute.type input))
                         (t.BoundAttribute.name input) expression
                         (t.BoundAttribute.unit input)
                         (OneContext (t.BoundAttribute.securityContext input))
                         false false None message
                         (Some (t.BoundAttribute.sourceSpan input)))))
         (t.Element.inputs element) ;;
  let bindings : list (option Op) := attrBindings ++ inputBindings in
  let unit := Unit.push_create_all unit (keep isExtractedAttribute bindings) in
  let unit := Unit.push_update_all unit (keep isBinding bindings) in
  unit <- forM (fun unit output =>
                  if animationWithoutPhase output
                  then throw "Animation listener should have a phase"
                  else
                    listener <- listenerOf op output ;;
                    ret (Unit.push_create unit listener))
               (t.Element.outputs element) unit ;;
  (* If any of the bindings on this element have an i18n message, then an
     i18n attrs configuration op is also required. *)
  if boolean_strictNotEquals_null (existsb hasI18nMessage bindings)
  then
    xref <- allocateXrefId ;;
    ret (Unit.push_create unit (I18nAttributesOp xref new_SlotHandle (op_xref op)))
  else ret unit.


Definition TemplateKind_is (k : option TemplateKind.t) (k' : TemplateKind.t) : bool :=
  match k, k' with
  | Some TemplateKind.NgTemplate, TemplateKind.NgTemplate
  | Some TemplateKind.Structural, TemplateKind.Structural
  | Some TemplateKind.Block, TemplateKind.Block => true
  | _, _ => false
  end.

(** Helper to ingest an individual binding on a template, either an
    explicit ng-template, or an implicit template created via structural
    directive.  Returns an IR binding op, or null if the binding should be
    skipped. *)
Definition createTemplateBinding (xref : XrefId) (type : e.BindingType.t)
    (name : string) (value : e.AST + string) (unit : option string)
    (securityContext : SecurityContext) (isStructuralTemplateAttribute : bool)
    (templateKind : option TemplateKind.t) (i18nMessage : option i18n.Message)
    (sourceSpan : ParseSourceSpan.t) : M (option Op) :=
  let isTextBinding := match value with inr _ => true | inl _ => false end in
  (* If this is a structural template, then several kinds of bindings should
     not result in an update instruction. *)
  if TemplateKind_is templateKind TemplateKind.Structural
     && (negb isStructuralTemplateAttribute
         && (e.BindingType.eqb type e.BindingType.Property
             || e.BindingType.eqb type e.BindingType.Class
             || e.BindingType.eqb type e.BindingType.Style))
  then
    ret (Some (ExtractedAttributeOp xref BindingKind.Property None name None None
                 i18nMessage (OneContext securityContext)))
  else if TemplateKind_is templateKind TemplateKind.Structural
          && (negb isTextBinding
              && (e.BindingType.eqb type e.BindingType.Attribute
                  || e.BindingType.eqb type e.BindingType.Animation))
  then ret None
  else
    let bindingType := BINDING_KINDS type in
    let bindingType :=
      if TemplateKind_is templateKind TemplateKind.NgTemplate
         && (e.BindingType.eqb type e.BindingType.Class
             || e.BindingType.eqb type e.BindingType.Style
             || (e.BindingType.eqb type e.BindingType.Attribute && negb isTextBinding))
      then BindingKind.Property
      else bindingType in
    expression <- convertAstWithInterpolation value (option_map i18n.IsMessage i18nMessage)
                    None ;;
    ret (Some (BindingOp xref bindingType name expression unit
                 (OneContext securityContext) isTextBinding
                 isStructuralTemplateAttribute templateKind i18nMessage
                 (Some sourceSpan))).

(** Process all of the bindings on a template in the template AST and
    convert them to their IR representation. *)
Definition ingestTemplateBindings (unit : ViewCompilationUnit.t) (op : Op)
    (template : t.Template.t t.Node) (templateKind : option TemplateKind.t)
  : M ViewCompilationUnit.t :=
  templateAttrBindings <-
    mapM (fun attr =>
            match attr with
            | inr attr =>
                let securityContext :=
                  domSchema_securityContext env NG_TEMPLATE_TAG_NAME
                    (t.TextAttribute.name attr) true in
                message <- asMessage (t.TextAttribute.i18n attr) ;;
                createTemplateBinding (op_xref op) e.BindingType.Attribute
                  (t.TextAttribute.name attr) (inr (t.TextAttribute.value attr)) None
                  securityContext true templateKind message
                  (t.TextAttribute.sourceSpan attr)
            | inl attr =>
                message <- asMessage (t.BoundAttribute.i18n attr) ;;
                createTemplateBinding (op_xref op) (t.BoundAttribute.type attr)
                  (t.BoundAttribute.name attr) (inl (astOf (t.BoundAttribute.value attr)))
                  (t.BoundAttribute.unit attr) (t.BoundAttribute.securityContext attr)
                  true templateKind message (t.BoundAttribute.sourceSpan attr)
            end)
         (t.Template.templateAttrs template) ;;
  attrBindings <-
    mapM (fun attr =>
            (* Attribute literal bindings, such as attr.foo=bar. *)
            let securityContext :=
              domSchema_securityContext env NG_TEMPLATE_TAG_NAME
                (t.TextAttribute.name attr) true in
            message <- asMessage (t.TextAttribute.i18n attr) ;;
            createTemplateBinding (op_xref op) e.BindingType.Attribute
              (t.TextAttribute.name attr) (inr (t.TextAttribute.value attr)) None
              securityContext false templateKind message
              (t.TextAttribute.sourceSpan attr))
         (t.Template.attributes template) ;;
  inputBindings <-
    mapM (fun input =>
            (* Dynamic bindings (both attribute and property bindings). *)
            message <- asMessage (t.BoundAttribute.i18n input) ;;
            createTemplateBinding (op_xref op) (t.BoundAttribute.type input)
              (t.BoundAttribute.name input) (inl (astOf (t.BoundAttribute.value input)))
              (t.BoundAttribute.unit input) (t.BoundAttribute.securityContext input)
              false templateKind message (t.BoundAttribute.sourceSpan input))
         (t.Template.inputs template) ;;
  let bindings : list (option Op) :=
    templateAttrBindings ++ attrBindings ++ inputBindings in
  let unit := Unit.push_create_all unit (keep isExtractedAttribute bindings) in
  let unit := Unit.push_update_all unit (keep isBinding bindings) in
  unit <- forM (fun unit output =>
                  if animationWithoutPhase output
                  then throw "Animation listener should have a phase"
                  else
                    unit <- (if TemplateKind_is templateKind TemplateKind.NgTemplate
                             then
                               listener <- listenerOf op output ;;
                               ret (Unit.push_create unit listener)
                             else ret unit) ;;
                    if TemplateKind_is templateKind TemplateKind.Structural
                       && negb (e.ParsedEventType.eqb (t.BoundEvent.type output)
                                  e.ParsedEventType.Animation)
                    then
                      (* Animation bindings are excluded from the structural
                         template's const array. *)
                      let securityContext :=
                        domSchema_securityContext env NG_TEMPLATE_TAG_NAME
                          (t.BoundEvent.name output) false in
                      ret (Unit.push_create unit
                             (ExtractedAttributeOp (op_xref op) BindingKind.Property None
                                (t.BoundEvent.name output) None None None
                                (OneContext securityContext)))
                    else ret unit)
               (t.Template.outputs template) unit ;;
  if boolean_strictNotEquals_null (existsb hasI18nMessage bindings)
  then
    xref <- allocateXrefId ;;
    ret (Unit.push_create unit (I18nAttributesOp xref new_SlotHandle (op_xref op)))
  else ret unit.

(** The single root node that the insertion-point inference looks for. *)
Inductive RootNode :=
| RootElement (element : t.Element.t t.Node)
| RootTemplate (tmpl : t.Template.t t.Node).

(** The loop of [ingestControlFlowInsertionPoint] over [node.children],
    started with [root = null].  The outer [None] is the early
    [return null] from inside the loop. *)
Fixpoint findRoot (children : list t.Node) (root : option RootNode)
  : option (option RootNode) :=
  match children with
  | [] => Some root
  | child :: rest =>
      (* Skip over comment nodes. *)
      if t.instanceof_Comment child then findRoot rest root
      else
        (* We can only infer the tag name/attributes if there's a single
           root node. *)
        match root with
        | Some _ => None
        | None =>
            (* Root nodes can only elements or templates with a tag name. *)
            match child with
            | t.Element element => findRoot rest (Some (RootElement element))
            | t.Template tmpl =>
                match t.Template.tagName tmpl with
                | Some _ => findRoot rest (Some (RootTemplate tmpl))
                | None => findRoot rest root
                end
            | _ => findRoot rest root
            end
        end
  end.

Definition root_attributes (root : RootNode) : list t.TextAttribute.t :=
  match root with
  | RootElement element => t.Element.attributes element
  | RootTemplate tmpl => t.Template.attributes tmpl
  end.

(** Copies the tag name and the static attributes of the single root node
    of a control flow branch to the surrounding template.  Returns the tag
    name to be used for the control flow template. *)
Definition ingestControlFlowInsertionPoint (unit : ViewCompilationUnit.t)
    (xref : XrefId) (children : list t.Node)
  : M (ViewCompilationUnit.t * option string) :=
  match findRoot children None with
  | None => ret (unit, None)
  | Some None => ret (unit, None)
  | Some (Some root) =>
      unit <- forM (fun unit attr =>
                      let securityContext :=
                        domSchema_securityContext env NG_TEMPLATE_TAG_NAME
                          (t.TextAttribute.name attr) true in
                      message <- asMessage (t.TextAttribute.i18n attr) ;;
                      ret (Unit.push_update unit
                             (BindingOp xref BindingKind.Attribute
                                (t.TextAttribute.name attr)
                                (BExpr (literal (LString (t.TextAttribute.value attr)) None))
                                None (OneContext securityContext) true false None message
                                (Some (t.TextAttribute.sourceSpan attr)))))
                   (root_attributes root) unit ;;
      let tagName :=
        match root with
        | RootElement element => Some (t.Element.name element)
        | RootTemplate tmpl => t.Template.tagName tmpl
        end in
      (* Don't pass along ng-template tag name since it enables directive
         matching. *)
      ret (unit, match tagName with
                 | Some name => if String.eqb name NG_TEMPLATE_TAG_NAME then None
                                else Some name
                 | None => None
                 end)
  end.


(** Ingest a content node from the AST into the given view. *)
Definition ingestContent (unit : ViewCompilationUnit.t) (content : t.Content.t)
  : M ViewCompilationUnit.t :=
  _ <- match t.Content.i18n content with
       | Some meta =>
           throwIf (negb (i18n.instanceof_TagPlaceholder meta))
             "Unhandled i18n metadata type for element"
       | None => ret tt
       end ;;
  xref <- allocateXrefId ;;
  let op := ProjectionOp xref (t.Content.selector content) (t.Content.i18n content)
              (t.Content.sourceSpan content) in
  unit <- forM (fun unit attr =>
                  let securityContext :=
                    domSchema_securityContext env (t.Content.name content)
                      (t.TextAttribute.name attr) true in
                  message <- asMessage (t.TextAttribute.i18n attr) ;;
                  ret (Unit.push_update unit
                         (BindingOp xref BindingKind.Attribute (t.TextAttribute.name attr)
                            (BExpr (literal (LString (t.TextAttribute.value attr)) None))
                            None (OneContext securityContext) true false None message
                            (Some (t.TextAttribute.sourceSpan attr)))))
               (t.Content.attributes content) unit ;;
  ret (Unit.push_create unit op).

(** Ingest a literal text node from the AST into the given view. *)
Definition ingestText (unit : ViewCompilationUnit.t) (text : t.Text.t)
    (icuPlaceholder : option string) : M ViewCompilationUnit.t :=
  xref <- allocateXrefId ;;
  ret (Unit.push_create unit
         (TextOp xref (t.Text.value text) icuPlaceholder (Some (t.Text.sourceSpan text)))).

Definition i18nPlaceholderNames (children : list i18n.Node) : list string :=
  omap (fun node => match node with
                    | i18n.Placeholder _ name => Some name
                    | _ => None
                    end) children.

(** Ingest an interpolated text node from the AST into the given view. *)
Definition ingestBoundText (unit : ViewCompilationUnit.t) (text : t.BoundText.t)
    (icuPlaceholder : option string) : M ViewCompilationUnit.t :=
  let value := astOf (t.BoundText.value text) in
  match value with
  | e.Interpolation _ strings expressions =>
      _ <- match t.BoundText.i18n text with
           | Some meta =>
               throwIf (negb (i18n.instanceof_Container meta))
                 "Unhandled i18n metadata type for text interpolation"
           | None => ret tt
           end ;;
      let i18nPlaceholders :=
        match t.BoundText.i18n text with
        | Some (i18n.IsNode (i18n.Container children)) => i18nPlaceholderNames children
        | _ => []
        end in
      if Nat.ltb 0 (List.length i18nPlaceholders)
         && negb (Nat.eqb (List.length i18nPlaceholders) (List.length expressions))
      then throw "Unexpected number of i18n placeholders for BoundText"
      else
        textXref <- allocateXrefId ;;
        let unit := Unit.push_create unit
                      (TextOp textXref "" icuPlaceholder
                         (Some (t.BoundText.sourceSpan text))) in
        (* TemplateDefinitionBuilder does not generate source maps for
           sub-expressions inside an interpolation. *)
        compat <- inCompatibilityMode ;;
        let baseSourceSpan :=
          if compat then None else Some (t.BoundText.sourceSpan text) in
        expressions' <- mapM (fun expr => convertAst expr baseSourceSpan) expressions ;;
        ret (Unit.push_update unit
               (InterpolateTextOp textXref
                  (Interpolation.mk strings expressions' i18nPlaceholders)
                  (t.BoundText.sourceSpan text)))
  | _ =>
      throw ("AssertionError: expected Interpolation for BoundText node, got "
             ++ e.constructor_name value)
  end.

(** [{...a, ...b}]: the entries of [a], each with the value [b] gives its
    key if any, followed by the entries of [b] under new keys. *)
Definition objectSpread {V} (a b : list (string * V)) : list (string * V) :=
  fold_left
    (fun acc kv =>
       if existsb (fun kv' => String.eqb (fst kv') (fst kv)) acc
       then map (fun kv' => if String.eqb (fst kv') (fst kv) then kv else kv') acc
       else acc ++ [kv])
    b a.

Definition ingestIcu (unit : ViewCompilationUnit.t) (icu : t.Icu.t)
  : M ViewCompilationUnit.t :=
  match t.Icu.i18n icu with
  | Some (i18n.IsMessage message) =>
      if isSingleI18nIcu env message
      then
        xref <- allocateXrefId ;;
        let unit := Unit.push_create unit
                      (IcuStartOp xref message (icuFromI18nMessage_name env message) None) in
        unit <- forM (fun unit entry =>
                        match snd entry with
                        | inr text => ingestBoundText unit text (Some (fst entry))
                        | inl text => ingestText unit text (Some (fst entry))
                        end)
                     (objectSpread
                        (map (fun kv => (fst kv, inr (snd kv))) (t.Icu.vars icu))
                        (t.Icu.placeholders icu))
                     unit ;;
        ret (Unit.push_create unit (IcuEndOp xref))
      else throw "Unhandled i18n metadata type for ICU"
  | _ => throw "Unhandled i18n metadata type for ICU"
  end.


(** *** The node ingestors

    Each ingestor of a node that owns child nodes is written over the node
    dispatcher [ingestNodes], which is tied to them by recursion on the
    template tree below. *)
Section Nodes.
Variable ingestNodes : ViewCompilationUnit.t -> list t.Node -> M ViewCompilationUnit.t.

Definition i18n_as (p : i18n.I18nMeta -> bool) (meta : option i18n.I18nMeta)
  : option i18n.I18nMeta :=
  match meta with
  | Some m => if p m then Some m else None
  | None => None
  end.

(** [meta !== undefined && !(meta instanceof A || meta instanceof B)] *)
Definition definedAndNot (p : i18n.I18nMeta -> bool) (meta : option i18n.I18nMeta)
  : bool :=
  match meta with
  | Some m => negb (p m)
  | None => false
  end.

(** Ingest an element AST from the template into the given view. *)
Definition ingestElementWith (unit : ViewCompilationUnit.t)
    (element : t.Element.t t.Node) : M ViewCompilationUnit.t :=
  _ <- throwIf (definedAndNot
                  (fun m => i18n.instanceof_Message m || i18n.instanceof_TagPlaceholder m)
                  (t.Element.i18n element))
         "Unhandled i18n metadata type for element" ;;
  id <- allocateXrefId ;;
  let (namespaceKey, elementName) := splitNsName env (t.Element.name element) in
  let startOp :=
    ElementStartOp elementName id new_SlotHandle (namespaceForKey env namespaceKey)
      (i18n_as i18n.instanceof_TagPlaceholder (t.Element.i18n element)) []
      (t.Element.startSourceSpan element) (t.Element.sourceSpan element) in
  let startIdx := List.length (ViewCompilationUnit.create unit) in
  let unit := Unit.push_create unit startOp in
  unit <- ingestElementBindings unit startOp element ;;
  let unit := updateCreateAt unit startIdx
                (ingestReferences startOp (t.Element.references element)) in
  (* Start i18n, if needed, goes after the element create and bindings, but
     before the nodes. *)
  r <- match t.Element.i18n element with
       | Some (i18n.IsMessage message) =>
           i18nBlockId <- allocateXrefId ;;
           ret (Unit.push_create unit
                  (I18nStartOp i18nBlockId message None
                     (Some (t.Element.startSourceSpan element))),
                Some i18nBlockId)
       | _ => ret (unit, None)
       end ;;
  let (unit, i18nBlockId) := r : ViewCompilationUnit.t * option XrefId in
  unit <- ingestNodes unit (t.Element.children element) ;;
  (* The source span for the end op is typically the element closing tag.
     However, if no closing tag exists, such as in an input, we use the start
     source span instead. *)
  let endOp :=
    ElementEndOp id (Some (default (t.Element.startSourceSpan element)
                             (t.Element.endSourceSpan element))) in
  let unit := Unit.push_create unit endOp in
  (* If there is an i18n message associated with this element, insert i18n
     start and end ops. *)
  match i18nBlockId with
  | Some i18nBlockId =>
      ret (Unit.set_create unit
             (insertBeforeLast
                (I18nEndOp i18nBlockId
                   (Some (default (t.Element.startSourceSpan element)
                            (t.Element.endSourceSpan element))))
                (ViewCompilationUnit.create unit)))
  | None => ret unit
  end.

(** [if (tmpl.tagName)]: neither null nor the empty string. *)
Definition truthy_string (x : option string) : bool :=
  match x with
  | Some x => negb (String.eqb x "")
  | None => false
  end.

(** Ingest an ng-template node from the AST into the given view. *)
Definition ingestTemplateWith (unit : ViewCompilationUnit.t)
    (tmpl : t.Template.t t.Node) : M ViewCompilationUnit.t :=
  _ <- throwIf (definedAndNot
                  (fun m => i18n.instanceof_Message m || i18n.instanceof_TagPlaceholder m)
                  (t.Template.i18n tmpl))
         "Unhandled i18n metadata type for template" ;;
  childView <- allocateView (ViewCompilationUnit.xref unit) ;;
  let (namespacePrefix, tagNameWithoutNamespace) :=
    (if truthy_string (t.Template.tagName tmpl)
     then
       let (prefix, name) := splitNsName env (default "" (t.Template.tagName tmpl)) in
       (prefix, Some name)
     else (Some "", t.Template.tagName tmpl)) : option string * option string in
  let i18nPlaceholder := i18n_as i18n.instanceof_TagPlaceholder (t.Template.i18n tmpl) in
  let namespace := namespaceForKey env namespacePrefix in
  let functionNameSuffix :=
    match tagNameWithoutNamespace with
    | None => ""
    | Some name => prefixWithNamespace env name namespace
    end in
  let templateKind :=
    if isPlainTemplate (t.Template.tagName tmpl)
    then TemplateKind.NgTemplate else TemplateKind.Structural in
  let templateOp :=
    TemplateOp (ViewCompilationUnit.xref childView) templateKind tagNameWithoutNamespace
      functionNameSuffix new_SlotHandle namespace i18nPlaceholder []
      (t.Template.startSourceSpan tmpl) (t.Template.sourceSpan tmpl) in
  let templateIdx := List.length (ViewCompilationUnit.create unit) in
  let unit := Unit.push_create unit templateOp in
  unit <- ingestTemplateBindings unit templateOp tmpl (Some templateKind) ;;
  let unit := updateCreateAt unit templateIdx
                (ingestReferences templateOp (t.Template.references tmpl)) in
  childView <- ingestNodes childView (t.Template.children tmpl) ;;
  let childView :=
    fold_left
      (fun view variable =>
         Unit.set_contextVariable view (TemplateVariable.name variable)
           (if negb (String.eqb (TemplateVariable.value variable) "")
            then TemplateVariable.value variable else "$implicit"))
      (t.Template.variables tmpl) childView in
  (* If this is a plain template and there is an i18n message associated
     with it, insert i18n start and end ops around the child's create list
     (after its head marker and before its tail marker). *)
  childView <-
    match templateKind, t.Template.i18n tmpl with
    | TemplateKind.NgTemplate, Some (i18n.IsMessage message) =>
        id <- allocateXrefId ;;
        ret (Unit.set_create childView
               ([I18nStartOp id message None (Some (t.Template.startSourceSpan tmpl))]
                ++ ViewCompilationUnit.create childView
                ++ [I18nEndOp id
                      (Some (default (t.Template.startSourceSpan tmpl)
                               (t.Template.endSourceSpan tmpl)))]))
    | _, _ => ret childView
    end ;;
  _ <- storeView childView ;;
  ret unit.

(** The body of the branch loop of [ingestIfBlock]. *)
Definition ingestIfBranch (acc : BranchLoop.t) (ifCase : t.IfBlockBranch.t t.Node)
  : M BranchLoop.t :=
  let unit := BranchLoop.unit acc in
  cView <- allocateView (ViewCompilationUnit.xref unit) ;;
  (* Only the first branch can be used for projection, because the
     conditional uses the container of the first branch as the insertion
     point for all branches. *)
  r <- (if Nat.eqb (BranchLoop.i acc) 0
        then ingestControlFlowInsertionPoint unit (ViewCompilationUnit.xref cView)
               (t.IfBlockBranch.children ifCase)
        else ret (unit, None)) ;;
  let (unit, tagName) := r : ViewCompilationUnit.t * option string in
  let cView :=
    match t.IfBlockBranch.expressionAlias ifCase with
    | Some alias =>
        Unit.set_contextVariable cView (TemplateVariable.name alias) (CTX_REF env)
    | None => cView
    end in
  _ <- throwIf (definedAndNot i18n.instanceof_BlockPlaceholder
                  (t.IfBlockBranch.i18n ifCase))
         "Unhandled i18n metadata type for if block" ;;
  let ifCaseI18nMeta := t.IfBlockBranch.i18n ifCase in
  let templateOp :=
    TemplateOp (ViewCompilationUnit.xref cView) TemplateKind.Block tagName "Conditional"
      new_SlotHandle NS_HTML ifCaseI18nMeta []
      (t.IfBlockBranch.startSourceSpan ifCase) (t.IfBlockBranch.sourceSpan ifCase) in
  let unit := Unit.push_create unit templateOp in
  let (firstXref, firstSlotHandle) :=
    match BranchLoop.firstXref acc with
    | None => (Some (ViewCompilationUnit.xref cView), Some (op_handle templateOp))
    | Some x => (Some x, BranchLoop.firstSlotHandle acc)
    end in
  caseExpr <- match t.IfBlockBranch.expression ifCase with
              | Some expression =>
                  x <- convertAst expression None ;; ret (Some x)
              | None => ret None
              end ;;
  let conditionalCaseExpr :=
    ConditionalCaseExpr caseExpr (op_xref templateOp) (op_handle templateOp)
      (t.IfBlockBranch.expressionAlias ifCase) in
  cView <- ingestNodes cView (t.IfBlockBranch.children ifCase) ;;
  _ <- storeView cView ;;
  ret (BranchLoop.mk unit firstXref firstSlotHandle
         (BranchLoop.conditions acc ++ [conditionalCaseExpr]) (S (BranchLoop.i acc))).

(** Ingest an [@if] block into the given view. *)
Definition ingestIfBlockWith (unit : ViewCompilationUnit.t)
    (ifBlock : t.IfBlock.t t.Node) : M ViewCompilationUnit.t :=
  acc <- forM ingestIfBranch (t.IfBlock.branches ifBlock)
           (BranchLoop.mk unit None None [] 0) ;;
  let conditional :=
    ConditionalOp (BranchLoop.firstXref acc) (BranchLoop.firstSlotHandle acc) None
      (BranchLoop.conditions acc) (t.IfBlock.sourceSpan ifBlock) in
  ret (Unit.push_update (BranchLoop.unit acc) conditional).

(** The body of the case loop of [ingestSwitchBlock]. *)
Definition ingestSwitchCase (startSourceSpan : ParseSourceSpan.t)
    (acc : BranchLoop.t) (switchCase : t.SwitchBlockCase.t t.Node) : M BranchLoop.t :=
  let unit := BranchLoop.unit acc in
  cView <- allocateView (ViewCompilationUnit.xref unit) ;;
  _ <- throwIf (definedAndNot i18n.instanceof_BlockPlaceholder
                  (t.SwitchBlockCase.i18n switchCase))
         "Unhandled i18n metadata type for switch block" ;;
  let switchCaseI18nMeta := t.SwitchBlockCase.i18n switchCase in
  let templateOp :=
    TemplateOp (ViewCompilationUnit.xref cView) TemplateKind.Block None "Case"
      new_SlotHandle NS_HTML switchCaseI18nMeta []
      (t.SwitchBlockCase.startSourceSpan switchCase)
      (t.SwitchBlockCase.sourceSpan switchCase) in
  let unit := Unit.push_create unit templateOp in
  let (firstXref, firstSlotHandle) :=
    match BranchLoop.firstXref acc with
    | None => (Some (ViewCompilationUnit.xref cView), Some (op_handle templateOp))
    | Some x => (Some x, BranchLoop.firstSlotHandle acc)
    end in
  caseExpr <- match t.SwitchBlockCase.expression switchCase with
              | Some expression =>
                  x <- convertAst expression (Some startSourceSpan) ;; ret (Some x)
              | None => ret None
              end ;;
  let conditionalCaseExpr :=
    ConditionalCaseExpr caseExpr (op_xref templateOp) (op_handle templateOp) None in
  cView <- ingestNodes cView (t.SwitchBlockCase.children switchCase) ;;
  _ <- storeView cView ;;
  ret (BranchLoop.mk unit firstXref firstSlotHandle
         (BranchLoop.conditions acc ++ [conditionalCaseExpr]) (S (BranchLoop.i acc))).

(** Ingest an [@switch] block into the given view. *)
Definition ingestSwitchBlockWith (unit : ViewCompilationUnit.t)
    (switchBlock : t.SwitchBlock.t t.Node) : M ViewCompilationUnit.t :=
  (* Don't ingest empty switches since they won't render anything. *)
  if Nat.eqb (List.length (t.SwitchBlock.cases switchBlock)) 0
  then ret unit
  else
    acc <- forM (ingestSwitchCase (t.SwitchBlock.startSourceSpan switchBlock))
             (t.SwitchBlock.cases switchBlock) (BranchLoop.mk unit None None [] 0) ;;
    test <- convertAst (t.SwitchBlock.expression switchBlock) None ;;
    let conditional :=
      ConditionalOp (BranchLoop.firstXref acc) (BranchLoop.firstSlotHandle acc)
        (Some test) (BranchLoop.conditions acc) (t.SwitchBlock.sourceSpan switchBlock) in
    ret (Unit.push_update (BranchLoop.unit acc) conditional).

(** [ingestDeferView(unit, suffix, i18nMeta, children, sourceSpan)].  The
    children and the source span come from the same optional sub-block, so
    they are present or absent together. *)
Definition ingestDeferViewWith (unit : ViewCompilationUnit.t) (suffix : string)
    (i18nMeta : option i18n.I18nMeta)
    (block : option (list t.Node * ParseSourceSpan.t))
  : M (ViewCompilationUnit.t * option Op) :=
  _ <- throwIf (definedAndNot i18n.instanceof_BlockPlaceholder i18nMeta)
         "Unhandled i18n metadata type for defer block" ;;
  match block with
  | None => ret (unit, None)
  | Some (children, sourceSpan) =>
      secondaryView <- allocateView (ViewCompilationUnit.xref unit) ;;
      secondaryView <- ingestNodes secondaryView children ;;
      _ <- storeView secondaryView ;;
      let templateOp :=
        TemplateOp (ViewCompilationUnit.xref secondaryView) TemplateKind.Block None
          ("Defer" ++ suffix)%string new_SlotHandle NS_HTML i18nMeta [] sourceSpan sourceSpan in
      ret (Unit.push_create unit templateOp, Some templateOp)
  end.

Definition unresolvedTarget (reference : option string) : DeferTarget.t :=
  DeferTarget.mk reference None None None None.

(** One pass of the trigger loop of [ingestDeferBlock], over the regular
    or over the prefetch triggers. *)
Definition ingestDeferTriggers (deferXref : XrefId) (acc : TriggerLoop.t)
    (triggers : t.DeferredBlockTriggers.t) : M TriggerLoop.t :=
  let prefetch := TriggerLoop.prefetch acc in
  let deferOnOps := TriggerLoop.deferOnOps acc in
  let deferWhenOps := TriggerLoop.deferWhenOps acc in
  let deferOnOps :=
    match t.DeferredBlockTriggers.idle triggers with
    | Some idle =>
        deferOnOps ++ [DeferOnOp deferXref DeferTrigger.Idle prefetch
                         (Some (t.IdleDeferredTrigger.sourceSpan idle))]
    | None => deferOnOps
    end in
  let deferOnOps :=
    match t.DeferredBlockTriggers.immediate triggers with
    | Some immediate =>
        deferOnOps ++ [DeferOnOp deferXref DeferTrigger.Immediate prefetch
                         (Some (t.ImmediateDeferredTrigger.sourceSpan immediate))]
    | None => deferOnOps
    end in
  let deferOnOps :=
    match t.DeferredBlockTriggers.timer triggers with
    | Some timer =>
        deferOnOps ++ [DeferOnOp deferXref
                         (DeferTrigger.Timer (t.TimerDeferredTrigger.delay timer)) prefetch
                         (Some (t.TimerDeferredTrigger.sourceSpan timer))]
    | None => deferOnOps
    end in
  let deferOnOps :=
    match t.DeferredBlockTriggers.hover triggers with
    | Some hover =>
        deferOnOps ++ [DeferOnOp deferXref
                         (DeferTrigger.Hover
                            (unresolvedTarget (t.HoverDeferredTrigger.reference hover)))
                         prefetch (Some (t.HoverDeferredTrigger.sourceSpan hover))]
    | None => deferOnOps
    end in
  let deferOnOps :=
    match t.DeferredBlockTriggers.interaction triggers with
    | Some interaction =>
        deferOnOps ++ [DeferOnOp deferXref
                         (DeferTrigger.Interaction
                            (unresolvedTarget
                               (t.InteractionDeferredTrigger.reference interaction)))
                         prefetch
                         (Some (t.InteractionDeferredTrigger.sourceSpan interaction))]
    | None => deferOnOps
    end in
  let deferOnOps :=
    match t.DeferredBlockTriggers.viewport triggers with
    | Some viewport =>
        deferOnOps ++ [DeferOnOp deferXref
                         (DeferTrigger.Viewport
                            (unresolvedTarget
                               (t.ViewportDeferredTrigger.reference viewport)))
                         prefetch (Some (t.ViewportDeferredTrigger.sourceSpan viewport))]
    | None => deferOnOps
    end in
  deferWhenOps <-
    match t.DeferredBlockTriggers.when triggers with
    | Some when =>
        if e.instanceof_Interpolation (t.BoundDeferredTrigger.value when)
        then throw "Unexpected interpolation in defer block when trigger"
        else
          expr <- convertAst (t.BoundDeferredTrigger.value when)
                    (Some (t.BoundDeferredTrigger.sourceSpan when)) ;;
          ret (deferWhenOps ++ [DeferWhenOp deferXref expr prefetch
                                  (Some (t.BoundDeferredTrigger.sourceSpan when))])
    | None => ret deferWhenOps
    end ;;
  (* If no (non-prefetching) defer triggers were provided, default to idle. *)
  let deferOnOps :=
    if Nat.eqb (List.length deferOnOps) 0 && Nat.eqb (List.length deferWhenOps) 0
    then deferOnOps ++ [DeferOnOp deferXref DeferTrigger.Idle false None]
    else deferOnOps in
  ret (TriggerLoop.mk true deferOnOps deferWhenOps).

Definition ingestDeferBlockWith (unit : ViewCompilationUnit.t)
    (deferBlock : t.DeferredBlock.t t.Node) : M ViewCompilationUnit.t :=
  blockMeta <- getDeferBlockMeta deferBlock ;;
  match blockMeta with
  | None => throw "AssertionError: unable to find metadata for deferred block"
  | Some blockMeta =>
      (* Generate the defer main view and all secondary views. *)
      r <- ingestDeferViewWith unit "" (t.DeferredBlock.i18n deferBlock)
             (Some (t.DeferredBlock.children deferBlock,
                    t.DeferredBlock.sourceSpan deferBlock)) ;;
      let (unit, main) := r : ViewCompilationUnit.t * option Op in
      r <- match t.DeferredBlock.loading deferBlock with
           | Some loading =>
               ingestDeferViewWith unit "Loading" (t.DeferredBlockLoading.i18n loading)
                 (Some (t.DeferredBlockLoading.children loading,
                        t.DeferredBlockLoading.sourceSpan loading))
           | None => ingestDeferViewWith unit "Loading" None None
           end ;;
      let (unit, loading) := r : ViewCompilationUnit.t * option Op in
      r <- match t.DeferredBlock.placeholder deferBlock with
           | Some placeholder =>
               ingestDeferViewWith unit "Placeholder"
                 (t.DeferredBlockPlaceholder.i18n placeholder)
                 (Some (t.DeferredBlockPlaceholder.children placeholder,
                        t.DeferredBlockPlaceholder.sourceSpan placeholder))
           | None => ingestDeferViewWith unit "Placeholder" None None
           end ;;
      let (unit, placeholder) := r : ViewCompilationUnit.t * option Op in
      r <- match t.DeferredBlock.error deferBlock with
           | Some error =>
               ingestDeferViewWith unit "Error" (t.DeferredBlockError.i18n error)
                 (Some (t.DeferredBlockError.children error,
                        t.DeferredBlockError.sourceSpan error))
           | None => ingestDeferViewWith unit "Error" None None
           end ;;
      let (unit, error) := r : ViewCompilationUnit.t * option Op in
      match main with
      | None => throw "TypeError: main is null"
      | Some main =>
          (* Create the main defer op, and ops for all secondary views. *)
          deferXref <- allocateXrefId ;;
          let slots :=
            DeferSlots.mk (option_map op_xref placeholder) (option_map op_handle placeholder)
              (option_map op_handle loading) (option_map op_handle error)
              (t.DeferredBlock.placeholder deferBlock
                 ≫= t.DeferredBlockPlaceholder.minimumTime)
              (t.DeferredBlock.loading deferBlock ≫= t.DeferredBlockLoading.minimumTime)
              (t.DeferredBlock.loading deferBlock ≫= t.DeferredBlockLoading.afterTime) in
          let deferOp :=
            DeferOp deferXref (op_xref main) (op_handle main) blockMeta slots
              (t.DeferredBlock.sourceSpan deferBlock) in
          let unit := Unit.push_create unit deferOp in
          (* Configure all defer on conditions. *)
          acc <- forM (ingestDeferTriggers deferXref)
                   [t.DeferredBlock.triggers deferBlock;
                    t.DeferredBlock.prefetchTriggers deferBlock]
                   (TriggerLoop.mk false [] []) ;;
          let unit := Unit.push_create_all unit (TriggerLoop.deferOnOps acc) in
          ret (Unit.push_update_all unit (TriggerLoop.deferWhenOps acc))
      end
  end.

(** The decimal rendering of an identifier inside a template string. *)
Definition xrefToString (xref : XrefId) : string :=
  NilZero.string_of_uint (Nat.to_uint xref).

(** Ingest an [@for] block into the given view. *)
Definition ingestForBlockWith (unit : ViewCompilationUnit.t)
    (forBlock : t.ForLoopBlock.t t.Node) : M ViewCompilationUnit.t :=
  repeaterView <- allocateView (ViewCompilationUnit.xref unit) ;;
  let ctx := t.ForLoopBlock.contextVariables forBlock in
  let item := t.ForLoopBlock.item forBlock in
  (* Set all the context variables and aliases available in the repeater. *)
  let repeaterView :=
    Unit.set_contextVariable repeaterView (TemplateVariable.name item)
      (TemplateVariable.value item) in
  let repeaterView :=
    Unit.set_contextVariable repeaterView
      (TemplateVariable.name (t.ForLoopBlockContext.index ctx))
      (TemplateVariable.value (t.ForLoopBlockContext.index ctx)) in
  let repeaterView :=
    Unit.set_contextVariable repeaterView
      (TemplateVariable.name (t.ForLoopBlockContext.count ctx))
      (TemplateVariable.value (t.ForLoopBlockContext.count ctx)) in
  (* Names for $count and $index that are suffixed with the view, to
     disambiguate which level of nested loop the aliases refer to. *)
  let indexName :=
    ("ɵ" ++ TemplateVariable.name (t.ForLoopBlockContext.index ctx) ++ "_"
     ++ xrefToString (ViewCompilationUnit.xref repeaterView))%string in
  let countName :=
    ("ɵ" ++ TemplateVariable.name (t.ForLoopBlockContext.count ctx) ++ "_"
     ++ xrefToString (ViewCompilationUnit.xref repeaterView))%string in
  let repeaterView :=
    Unit.set_contextVariable repeaterView indexName
      (TemplateVariable.value (t.ForLoopBlockContext.index ctx)) in
  let repeaterView :=
    Unit.set_contextVariable repeaterView countName
      (TemplateVariable.value (t.ForLoopBlockContext.count ctx)) in
  let repeaterView :=
    Unit.add_alias repeaterView
      (AliasVariable.mk (TemplateVariable.name (t.ForLoopBlockContext.first ctx))
         (identical (LexicalReadExpr indexName) (literal (LNumber 0) None))) in
  let repeaterView :=
    Unit.add_alias repeaterView
      (AliasVariable.mk (TemplateVariable.name (t.ForLoopBlockContext.last ctx))
         (identical (LexicalReadExpr indexName)
            (minus (LexicalReadExpr countName) (literal (LNumber 1) None)))) in
  let repeaterView :=
    Unit.add_alias repeaterView
      (AliasVariable.mk (TemplateVariable.name (t.ForLoopBlockContext.even ctx))
         (identical (modulo (LexicalReadExpr indexName) (literal (LNumber 2) None))
            (literal (LNumber 0) None))) in
  let repeaterView :=
    Unit.add_alias repeaterView
      (AliasVariable.mk (TemplateVariable.name (t.ForLoopBlockContext.odd ctx))
         (notIdentical (modulo (LexicalReadExpr indexName) (literal (LNumber 2) None))
            (literal (LNumber 0) None))) in
  let sourceSpan :=
    convertSourceSpan (e.span_of (t.ForLoopBlock.trackBy forBlock))
      (Some (t.ForLoopBlock.sourceSpan forBlock)) in
  track <- convertAst (t.ForLoopBlock.trackBy forBlock) sourceSpan ;;
  repeaterView <- ingestNodes repeaterView (t.ForLoopBlock.children forBlock) ;;
  _ <- storeView repeaterView ;;
  r <- match t.ForLoopBlock.empty forBlock with
       | Some empty =>
           emptyView <- allocateView (ViewCompilationUnit.xref unit) ;;
           emptyView <- ingestNodes emptyView (t.ForLoopBlockEmpty.children empty) ;;
           _ <- storeView emptyView ;;
           r <- ingestControlFlowInsertionPoint unit (ViewCompilationUnit.xref emptyView)
                  (t.ForLoopBlockEmpty.children empty) ;;
           ret (fst r, Some (ViewCompilationUnit.xref emptyView), snd r)
       | None => ret (unit, None, None)
       end ;;
  let '(unit, emptyView, emptyTagName) :=
    r : ViewCompilationUnit.t * option XrefId * option string in
  let varNames :=
    RepeaterVarNames.mk
      (TemplateVariable.name (t.ForLoopBlockContext.index ctx))
      (TemplateVariable.name (t.ForLoopBlockContext.count ctx))
      (TemplateVariable.name (t.ForLoopBlockContext.first ctx))
      (TemplateVariable.name (t.ForLoopBlockContext.last ctx))
      (TemplateVariable.name (t.ForLoopBlockContext.even ctx))
      (TemplateVariable.name (t.ForLoopBlockContext.odd ctx))
      (TemplateVariable.name item) in
  _ <- throwIf (definedAndNot i18n.instanceof_BlockPlaceholder
                  (t.ForLoopBlock.i18n forBlock))
         "AssertionError: Unhandled i18n metadata type or @for" ;;
  _ <- throwIf (definedAndNot i18n.instanceof_BlockPlaceholder
                  (t.ForLoopBlock.empty forBlock ≫= t.ForLoopBlockEmpty.i18n))
         "AssertionError: Unhandled i18n metadata type or @empty" ;;
  let i18nPlaceholder := t.ForLoopBlock.i18n forBlock in
  let emptyI18nPlaceholder := t.ForLoopBlock.empty forBlock ≫= t.ForLoopBlockEmpty.i18n in
  r <- ingestControlFlowInsertionPoint unit (ViewCompilationUnit.xref repeaterView)
         (t.ForLoopBlock.children forBlock) ;;
  let (unit, tagName) := r : ViewCompilationUnit.t * option string in
  (* The repeater-create operation is addressed by its primary view and
     owns a fresh slot handle; the repeater operation refers to both. *)
  let handle := new_SlotHandle in
  let repeaterCreate :=
    RepeaterCreateOp (ViewCompilationUnit.xref repeaterView) emptyView tagName track
      varNames emptyTagName handle i18nPlaceholder emptyI18nPlaceholder
      (t.ForLoopBlock.startSourceSpan forBlock) (t.ForLoopBlock.sourceSpan forBlock) in
  let unit := Unit.push_create unit repeaterCreate in
  expression <- convertAst (t.ForLoopBlock.expression forBlock)
                  (convertSourceSpan (e.span_of (t.ForLoopBlock.expression forBlock))
                     (Some (t.ForLoopBlock.sourceSpan forBlock))) ;;
  let repeater :=
    RepeaterOp (ViewCompilationUnit.xref repeaterView) handle expression
      (t.ForLoopBlock.sourceSpan forBlock) in
  ret (Unit.push_update unit repeater).

End Nodes.

(** Ingest the nodes of a template AST into the given view: the body of
    the dispatcher loop, by recursion on the node. *)
Fixpoint ingestNode (node : t.Node) (unit : ViewCompilationUnit.t) {struct node}
  : M ViewCompilationUnit.t :=
  let ingestNodes := fun unit template => forM (fun u n => ingestNode n u) template unit in
  match node with
  | t.Element element => ingestElementWith ingestNodes unit element
  | t.Template tmpl => ingestTemplateWith ingestNodes unit tmpl
  | t.Content content => ingestContent unit content
  | t.Text text => ingestText unit text None
  | t.BoundText text => ingestBoundText unit text None
  | t.IfBlock ifBlock => ingestIfBlockWith ingestNodes unit ifBlock
  | t.SwitchBlock switchBlock => ingestSwitchBlockWith ingestNodes unit switchBlock
  | t.DeferredBlock deferBlock => ingestDeferBlockWith ingestNodes unit deferBlock
  | t.Icu icu => ingestIcu unit icu
  | t.ForLoopBlock forBlock => ingestForBlockWith ingestNodes unit forBlock
  | _ => throw ("Unsupported template node: " ++ t.constructor_name node)
  end.

Definition ingestNodes (unit : ViewCompilationUnit.t) (template : list t.Node)
  : M ViewCompilationUnit.t :=
  forM (fun u n => ingestNode n u) template unit.

Definition ingestElement := ingestElementWith ingestNodes.
Definition ingestTemplate := ingestTemplateWith ingestNodes.
Definition ingestIfBlock := ingestIfBlockWith ingestNodes.
Definition ingestSwitchBlock := ingestSwitchBlockWith ingestNodes.
Definition ingestDeferView := ingestDeferViewWith ingestNodes.
Definition ingestDeferBlock := ingestDeferBlockWith ingestNodes.
Definition ingestForBlock := ingestForBlockWith ingestNodes.

(** Modelled from the spec: a fresh component job, whose root view takes
    the first identifier and has no parent. *)
Definition new_ComponentCompilationJob (componentName : string)
    (relativeContextFilePath : string) (i18nUseExternalIds : bool)
    (deferBlocksMeta : t.DeferredBlock.t t.Node -> option R3DeferBlockMetadata)
  : ViewCompilationUnit.t * CompilationJob :=
  let root := ViewCompilationUnit.mk 0 None [] [] ∅ [] in
  (root, mkJob componentName TemplateDefinitionBuilder relativeContextFilePath
           i18nUseExternalIds deferBlocksMeta 1 0 {[ 0 := root ]}).

(** Process a template AST and convert it into a component compilation job
    in the intermediate representation. *)
Definition ingestComponent (componentName : string) (template : list t.Node)
    (relativeContextFilePath : string) (i18nUseExternalIds : bool)
    (deferBlocksMeta : t.DeferredBlock.t t.Node -> option R3DeferBlockMetadata)
  : Result CompilationJob :=
  let (root, job) :=
    new_ComponentCompilationJob componentName relativeContextFilePath
      i18nUseExternalIds deferBlocksMeta in
  match (root <- ingestNodes root template ;; storeView root) job with
  | Ok (_, job) => Ok job
  | Throw msg => Throw msg
  end.

(** *** Host bindings *)

(** Modelled from the spec: a fresh host binding job is a single-unit job;
    its root unit takes the first identifier. *)
Definition new_HostBindingCompilationJob (componentName : string)
  : HostBindingCompilationUnit.t * CompilationJob :=
  (HostBindingCompilationUnit.mk 0 [] [],
   mkJob componentName TemplateDefinitionBuilder "" false (fun _ => None) 1 0 ∅).

Definition ingestHostProperty (root : HostBindingCompilationUnit.t)
    (property : e.ParsedProperty.t) (bindingKind : BindingKind.t)
    (securityContexts : list SecurityContext) : M HostBindingCompilationUnit.t :=
  let ast := e.ParsedProperty.expression_ast property in
  expression <-
    match ast with
    | e.Interpolation _ strings expressions =>
        expressions' <-
          mapM (fun expr => convertAst expr (Some (e.ParsedProperty.sourceSpan property)))
               expressions ;;
        ret (BInterpolation (Interpolation.mk strings expressions' []))
    | _ =>
        x <- convertAst ast (Some (e.ParsedProperty.sourceSpan property)) ;;
        ret (BExpr x)
    end ;;
  ret (HostUnit.push_update root
         (BindingOp (HostBindingCompilationUnit.xref root) bindingKind
            (e.ParsedProperty.name property) expression None
            (ManyContexts securityContexts) false false None None
            (Some (e.ParsedProperty.sourceSpan property)))).

Definition ingestHostAttribute (root : HostBindingCompilationUnit.t) (name : string)
    (value : Expression) (securityContexts : list SecurityContext)
  : M HostBindingCompilationUnit.t :=
  let attrBinding :=
    BindingOp (HostBindingCompilationUnit.xref root) BindingKind.Attribute name
      (BExpr value) None (ManyContexts securityContexts)
      (* Host attributes should always be extracted to const hostAttrs, even
         if they are not strictly text literals. *)
      true false None None (sourceSpanOf value) in
  ret (HostUnit.push_update root attrBinding).

Definition ingestHostEvent (root : HostBindingCompilationUnit.t)
    (event : e.ParsedEvent.t) : M HostBindingCompilationUnit.t :=
  let (phase, target) :=
    (if e.ParsedEventType.eqb (e.ParsedEvent.type event) e.ParsedEventType.Regular
     then (None, Some (e.ParsedEvent.targetOrPhase event))
     else (Some (e.ParsedEvent.targetOrPhase event), None))
    : option string * option string in
  handlerOps <- makeListenerHandlerOps (e.ParsedEvent.handler event)
                  (e.ParsedEvent.handlerSpan event) ;;
  let eventBinding :=
    ListenerOp (HostBindingCompilationUnit.xref root) new_SlotHandle
      (e.ParsedEvent.name event) None handlerOps phase target true
      (e.ParsedEvent.sourceSpan event) in
  ret (HostUnit.push_create root eventBinding).

Definition notNone (context : SecurityContext) : bool :=
  negb (SecurityContext_eqb context SC_NONE).

(** [property.name = ...]: the assignment to the caller's property object. *)
Definition set_name (property : e.ParsedProperty.t) (name : string)
  : e.ParsedProperty.t :=
  e.ParsedProperty.mk name (e.ParsedProperty.expression_ast property)
    (e.ParsedProperty.isAnimation property) (e.ParsedProperty.sourceSpan property).

(** The part of the property loop of [ingestHostBinding] that comes before
    the call of [ingestHostProperty]: the property object as the loop
    leaves it, and the binding kind and security contexts computed. *)
Definition classifyHostProperty (bindingParser : BindingParser)
    (componentSelector : string) (property : e.ParsedProperty.t)
  : e.ParsedProperty.t * BindingKind.t * list SecurityContext :=
  let bindingKind := BindingKind.Property in
  let (property, bindingKind) :=
    (if String.prefix "attr." (e.ParsedProperty.name property)
     then
       (set_name property
          (String.substring (String.length "attr.")
             (String.length (e.ParsedProperty.name property) - String.length "attr.")
             (e.ParsedProperty.name property)),
        BindingKind.Attribute)
     else (property, bindingKind)) : e.ParsedProperty.t * BindingKind.t in
  let bindingKind :=
    if e.ParsedProperty.isAnimation property then BindingKind.Animation else bindingKind in
  let securityContexts :=
    List.filter notNone
      (calcPossibleSecurityContexts bindingParser componentSelector
         (e.ParsedProperty.name property)
         (BindingKind.eqb bindingKind BindingKind.Attribute)) in
  (property, bindingKind, securityContexts).

(** The property loop of [ingestHostBinding].  The first component is the
    array of property objects as the loop leaves it, also when a property
    makes ingestion throw. *)
Fixpoint ingestHostProperties (bindingParser : BindingParser)
    (componentSelector : string) (properties : list e.ParsedProperty.t)
    (root : HostBindingCompilationUnit.t) (job : CompilationJob)
  : list e.ParsedProperty.t * Result (HostBindingCompilationUnit.t * CompilationJob) :=
  match properties with
  | [] => ([], Ok (root, job))
  | property :: rest =>
      let '(property, bindingKind, securityContexts) :=
        classifyHostProperty bindingParser componentSelector property in
      match ingestHostProperty root property bindingKind securityContexts job with
      | Throw msg => (property :: rest, Throw msg)
      | Ok (root, job) =>
          let (rest, result) :=
            ingestHostProperties bindingParser componentSelector rest root job in
          (property :: rest, result)
      end
  end.

(** Process a host binding AST and convert it into a host binding
    compilation job in the intermediate representation.  The result comes
    with the input as ingestion leaves it. *)
Definition ingestHostBinding (input : HostBindingInput.t) (bindingParser : BindingParser)
  : HostBindingInput.t * Result (HostBindingCompilationUnit.t * CompilationJob) :=
  let (root, job) := new_HostBindingCompilationJob (HostBindingInput.componentName input) in
  let (properties, result) :=
    ingestHostProperties bindingParser (HostBindingInput.componentSelector input)
      (default [] (HostBindingInput.properties input)) root job in
  let input' :=
    HostBindingInput.mk (HostBindingInput.componentName input)
      (HostBindingInput.componentSelector input)
      (option_map (fun _ => properties) (HostBindingInput.properties input))
      (HostBindingInput.attributes input) (HostBindingInput.events input) in
  (input',
   match result with
   | Throw msg => Throw msg
   | Ok (root, job) =>
       (root <- forM (fun root attribute =>
                        let securityContexts :=
                          List.filter notNone
                            (calcPossibleSecurityContexts bindingParser
                               (HostBindingInput.componentSelector input)
                               (fst attribute) true) in
                        ingestHostAttribute root (fst attribute) (snd attribute)
                          securityContexts)
                     (HostBindingInput.attributes input) root ;;
        forM ingestHostEvent (default [] (HostBindingInput.events input)) root) job
   end).

End Ingest.

(** ** Reading the result of an ingestion *)

(** The operations that the trigger loop adds by itself are the ones
    without a source span: every trigger written in the template has one. *)
Definition isSynthesized (op : Op) : bool :=
  match op with
  | DeferOnOp _ _ _ None => true
  | _ => false
  end.

(** A defer-on operation that stems from a trigger written in the
    template: it carries the trigger's source span, and the prefetch mark
    of the pass that made it. *)
Definition isExplicitOn (prefetch : bool) (op : Op) : Prop :=
  match op with
  | DeferOnOp _ _ p (Some _) => p = prefetch
  | _ => False
  end.

(** The same for the defer-when operation of a [when] trigger. *)
Definition isExplicitWhen (prefetch : bool) (op : Op) : Prop :=
  match op with
  | DeferWhenOp _ _ p (Some _) => p = prefetch
  | _ => False
  end.

(** Whether a set of triggers of a deferred block has any trigger. *)
Definition hasTrigger (triggers : t.DeferredBlockTriggers.t) : bool :=
  match t.DeferredBlockTriggers.when triggers, t.DeferredBlockTriggers.idle triggers,
        t.DeferredBlockTriggers.immediate triggers, t.DeferredBlockTriggers.hover triggers,
        t.DeferredBlockTriggers.timer triggers, t.DeferredBlockTriggers.interaction triggers,
        t.DeferredBlockTriggers.viewport triggers with
  | None, None, None, None, None, None, None => false
  | _, _, _, _, _, _, _ => true
  end.

(** The kind and the name of a binding operation. *)
Definition bindingKindOf (op : Op) : option BindingKind.t :=
  match op with
  | BindingOp _ kind _ _ _ _ _ _ _ _ _ => Some kind
  | _ => None
  end.

Definition bindingNameOf (op : Op) : option string :=
  match op with
  | BindingOp _ _ name _ _ _ _ _ _ _ _ => Some name
  | _ => None
  end.

(** The unit that an ingestion returns, if it returns. *)
Definition resultUnit {U : Type} (r : Result (U * CompilationJob)) : option U :=
  match r with
  | Ok (unit, _) => Some unit
  | Throw _ => None
  end.

(** The root view of a component job, if ingestion returns one. *)
Definition rootOf (r : Result CompilationJob) : option ViewCompilationUnit.t :=
  match r with
  | Ok job => views job !! root_xref job
  | Throw _ => None
  end.

(** The nodes that the insertion-point inference accepts as a root:
    elements, and templates with a tag name. *)
Definition rootCandidate (child : t.Node) : option RootNode :=
  match child with
  | t.Element element => Some (RootElement element)
  | t.Template tmpl =>
      match t.Template.tagName tmpl with
      | Some _ => Some (RootTemplate tmpl)
      | None => None
      end
  | _ => None
  end.

(** The name of a host property without its [attr.] prefix. *)
Definition withoutAttrPrefix (name : string) : string :=
  String.substring 5 (String.length name - 5) name.

(** ** What ingestion keeps

    The relations below say how a unit and a job may differ after an
    ingestion step. *)

(** A unit after a step: same identity, parent, context variables and
    aliases; its two lists have only grown at the end. *)
Definition unit_ext (u u' : ViewCompilationUnit.t) : Prop :=
  ViewCompilationUnit.xref u' = ViewCompilationUnit.xref u
  /\ ViewCompilationUnit.parent u' = ViewCompilationUnit.parent u
  /\ ViewCompilationUnit.contextVariables u' = ViewCompilationUnit.contextVariables u
  /\ ViewCompilationUnit.aliases u' = ViewCompilationUnit.aliases u
  /\ (exists ops, ViewCompilationUnit.create u' = ViewCompilationUnit.create u ++ ops)
  /\ (exists ops, ViewCompilationUnit.update u' = ViewCompilationUnit.update u ++ ops).

(** A job after a step that only takes identifiers. *)
Definition counter_ext (j j' : CompilationJob) : Prop :=
  exists n, j' = set_nextXrefId j n /\ nextXrefId j <= n.

(** The fields of a job that are fixed when it is created. *)
Definition static (j : CompilationJob) :=
  (componentName j, compatibility j, relativeContextFilePath j, i18nUseExternalIds j,
   deferBlocksMeta j, root_xref j).

(** A job after a step: the fixed fields are the same, the counter has not
    gone back, the views registered under identifiers handed out before
    the step are untouched, and no view has left the table. *)
Definition job_ext (j j' : CompilationJob) : Prop :=
  static j' = static j
  /\ nextXrefId j <= nextXrefId j'
  /\ (forall k, k < nextXrefId j -> views j' !! k = views j !! k)
  /\ (forall k, is_Some (views j !! k) -> is_Some (views j' !! k)).

(** The view table is a forest: every view is registered under its own
    identifier, which the counter has passed; the root view is the only
    one without a parent; the parent of any other view is registered and
    has a smaller identifier. *)
Definition views_wf (j : CompilationJob) : Prop :=
  forall k v,
    views j !! k = Some v ->
    ViewCompilationUnit.xref v = k
    /\ k < nextXrefId j
    /\ match ViewCompilationUnit.parent v with
       | None => k = root_xref j
       | Some p => p < k /\ is_Some (views j !! p)
       end.

(** A unit that the job knows: its identifier is taken and registered. *)
Definition registered (u : ViewCompilationUnit.t) (j : CompilationJob) : Prop :=
  ViewCompilationUnit.xref u < nextXrefId j
  /\ is_Some (views j !! ViewCompilationUnit.xref u).

(** The identifiers of the pipe expressions inside a lowered expression,
    in the order in which the expression is read. *)
Fixpoint pipeXrefs (x : Expression) : list XrefId :=
  match x with
  | LexicalReadExpr _ | ContextExpr _ | LiteralExpr _ _ | EmptyExpr _ => []
  | ReadPropExpr receiver _ _ => pipeXrefs receiver
  | WritePropExpr receiver _ value _ => pipeXrefs receiver ++ pipeXrefs value
  | ReadKeyExpr receiver index _ => pipeXrefs receiver ++ pipeXrefs index
  | WriteKeyExpr receiver index value _ =>
      pipeXrefs receiver ++ pipeXrefs index ++ pipeXrefs value
  | InvokeFunctionExpr fn args _ => pipeXrefs fn ++ flat_map pipeXrefs args
  | UnaryOperatorExpr _ expr _ => pipeXrefs expr
  | BinaryOperatorExpr _ lhs rhs _ => pipeXrefs lhs ++ pipeXrefs rhs
  | LiteralMapExpr entries _ =>
      flat_map (fun entry => let '(_, value, _) := entry in pipeXrefs value) entries
  | LiteralArrayExpr entries => flat_map pipeXrefs entries
  | ConditionalExpr condition trueCase falseCase _ =>
      pipeXrefs condition ++ pipeXrefs trueCase ++ pipeXrefs falseCase
  | NotExpr condition _ => pipeXrefs condition
  | PipeBindingExpr target _ _ args => target :: flat_map pipeXrefs args
  | SafeKeyedReadExpr receiver index _ => pipeXrefs receiver ++ pipeXrefs index
  | SafePropertyReadExpr receiver _ => pipeXrefs receiver
  | SafeInvokeFunctionExpr receiver args => pipeXrefs receiver ++ flat_map pipeXrefs args
  | ConditionalCaseExpr expr _ _ _ =>
      match expr with Some expr => pipeXrefs expr | None => [] end
  end.

(** A step of the node ingestion, from a unit and a job to a unit and a
    job: the unit has only grown, the job has only grown, and the view
    table is still a forest if it was one and the unit was known. *)
Definition ingest_step (u : ViewCompilationUnit.t) (j : CompilationJob)
    (u' : ViewCompilationUnit.t) (j' : CompilationJob) : Prop :=
  unit_ext u u' /\ job_ext j j' /\ (registered u j -> views_wf j -> views_wf j').

(** A lowering that takes the job from [j] to [j'] and leaves pipe
    expressions with the identifiers [pipes]: only the counter has moved,
    and the pipes carry the identifiers taken, in order. *)
Definition lowered (j : CompilationJob) (pipes : list XrefId) (j' : CompilationJob)
  : Prop :=
  counter_ext j j' /\ pipes = seq (nextXrefId j) (nextXrefId j' - nextXrefId j).

(** The pipe identifiers of the expression of a binding. *)
Definition bindingPipeXrefs (x : BindingExpression) : list XrefId :=
  match x with
  | BExpr x => pipeXrefs x
  | BInterpolation i => flat_map pipeXrefs (Interpolation.expressions i)
  end.

(** ** Sample collaborators and inputs *)

Module Samples.
(** A namespaced tag is written [:ns:name]. *)
Definition splitTagName (elementName : string) : option string * string :=
  match elementName with
  | String ":"%char rest =>
      match String.index 0 ":" rest with
      | Some i =>
          (Some (String.substring 0 i rest),
           String.substring (S i) (String.length rest - S i) rest)
      | None => (None, elementName)
      end
  | _ => (None, elementName)
  end.

Definition namespaceOf (key : option string) : Namespace :=
  match key with
  | Some key =>
      if String.eqb key "svg" then NS_SVG
      else if String.eqb key "math" then NS_Math else NS_HTML
  | None => NS_HTML
  end.

Definition prefixed (strippedTag : string) (namespace : Namespace) : string :=
  match namespace with
  | NS_HTML => strippedTag
  | NS_SVG => (":svg:" ++ strippedTag)%string
  | NS_Math => (":math:" ++ strippedTag)%string
  end.

Definition binaryOperators (operation : string) : option BinaryOperator :=
  if String.eqb operation "===" then Some Identical
  else if String.eqb operation "+" then Some Plus
  else if String.eqb operation "&&" then Some And
  else None.

Definition env : Collaborators :=
  {| domSchema_securityContext := fun _ _ _ => SC_NONE;
     splitNsName := splitTagName;
     namespaceForKey := namespaceOf;
     prefixWithNamespace := prefixed;
     BINARY_OPERATORS := binaryOperators;
   CTX_REF := "CTX_REF_MARKER";
     isSingleI18nIcu := fun m => match i18n.nodes m with
                                 | [i18n.Icu _] => true
                                 | _ => false
                                 end;
     icuFromI18nMessage_name := fun m => match i18n.nodes m with
                                         | i18n.IcuPlaceholder name :: _ => name
                                         | _ => ""
                                         end |}.

Definition bindingParser : BindingParser :=
  {| calcPossibleSecurityContexts := fun _ _ _ => [SC_NONE] |}.

Definition at_ (n : Z) : ParseLocation := {| offset := n |}.
Definition span (a b : Z) : ParseSourceSpan.t := ParseSourceSpan.mk (at_ a) (at_ b) (at_ a).
Definition rel (a b : Z) : e.ParseSpan.t := e.ParseSpan.mk a b.

(** A fresh component job and its root view. *)
Definition root : ViewCompilationUnit.t :=
  fst (new_ComponentCompilationJob "Cmp" "cmp.ts" false (fun _ => Some {| deps := [] |})).
Definition job : CompilationJob :=
  snd (new_ComponentCompilationJob "Cmp" "cmp.ts" false (fun _ => Some {| deps := [] |})).

(** [<input>]: no end tag, no binding. *)
Definition inputElement : t.Element.t t.Node :=
  t.Element.mk "input" [] [] [] [] [] (span 0 7) (span 0 7) None None.

(** [<div title="t">x</div>] *)
Definition divElement : t.Element.t t.Node :=
  t.Element.mk "div" [t.TextAttribute.mk "title" "t" (span 5 14) None] [] []
    [t.Text (t.Text.mk "x" (span 15 16))] [] (span 0 22) (span 0 15)
    (Some (span 16 22)) None.

(** The start operation that [ingestElement] hands to the binding
    ingestion for [inputElement]. *)
Definition inputStartOp : Op :=
  ElementStartOp "input" 1 new_SlotHandle NS_HTML None [] (span 0 7) (span 0 7).

(** [<ng-template>] without attributes, inputs or outputs. *)
Definition plainTemplate : t.Template.t t.Node :=
  t.Template.mk (Some "ng-template") [] [] [] [] [] [] [] (span 0 13) (span 0 13)
    None None.

Definition plainTemplateOp : Op :=
  TemplateOp 1 TemplateKind.NgTemplate (Some "ng-template") "ng-template" new_SlotHandle
    NS_HTML None [] (span 0 13) (span 0 13).

(** [@switch (v) {}] *)
Definition emptySwitch : t.SwitchBlock.t t.Node :=
  t.SwitchBlock.mk (e.PropertyRead (rel 0 1) (e.ImplicitReceiver (rel 0 0)) "v") []
    (span 0 14) (span 0 12).

(** The children [x<div title="t">x</div>] of a branch: a text node, then
    an element. *)
Definition textThenElement : list t.Node :=
  [t.Text (t.Text.mk "x" (span 0 1)); t.Element divElement].

(** [this()] and [(a; b)()] as call expressions, and [f(1)]. *)
Definition callOnThis : e.AST :=
  e.Call (rel 0 6) (e.ThisReceiver (rel 0 4)) [].
Definition callOnChain : e.AST :=
  e.Call (rel 0 6) (e.Chain (rel 0 4) []) [].
Definition callOnRead : e.AST :=
  e.Call (rel 0 4) (e.PropertyRead (rel 0 1) (e.ImplicitReceiver (rel 0 0)) "f")
    [e.LiteralPrimitive (rel 2 3) (LNumber 1)].

(** The host property [[@attr.foo]]: an animation binding whose name
    starts with the prefix, and the host property [[attr.role]]. *)
Definition animationProperty : e.ParsedProperty.t :=
  e.ParsedProperty.mk "attr.foo" (e.LiteralPrimitive (rel 0 1) (LNumber 1)) true
    (span 0 10).
Definition attrProperty : e.ParsedProperty.t :=
  e.ParsedProperty.mk "attr.role" (e.LiteralPrimitive (rel 0 1) (LString "x")) false
    (span 0 10).

Definition animationInput : HostBindingInput.t :=
  HostBindingInput.mk "Cmp" "cmp" (Some [animationProperty]) [] None.
Definition attrInput : HostBindingInput.t :=
  HostBindingInput.mk "Cmp" "cmp" (Some [attrProperty]) [] None.

(** [<div [class.on]="x">text</div>] *)
Definition classBindingElement : t.Element.t t.Node :=
  t.Element.mk "div" []
    [t.BoundAttribute.mk "on" e.BindingType.Class SC_NONE
       (e.ASTWithSource (rel 0 1)
          (e.PropertyRead (rel 0 1) (e.ImplicitReceiver (rel 0 0)) "x"))
       None (span 5 19) None]
    [] [t.Text (t.Text.mk "text" (span 20 24))] [] (span 0 30) (span 0 20)
    (Some (span 24 30)) None.

(** [@switch (v) { @case (1) {A} }] *)
Definition oneCaseSwitch : t.SwitchBlock.t t.Node :=
  t.SwitchBlock.mk (e.PropertyRead (rel 0 1) (e.ImplicitReceiver (rel 0 0)) "v")
    [t.SwitchBlockCase.mk (Some (e.LiteralPrimitive (rel 0 1) (LNumber 1)))
       [t.Text (t.Text.mk "A" (span 25 26))] (span 14 28) (span 14 24) None]
    (span 0 30) (span 0 12).

Definition noTriggers : t.DeferredBlockTriggers.t :=
  t.DeferredBlockTriggers.mk None None None None None None None.

(** [@defer { x }] *)
Definition bareDefer : t.DeferredBlock.t t.Node :=
  t.DeferredBlock.mk [t.Text (t.Text.mk "x" (span 9 10))] noTriggers noTriggers
    None None None (span 0 12) None.

(** [@if (a) {A} @else {B}] *)
Definition twoBranchIf : t.IfBlock.t t.Node :=
  t.IfBlock.mk
    [t.IfBlockBranch.mk
       (Some (e.PropertyRead (rel 0 1) (e.ImplicitReceiver (rel 0 0)) "a"))
       [t.Text (t.Text.mk "A" (span 9 10))] None (span 0 11) (span 0 8) None;
     t.IfBlockBranch.mk None [t.Text (t.Text.mk "B" (span 19 20))] None
       (span 12 21) (span 12 18) None]
    (span 0 21).

(** [<p *ngFor="let item of items; let i = index">{{item}}</p>], as the
    parser hands it over: a template around the element. *)
Definition repeatedParagraph : t.Template.t t.Node :=
  t.Template.mk (Some "p") [] [] [] [] [t.Element divElement] []
    [TemplateVariable.mk "item" "" ; TemplateVariable.mk "i" "index"]
    (span 0 40) (span 0 30) (Some (span 36 40)) None.

(** [a | outer : (b | inner)] *)
Definition nestedPipes : e.AST :=
  e.BindingPipe (rel 0 20)
    (e.PropertyRead (rel 0 1) (e.ImplicitReceiver (rel 0 0)) "a") "outer"
    [e.BindingPipe (rel 10 19)
       (e.PropertyRead (rel 10 11) (e.ImplicitReceiver (rel 10 10)) "b") "inner" []].

(** The handler [a; b] of a listener. *)
Definition twoStatements : e.AST :=
  e.ASTWithSource (rel 0 4)
    (e.Chain (rel 0 4)
       [e.PropertyRead (rel 0 1) (e.ImplicitReceiver (rel 0 0)) "a";
        e.PropertyRead (rel 3 4) (e.ImplicitReceiver (rel 3 3)) "b"]).

(** [@defer (when {{a}}) { x }]: the value of the trigger is an
    interpolation. *)
Definition interpolatedTrigger : t.BoundDeferredTrigger.t :=
  t.BoundDeferredTrigger.mk
    (e.Interpolation (rel 0 5) [""; ""]
       [e.PropertyRead (rel 2 3) (e.ImplicitReceiver (rel 2 2)) "a"])
    (span 8 18).
Definition interpolatedDefer : t.DeferredBlock.t t.Node :=
  t.DeferredBlock.mk [t.Text (t.Text.mk "x" (span 22 23))]
    (t.DeferredBlockTriggers.mk (Some interpolatedTrigger) None None None None None None)
    noTriggers None None None (span 0 25) None.

(** The interpolated text [{{a}}!]. *)
Definition greeting : t.BoundText.t :=
  t.BoundText.mk
    (e.ASTWithSource (rel 0 6)
       (e.Interpolation (rel 0 6) [""; "!"]
          [e.PropertyRead (rel 2 3) (e.ImplicitReceiver (rel 2 2)) "a"]))
    (span 0 6) None.

(** [{n, plural, =1 {one {{a}}!} other {many}}] with its message. *)
Definition pluralMessage : i18n.Message :=
  i18n.mkMessage [i18n.Icu "n"] [] "plural".
Definition plural : t.Icu.t :=
  t.Icu.mk [("VAR_PLURAL", t.BoundText.mk
                             (e.Interpolation (rel 0 1) [""; ""]
                                [e.PropertyRead (rel 1 2) (e.ImplicitReceiver (rel 1 1)) "n"])
                             (span 1 2) None)]
    [("INTERPOLATION", inr greeting); ("many", inl (t.Text.mk "many" (span 30 34)))]
    (span 0 40) (Some (i18n.IsMessage pluralMessage)).

(** [@for (item of items; track item) {x} @empty {none}] *)
Definition loopContext : t.ForLoopBlockContext.t :=
  t.ForLoopBlockContext.mk
    (TemplateVariable.mk "$index" "$index") (TemplateVariable.mk "$count" "$count")
    (TemplateVariable.mk "$first" "$first") (TemplateVariable.mk "$last" "$last")
    (TemplateVariable.mk "$even" "$even") (TemplateVariable.mk "$odd" "$odd").
Definition itemsLoop : t.ForLoopBlock.t t.Node :=
  t.ForLoopBlock.mk (TemplateVariable.mk "item" "$implicit")
    (e.PropertyRead (rel 0 5) (e.ImplicitReceiver (rel 0 0)) "items")
    (e.PropertyRead (rel 0 4) (e.ImplicitReceiver (rel 0 0)) "item")
    loopContext [t.Text (t.Text.mk "x" (span 36 37))]
    (Some (t.ForLoopBlockEmpty.mk [t.Text (t.Text.mk "none" (span 47 51))] (span 39 52)
             None))
    (span 0 52) (span 0 35) None.

(** [<div #box #form="ngForm" i18n>x</div>], with the message of its
    content. *)
Definition boxMessage : i18n.Message := i18n.mkMessage [i18n.Text "x"] [] "box".
Definition referencedElement : t.Element.t t.Node :=
  t.Element.mk "div" [] [] [] [t.Text (t.Text.mk "x" (span 30 31))]
    [t.Reference.mk "box" ""; t.Reference.mk "form" "ngForm"]
    (span 0 37) (span 0 30) (Some (span 31 37)) (Some (i18n.IsMessage boxMessage)).

(** [@defer { x } @placeholder (minimum 500ms) { p }] *)
Definition placeholderDefer : t.DeferredBlock.t t.Node :=
  t.DeferredBlock.mk [t.Text (t.Text.mk "x" (span 9 10))] noTriggers noTriggers
    (Some (t.DeferredBlockPlaceholder.mk [t.Text (t.Text.mk "p" (span 42 43))] (Some 500%Z)
             (span 13 45) None))
    None None (span 0 45) None.

(** [<button *ngIf="a" [class.on]="x" (click)="a; b">], as the parser
    hands it over: the template around the button, with the bindings of
    the button copied to it. *)
Definition clickableTemplate : t.Template.t t.Node :=
  t.Template.mk (Some "button") []
    [t.BoundAttribute.mk "on" e.BindingType.Class SC_NONE
       (e.PropertyRead (rel 0 1) (e.ImplicitReceiver (rel 0 0)) "x") None (span 18 34)
       None]
    [t.BoundEvent.mk "click" e.ParsedEventType.Regular twoStatements None None
       (span 35 50) (span 44 48)]
    [inl (t.BoundAttribute.mk "ngIf" e.BindingType.Property SC_NONE
            (e.PropertyRead (rel 0 1) (e.ImplicitReceiver (rel 0 0)) "a") None
            (span 8 17) None)]
    [] [] [] (span 0 60) (span 0 51) (Some (span 51 60)) None.

(** The host bindings [[attr.role]="'x'"], [role="button"],
    [(click)="a; b"] and [(@fade.done)="a; b"]. *)
Definition hostInput : HostBindingInput.t :=
  HostBindingInput.mk "Cmp" "cmp" (Some [attrProperty])
    [("role", literal (LString "button") None)]
    (Some [e.ParsedEvent.mk "click" "window" e.ParsedEventType.Regular twoStatements
             (span 0 14) (span 9 13);
           e.ParsedEvent.mk "fade" "done" e.ParsedEventType.Animation twoStatements
             (span 15 33) (span 28 32)]).
End Samples.


(** * Utilities of the application reference ([application_ref]) *)

Module application_ref.
Section Lists.
Context {T : Type} `{EqDecision T}.

(** [list.indexOf(el)], counting from [i]: the index of the first element
    that is strictly equal to [el], or [-1]. *)
Fixpoint indexOf_from (list : Datatypes.list T) (el : T) (i : Z) : Z :=
  match list with
  | [] => (-1)%Z
  | x :: rest => if decide (x = el) then i else indexOf_from rest el (i + 1)%Z
  end.

Definition indexOf (list : Datatypes.list T) (el : T) : Z := indexOf_from list el 0.

(** [list.splice(index, 1)] for an index that is not negative: the list
    without the element at [index]. *)
Definition splice1 (list : Datatypes.list T) (index : Z) : Datatypes.list T :=
  take (Z.to_nat index) list ++ drop (S (Z.to_nat index)) list.

(** [remove(list, el)]; the list is changed in place, here it is returned. *)
Definition remove (list : Datatypes.list T) (el : T) : Datatypes.list T :=
  let index := indexOf list el in
  if (index >? -1)%Z then splice1 list index else list.

(** [_lastDefined(args)]: an entry of [args] is a value or [undefined]
    (here [None]).  The loop counts [i] down from [args.length - 1]; the
    counter of the model is [i + 1]. *)
Definition _lastDefined (args : list (option T)) : option T :=
  (fix loop (n : nat) : option T :=
     match n with
     | 0 => None
     | S i =>
         match args !! i with
         | Some (Some x) => Some x
         | _ => loop i
         end
     end) (List.length args).
End Lists.
End application_ref.

(** * The zoneless change detection scheduler *)

Module Scheduler.
Section Scheduler.
(** Everything outside the scheduler: the application reference, the
    pending tasks, their subscribers. *)
Variable World : Type.

(** [taskService.add()]: the identifier of the new task, and the world in
    which the task is pending. *)
Variable add : World -> nat * World.

(** The scheduler: its field [pendingRenderTaskId], the number of
    callbacks of [notify] that [setTimeout] holds and has not run yet, and
    the world around it. *)
Record t := mk {
  pendingRenderTaskId : option nat;
  timeouts : nat;
  world : World
}.

(** [notify()] *)
Definition notify (s : t) : t :=
  match pendingRenderTaskId s with
  | Some _ => s
  | None =>
      let (taskId, w) := add (world s) in
      mk (Some taskId) (S (timeouts s)) w
  end.

(** Code outside the scheduler that the scheduler calls, as the scheduler
    meets it: it changes the world and returns or throws, and before that
    it may call [notify] of the scheduler any number of times, going on
    from the world that the call leaves. *)
Inductive External :=
| Returns (w : World)
| Throws (w : World)
| Notifies (w : World) (k : World -> External).

(** Run outside code against the scheduler; the flag tells whether it has
    thrown. *)
Fixpoint run (x : External) (s : t) : t * bool :=
  match x with
  | Returns w => (mk (pendingRenderTaskId s) (timeouts s) w, false)
  | Throws w => (mk (pendingRenderTaskId s) (timeouts s) w, true)
  | Notifies w k =>
      let s' := notify (mk (pendingRenderTaskId s) (timeouts s) w) in
      run (k (world s')) s'
  end.

(** [appRef.destroyed], [appRef.tick()] and [taskService.remove(taskId)];
    [taskId] is whatever the field holds. *)
Variable destroyed : World -> bool.
Variable tick : World -> External.
Variable remove : option nat -> World -> External.

(** The callback that [notify] hands to [setTimeout], when the timer runs
    it: the [try] part, then the [finally] part.  The flag tells whether
    the callback ends by throwing. *)
Definition callback (s : t) : t * bool :=
  let s := mk (pendingRenderTaskId s) (pred (timeouts s)) (world s) in
  let (s, thrown) :=
    (if negb (destroyed (world s)) then run (tick (world s)) s else (s, false)) : t * bool in
  let taskId := pendingRenderTaskId s in
  let s := mk None (timeouts s) (world s) in
  let (s, thrown') := run (remove taskId (world s)) s in
  (s, thrown || thrown').

(** A callback is outstanding exactly while a task identifier is held,
    and never more than one. *)
Definition settled (s : t) : Prop :=
  match pendingRenderTaskId s with
  | Some _ => timeouts s = 1
  | None => timeouts s = 0
  end.
End Scheduler.
Arguments mk {World}.
Arguments pendingRenderTaskId {World}.
Arguments timeouts {World}.
Arguments world {World}.
Arguments Returns {World}.
Arguments Throws {World}.
Arguments Notifies {World}.
Arguments notify {World}.
Arguments run {World}.
Arguments callback {World}.
Arguments settled {World}.
End Scheduler.

(** * Properties of ingestion *)

(** ** The monad *)

Lemma bind_Ok {A B} (m : M A) (k : A -> M B) job r :
  bind m k job = Ok r ->
  exists a job', m job = Ok (a, job') /\ k a job' = Ok r.
Proof.
  unfold bind. destruct (m job) as [[a job']|msg]; [eauto | discriminate].
Qed.

Lemma bind_Throw {A B} (m : M A) (k : A -> M B) job msg :
  m job = Throw msg -> bind m k job = Throw msg.
Proof. unfold bind. intros ->. reflexivity. Qed.

Lemma bind_step {A B} (m : M A) (k : A -> M B) job a job' :
  m job = Ok (a, job') -> bind m k job = k a job'.
Proof. unfold bind. intros ->. reflexivity. Qed.

Lemma ret_Ok {A} (a b : A) job job' :
  ret a job = Ok (b, job') -> b = a /\ job' = job.
Proof. unfold ret. intros [= <- <-]. auto. Qed.

Lemma throwIf_Ok cond msg job r :
  throwIf cond msg job = Ok r -> cond = false /\ r = (tt, job).
Proof.
  unfold throwIf. destruct cond; [discriminate|]. unfold ret. intros [= <-]. auto.
Qed.

(** Peel the outermost monadic step off a successful run. *)
Ltac step H :=
  match type of H with
  | bind _ _ _ = Ok _ =>
      let a := fresh "a" in
      let j := fresh "job" in
      let H1 := fresh "Hrun" in
      apply bind_Ok in H; destruct H as (a & j & H1 & H)
  | ret _ _ = Ok _ =>
      apply ret_Ok in H; destruct H as [? ?]; subst
  end.

(** ** Expression lowering *)

(** C4.  A property read on an explicit [this] receiver lowers to a bare lexical
    read by name, except exactly for the names [$any] and [$event], which
    lower to a property read on the context of the root view; a property
    read on an implicit receiver always lowers to a bare lexical read.  The
    job is left as it was. *)
Theorem convertAst_PropertyRead_receivers env span rspan name base job :
  (name = "$any" \/ name = "$event" ->
   convertAst env (e.PropertyRead span (e.ThisReceiver rspan) name) base job =
     Ok (ReadPropExpr (ContextExpr (root_xref job)) name (convertSourceSpan span base),
         job))
  /\ (name <> "$any" -> name <> "$event" ->
      convertAst env (e.PropertyRead span (e.ThisReceiver rspan) name) base job =
        Ok (LexicalReadExpr name, job))
  /\ convertAst env (e.PropertyRead span (e.ImplicitReceiver rspan) name) base job =
       Ok (LexicalReadExpr name, job).
Proof.
  split; [|split].
  - intros [-> | ->]; reflexivity.
  - intros Hany Hevent. cbn.
    apply String.eqb_neq in Hany, Hevent. rewrite Hany, Hevent. reflexivity.
  - reflexivity.
Qed.

Lemma convertAst_PropertyRead_receivers_witness :
  convertAst Samples.env
    (e.PropertyRead (Samples.rel 0 11) (e.ThisReceiver (Samples.rel 0 4)) "$event")
    (Some (Samples.span 10 21)) Samples.job =
    Ok (ReadPropExpr (ContextExpr 0) "$event" (Some (Samples.span 10 21)), Samples.job)
  /\ convertAst Samples.env
       (e.PropertyRead (Samples.rel 0 6) (e.ThisReceiver (Samples.rel 0 4)) "a")
       None Samples.job = Ok (LexicalReadExpr "a", Samples.job).
Proof.
  split.
  - apply (convertAst_PropertyRead_receivers Samples.env (Samples.rel 0 11)
             (Samples.rel 0 4) "$event" (Some (Samples.span 10 21)) Samples.job).
    right. reflexivity.
  - apply (convertAst_PropertyRead_receivers Samples.env (Samples.rel 0 6)
             (Samples.rel 0 4) "a" None Samples.job); discriminate.
Defined.

(** C9, as the code has it.  A call whose receiver node is an implicit receiver
    or an explicit [this] receiver (the latter is an instance of the
    former) is a fatal error.  A call on any other receiver lowers the
    receiver, then the arguments from left to right, and yields an
    invoke-function expression over them; an error of the receiver or of
    an argument is the error of the call. *)
Theorem convertAst_Call env span receiver args base job :
  (e.instanceof_ImplicitReceiver receiver = true ->
   convertAst env (e.Call span receiver args) base job =
     Throw "Unexpected ImplicitReceiver")
  /\ (e.instanceof_ImplicitReceiver receiver = false ->
      (forall receiver' job1 args' job2,
          convertAst env receiver base job = Ok (receiver', job1) ->
          mapM (fun arg => convertAst env arg base) args job1 = Ok (args', job2) ->
          convertAst env (e.Call span receiver args) base job =
            Ok (InvokeFunctionExpr receiver' args' (convertSourceSpan span base), job2))
      /\ (forall msg,
             convertAst env receiver base job = Throw msg ->
             convertAst env (e.Call span receiver args) base job = Throw msg)
      /\ (forall receiver' job1 msg,
             convertAst env receiver base job = Ok (receiver', job1) ->
             mapM (fun arg => convertAst env arg base) args job1 = Throw msg ->
             convertAst env (e.Call span receiver args) base job = Throw msg)).
Proof.
  split.
  - intros Himplicit. cbn. rewrite Himplicit. reflexivity.
  - intros Hother. split; [|split].
    + intros receiver' job1 args' job2 Hreceiver Hargs. cbn. rewrite Hother.
      rewrite (bind_step _ _ _ _ _ Hreceiver).
      fold (mapM (fun arg => convertAst env arg base)).
      rewrite (bind_step _ _ _ _ _ Hargs). reflexivity.
    + intros msg Hreceiver. cbn. rewrite Hother.
      apply bind_Throw. exact Hreceiver.
    + intros receiver' job1 msg Hreceiver Hargs. cbn. rewrite Hother.
      rewrite (bind_step _ _ _ _ _ Hreceiver).
      fold (mapM (fun arg => convertAst env arg base)).
      apply bind_Throw. exact Hargs.
Qed.

Lemma convertAst_Call_witness :
  convertAst Samples.env Samples.callOnRead None Samples.job =
    Ok (InvokeFunctionExpr (LexicalReadExpr "f") [LiteralExpr (LNumber 1) None] None,
        Samples.job)
  /\ convertAst Samples.env
       (e.Call (Samples.rel 0 2) (e.ImplicitReceiver (Samples.rel 0 0)) []) None
       Samples.job = Throw "Unexpected ImplicitReceiver".
Proof.
  split.
  - apply (proj1 (proj2 (convertAst_Call Samples.env (Samples.rel 0 4)
             (e.PropertyRead (Samples.rel 0 1) (e.ImplicitReceiver (Samples.rel 0 0)) "f")
             [e.LiteralPrimitive (Samples.rel 2 3) (LNumber 1)] None Samples.job)
             eq_refl) (LexicalReadExpr "f") Samples.job); reflexivity.
  - apply (proj1 (convertAst_Call Samples.env (Samples.rel 0 2)
             (e.ImplicitReceiver (Samples.rel 0 0)) [] None Samples.job)).
    reflexivity.
Defined.

(** C9, as stated, fails: the call [this()], whose receiver is an explicit [this]
    receiver, is a fatal error and not an invoke-function expression; and a
    call on a receiver that does not lower, here an expression chain, is a
    fatal error as well. *)
Lemma convertAst_Call_this_throws :
  convertAst Samples.env Samples.callOnThis None Samples.job =
    Throw "Unexpected ImplicitReceiver"
  /\ convertAst Samples.env Samples.callOnChain None Samples.job =
       Throw "AssertionError: Chain in unknown context".
Proof. split; reflexivity. Qed.

(** ** Switch blocks *)

Lemma ingestNode_SwitchBlock env switchBlock unit :
  ingestNode env (t.SwitchBlock switchBlock) unit = ingestSwitchBlock env unit switchBlock.
Proof. reflexivity. Qed.

(** C8.  Ingesting a switch block with zero cases leaves the parent unit and the
    job as they were: nothing is appended to the create list or the update
    list, no view is allocated and no identifier is taken.  The same holds
    when the block is reached through the node dispatcher. *)
Theorem ingestSwitchBlock_no_cases env unit switchBlock job :
  t.SwitchBlock.cases switchBlock = [] ->
  ingestSwitchBlock env unit switchBlock job = Ok (unit, job)
  /\ ingestNodes env unit [t.SwitchBlock switchBlock] job = Ok (unit, job).
Proof.
  intros Hcases.
  assert (Hswitch : ingestSwitchBlock env unit switchBlock job = Ok (unit, job)).
  { unfold ingestSwitchBlock, ingestSwitchBlockWith. rewrite Hcases. reflexivity. }
  split; [exact Hswitch|].
  unfold ingestNodes. cbn [forM].
  rewrite (bind_step _ _ _ _ _ (eq_trans (f_equal (fun m => m job)
             (ingestNode_SwitchBlock env switchBlock unit)) Hswitch)).
  reflexivity.
Qed.

Lemma ingestSwitchBlock_no_cases_witness :
  ingestSwitchBlock Samples.env Samples.root Samples.emptySwitch Samples.job =
    Ok (Samples.root, Samples.job)
  /\ ingestNodes Samples.env Samples.root [t.SwitchBlock Samples.emptySwitch] Samples.job =
       Ok (Samples.root, Samples.job).
Proof.
  apply (ingestSwitchBlock_no_cases Samples.env Samples.root Samples.emptySwitch
           Samples.job).
  reflexivity.
Defined.

(** ** Bindings of templates *)



(** ** The i18n-attributes operation *)

(** Whatever the bindings of an element are, a binding ingestion that
    returns has appended an i18n-attributes operation last: the condition
    that guards it compares a boolean with null. *)
Lemma ingestElementBindings_last env unit op element job unit' job' :
  ingestElementBindings env unit op element job = Ok (unit', job') ->
  exists ops xref,
    ViewCompilationUnit.create unit' =
      ops ++ [I18nAttributesOp xref new_SlotHandle (op_xref op)].
Proof.
  unfold ingestElementBindings. intros H.
  repeat step H. cbn [boolean_strictNotEquals_null] in H. repeat step H.
  eexists _, _. reflexivity.
Qed.

Lemma ingestTemplateBindings_last env unit op template templateKind job unit' job' :
  ingestTemplateBindings env unit op template templateKind job = Ok (unit', job') ->
  exists ops xref,
    ViewCompilationUnit.create unit' =
      ops ++ [I18nAttributesOp xref new_SlotHandle (op_xref op)].
Proof.
  unfold ingestTemplateBindings. intros H.
  repeat step H. cbn [boolean_strictNotEquals_null] in H. repeat step H.
  eexists _, _. reflexivity.
Qed.

(** C1 fails on the code.  For the element [<input>], none of whose bindings
    carries an i18n message (it has no binding at all), the binding
    ingestion appends an i18n-attributes operation to the create list of
    the unit and takes an identifier for it; and so does the binding
    ingestion of a plain [<ng-template>] without any binding. *)
Theorem i18nAttributes_without_i18n_binding :
  ingestElementBindings Samples.env Samples.root Samples.inputStartOp
    Samples.inputElement Samples.job =
    Ok (Unit.push_create Samples.root (I18nAttributesOp 1 new_SlotHandle 1),
        set_nextXrefId Samples.job 2)
  /\ ingestTemplateBindings Samples.env Samples.root Samples.plainTemplateOp
       Samples.plainTemplate (Some TemplateKind.NgTemplate) Samples.job =
       Ok (Unit.push_create Samples.root (I18nAttributesOp 1 new_SlotHandle 1),
           set_nextXrefId Samples.job 2).
Proof. split; reflexivity. Qed.

(** ** Insertion point of a control flow branch *)

(** A text node in front of the single element does not stop the
    inference: the loop only gives up on a node that comes after a root
    has been found. *)
Lemma findRoot_text_then_element text element :
  findRoot [t.Text text; t.Element element] None = Some (Some (RootElement element))
  /\ findRoot [t.Element element; t.Text text] None = None.
Proof. split; reflexivity. Qed.

Lemma rootCandidate_not_comment child root :
  rootCandidate child = Some root -> t.instanceof_Comment child = false.
Proof. destruct child; cbn; congruence. Qed.

(** Once a root is found, any further node that is not a comment ends the
    loop with null. *)
Lemma findRoot_after_root children root :
  findRoot children (Some root) =
    if forallb t.instanceof_Comment children then Some (Some root) else None.
Proof.
  induction children as [|child rest IH]; [reflexivity|].
  cbn [findRoot forallb]. destruct (t.instanceof_Comment child); [exact IH|reflexivity].
Qed.

(** Zero root candidates: no root, whatever else the branch holds. *)
Lemma findRoot_no_candidate children :
  Forall (fun child => rootCandidate child = None) children ->
  findRoot children None = Some None.
Proof.
  induction 1 as [|child rest Hchild _ IH]; [reflexivity|].
  cbn [findRoot]. destruct (t.instanceof_Comment child); [exact IH|].
  destruct child as [| tmpl | | | | | | | | | |]; try exact IH; [discriminate Hchild|].
  cbn in Hchild. destruct (t.Template.tagName tmpl); [discriminate Hchild|exact IH].
Qed.

(** Two root candidates, wherever they stand: the loop returns null. *)
Lemma findRoot_two_candidates before first between second after root1 root2 :
  rootCandidate first = Some root1 ->
  rootCandidate second = Some root2 ->
  findRoot (before ++ first :: between ++ second :: after) None = None.
Proof.
  intros Hfirst Hsecond.
  assert (Hlater : forall nodes root,
             findRoot (nodes ++ second :: after) (Some root) = None).
  { intros nodes root. rewrite findRoot_after_root, forallb_app. cbn [forallb].
    rewrite (rootCandidate_not_comment _ _ Hsecond), andb_false_r. reflexivity. }
  induction before as [|child rest IH]; cbn [app findRoot].
  - rewrite (rootCandidate_not_comment _ _ Hfirst).
    destruct first as [| tmpl | | | | | | | | | |]; try discriminate Hfirst;
      [apply Hlater|].
    cbn in Hfirst. destruct (t.Template.tagName tmpl); [apply Hlater|discriminate].
  - assert (Hshape : rest ++ first :: between ++ second :: after =
                     (rest ++ first :: between) ++ second :: after)
      by (rewrite <- app_assoc; reflexivity).
    destruct (t.instanceof_Comment child); [exact IH|].
    destruct child as [| tmpl | | | | | | | | | |]; try exact IH.
    + rewrite Hshape. apply Hlater.
    + destruct (t.Template.tagName tmpl); [|exact IH].
      rewrite Hshape. apply Hlater.
Qed.

(** Exactly one root candidate and nothing else but comments: that
    candidate is the root. *)
Lemma findRoot_single before child after root :
  forallb t.instanceof_Comment before = true ->
  forallb t.instanceof_Comment after = true ->
  rootCandidate child = Some root ->
  findRoot (before ++ child :: after) None = Some (Some root).
Proof.
  intros Hbefore Hafter Hchild.
  induction before as [|comment rest IH]; cbn [app findRoot].
  - rewrite (rootCandidate_not_comment _ _ Hchild).
    destruct child as [| tmpl | | | | | | | | | |]; try discriminate Hchild.
    + injection Hchild as <-. rewrite findRoot_after_root, Hafter. reflexivity.
    + cbn in Hchild. destruct (t.Template.tagName tmpl); [|discriminate].
      injection Hchild as <-. rewrite findRoot_after_root, Hafter. reflexivity.
  - cbn [forallb] in Hbefore. apply andb_prop in Hbefore as [-> Hrest]. auto.
Qed.

(** Without a root the inference yields a null tag name and leaves the
    unit and the job as they were. *)
Lemma ingestControlFlowInsertionPoint_no_root env unit xref children job :
  findRoot children None = None \/ findRoot children None = Some None ->
  ingestControlFlowInsertionPoint env unit xref children job = Ok ((unit, None), job).
Proof.
  unfold ingestControlFlowInsertionPoint. intros [-> | ->]; reflexivity.
Qed.

(** With a root, the inference copies the static attributes of the root
    and nothing else (one attribute binding per text attribute, in order,
    onto the update list of the unit), and yields the tag name of the root
    unless that is the tag name of [ng-template]. *)
Lemma ingestControlFlowInsertionPoint_root env unit xref children root job unit' tagName
    job' :
  findRoot children None = Some (Some root) ->
  ingestControlFlowInsertionPoint env unit xref children job =
    Ok ((unit', tagName), job') ->
  job' = job
  /\ ViewCompilationUnit.create unit' = ViewCompilationUnit.create unit
  /\ (exists ops,
         ViewCompilationUnit.update unit' = ViewCompilationUnit.update unit ++ ops
         /\ Forall2 (fun attr op =>
                       bindingKindOf op = Some BindingKind.Attribute
                       /\ bindingNameOf op = Some (t.TextAttribute.name attr))
                    (root_attributes root) ops)
  /\ tagName =
       match root with
       | RootElement element =>
           if String.eqb (t.Element.name element) NG_TEMPLATE_TAG_NAME then None
           else Some (t.Element.name element)
       | RootTemplate tmpl =>
           match t.Template.tagName tmpl with
           | Some name => if String.eqb name NG_TEMPLATE_TAG_NAME then None else Some name
           | None => None
           end
       end.
Proof.
  unfold ingestControlFlowInsertionPoint. intros -> H.
  apply bind_Ok in H as (unit1 & job1 & Hcopy & H).
  apply ret_Ok in H as [[= -> ->] ->].
  assert (Hloop : forall attrs u j u' j',
             forM (fun unit attr =>
                     let securityContext :=
                       domSchema_securityContext env NG_TEMPLATE_TAG_NAME
                         (t.TextAttribute.name attr) true in
                     message <- asMessage (t.TextAttribute.i18n attr) ;;
                     ret (Unit.push_update unit
                            (BindingOp xref BindingKind.Attribute
                               (t.TextAttribute.name attr)
                               (BExpr (literal (LString (t.TextAttribute.value attr)) None))
                               None (OneContext securityContext) true false None message
                               (Some (t.TextAttribute.sourceSpan attr)))))
                  attrs u j = Ok (u', j') ->
             j' = j
             /\ ViewCompilationUnit.create u' = ViewCompilationUnit.create u
             /\ exists ops,
                 ViewCompilationUnit.update u' = ViewCompilationUnit.update u ++ ops
                 /\ Forall2 (fun attr op =>
                               bindingKindOf op = Some BindingKind.Attribute
                               /\ bindingNameOf op = Some (t.TextAttribute.name attr))
                            attrs ops).
  { induction attrs as [|attr attrs IH]; intros u j u' j' Hrun; cbn [forM] in Hrun.
    - apply ret_Ok in Hrun as [-> ->]. split; [reflexivity|]. split; [reflexivity|].
      exists []. split; [symmetry; apply app_nil_r|constructor].
    - apply bind_Ok in Hrun as (u1 & j1 & Hattr & Hrun).
      apply bind_Ok in Hattr as (message & j2 & Hmessage & Hattr).
      apply ret_Ok in Hattr as [-> ->].
      assert (j2 = j) as ->.
      { unfold asMessage in Hmessage.
        destruct (t.TextAttribute.i18n attr) as [[m|n]|]; try discriminate;
          apply ret_Ok in Hmessage as [_ ->]; reflexivity. }
      apply IH in Hrun as (-> & Hcreate & ops & Hupdate & Hops).
      split; [reflexivity|]. split; [exact Hcreate|].
      eexists (_ :: ops). split.
      + rewrite Hupdate. cbn [Unit.push_update ViewCompilationUnit.update].
        rewrite <- app_assoc. reflexivity.
      + constructor; [split; reflexivity|exact Hops]. }
  apply Hloop in Hcopy as (-> & Hcreate & Hupdate).
  split; [reflexivity|]. split; [exact Hcreate|]. split; [exact Hupdate|].
  destruct root; reflexivity.
Qed.

(** C6 fails on the code.  The branch children [x<div title="t">x</div>] do
    not consist of exactly one element (a text node comes first), yet the
    inference yields the tag name [div] and copies the static attribute of
    the element onto the branch; with the same two nodes in the other
    order it yields null and copies nothing. *)
Theorem ingestControlFlowInsertionPoint_text_then_element :
  ingestControlFlowInsertionPoint Samples.env Samples.root 1 Samples.textThenElement
    Samples.job =
    Ok ((Unit.push_update Samples.root
           (BindingOp 1 BindingKind.Attribute "title"
              (BExpr (LiteralExpr (LString "t") None)) None (OneContext SC_NONE)
              true false None None (Some (Samples.span 5 14))),
         Some "div"), Samples.job)
  /\ ingestControlFlowInsertionPoint Samples.env Samples.root 1
       (List.rev Samples.textThenElement) Samples.job =
       Ok ((Samples.root, None), Samples.job).
Proof. split; reflexivity. Qed.

(** ** Elements *)

Lemma insertBeforeLast_app op ops target :
  insertBeforeLast op (ops ++ [target]) = ops ++ [op; target].
Proof.
  unfold insertBeforeLast. rewrite rev_app_distr. cbn. rewrite rev_involutive.
  reflexivity.
Qed.

Lemma ingestElement_last env unit element job unit' job' :
  ingestElement env unit element job = Ok (unit', job') ->
  exists ops,
    ViewCompilationUnit.create unit' =
      ops ++ [ElementEndOp (nextXrefId job)
                (Some (default (t.Element.startSourceSpan element)
                         (t.Element.endSourceSpan element)))].
Proof.
  unfold ingestElement, ingestElementWith. intros H.
  step H. apply throwIf_Ok in Hrun as [_ ?]. simplify_eq.
  step H. injection Hrun as <- <-.
  destruct (splitNsName env (t.Element.name element)) as [namespaceKey elementName].
  apply bind_Ok in H as (unit0 & job0 & _ & H).
  apply bind_Ok in H as ([unit1 i18nBlockId] & job1 & _ & H).
  apply bind_Ok in H as (unit2 & job2 & _ & H).
  destruct i18nBlockId as [i18nBlockId|]; step H.
  - cbn [Unit.set_create Unit.push_create ViewCompilationUnit.create].
    rewrite insertBeforeLast_app.
    exists (ViewCompilationUnit.create unit2 ++ [I18nEndOp i18nBlockId
              (Some (default (t.Element.startSourceSpan element)
                       (t.Element.endSourceSpan element)))]).
    rewrite <- app_assoc. reflexivity.
  - cbn [Unit.push_create ViewCompilationUnit.create]. eexists. reflexivity.
Qed.

(** C7.  The element-end operation that closes an element (the last
    operation of the create list once the element is ingested; it carries
    the identifier taken for the element) has the span of the start tag
    when the element has no end span, and the span of the end tag when it
    has one. *)
Theorem ingestElement_end_sourceSpan env unit element job unit' job' :
  ingestElement env unit element job = Ok (unit', job') ->
  (t.Element.endSourceSpan element = None ->
   exists ops,
     ViewCompilationUnit.create unit' =
       ops ++ [ElementEndOp (nextXrefId job) (Some (t.Element.startSourceSpan element))])
  /\ (forall endSourceSpan,
         t.Element.endSourceSpan element = Some endSourceSpan ->
         exists ops,
           ViewCompilationUnit.create unit' =
             ops ++ [ElementEndOp (nextXrefId job) (Some endSourceSpan)]).
Proof.
  intros H. apply ingestElement_last in H as [ops Hops].
  split.
  - intros Hnone. rewrite Hnone in Hops. exists ops. exact Hops.
  - intros endSourceSpan Hsome. rewrite Hsome in Hops. exists ops. exact Hops.
Qed.

Lemma ingestElement_end_sourceSpan_witness :
  (exists unit' job',
      ingestElement Samples.env Samples.root Samples.inputElement Samples.job =
        Ok (unit', job')
      /\ exists ops,
          ViewCompilationUnit.create unit' =
            ops ++ [ElementEndOp 1 (Some (Samples.span 0 7))])
  /\ (exists unit' job',
         ingestElement Samples.env Samples.root Samples.divElement Samples.job =
           Ok (unit', job')
         /\ exists ops,
             ViewCompilationUnit.create unit' =
               ops ++ [ElementEndOp 1 (Some (Samples.span 16 22))]).
Proof.
  split.
  - eassert (H : ingestElement Samples.env Samples.root Samples.inputElement
                   Samples.job = Ok (_, _)) by (vm_compute; reflexivity).
    eexists _, _. split; [exact H|].
    exact (proj1 (ingestElement_end_sourceSpan Samples.env Samples.root
                    Samples.inputElement Samples.job _ _ H) eq_refl).
  - eassert (H : ingestElement Samples.env Samples.root Samples.divElement
                   Samples.job = Ok (_, _)) by (vm_compute; reflexivity).
    eexists _, _. split; [exact H|].
    exact (proj2 (ingestElement_end_sourceSpan Samples.env Samples.root
                    Samples.divElement Samples.job _ _ H) _ eq_refl).
Defined.

(** ** Deferred blocks *)

(** A secondary view of a deferred block adds at most its template
    operation to the create list of the parent, and nothing to its update
    list. *)
Lemma ingestDeferView_parent env unit suffix i18nMeta block job unit' op job' :
  ingestDeferView env unit suffix i18nMeta block job = Ok ((unit', op), job') ->
  ViewCompilationUnit.update unit' = ViewCompilationUnit.update unit
  /\ exists templates,
      ViewCompilationUnit.create unit' = ViewCompilationUnit.create unit ++ templates
      /\ Forall (fun op => kind_of op = OpKind.Template) templates.
Proof.
  unfold ingestDeferView, ingestDeferViewWith. intros H.
  apply bind_Ok in H as (? & ? & _ & H).
  destruct block as [[children sourceSpan]|].
  - apply bind_Ok in H as (view0 & ? & _ & H).
    apply bind_Ok in H as (view1 & ? & _ & H).
    apply bind_Ok in H as (? & ? & _ & H).
    apply ret_Ok in H as [[= -> ->] _].
    split; [reflexivity|]. eexists. split; [reflexivity|].
    repeat constructor.
  - apply ret_Ok in H as [[= -> ->] _].
    split; [reflexivity|]. exists []. split; [symmetry; apply app_nil_r|constructor].
Qed.

(** One pass of the trigger loop: the operations of the triggers written in
    the template, marked with the pass's prefetch flag, and after them the
    idle operation that the loop adds when both lists are still empty. *)
Lemma ingestDeferTriggers_pass env deferXref acc triggers job acc' job' :
  ingestDeferTriggers env deferXref acc triggers job = Ok (acc', job') ->
  exists ons whens,
    Forall (isExplicitOn (TriggerLoop.prefetch acc)) ons
    /\ Forall (isExplicitWhen (TriggerLoop.prefetch acc)) whens
    /\ (hasTrigger triggers = false <-> ons = [] /\ whens = [])
    /\ TriggerLoop.deferWhenOps acc' = TriggerLoop.deferWhenOps acc ++ whens
    /\ TriggerLoop.deferOnOps acc' =
         TriggerLoop.deferOnOps acc ++ ons
         ++ (if Nat.eqb (List.length (TriggerLoop.deferOnOps acc ++ ons)) 0
                && Nat.eqb (List.length (TriggerLoop.deferWhenOps acc ++ whens)) 0
             then [DeferOnOp deferXref DeferTrigger.Idle false None] else [])
    /\ TriggerLoop.prefetch acc' = true.
Proof.
  unfold ingestDeferTriggers. intros H.
  apply bind_Ok in H as (whenOps & job1 & Hwhen & H).
  apply ret_Ok in H as [-> _].
  cbn [TriggerLoop.deferWhenOps TriggerLoop.deferOnOps TriggerLoop.prefetch].
  assert (Hwhens : exists whens,
             whenOps = TriggerLoop.deferWhenOps acc ++ whens
             /\ Forall (isExplicitWhen (TriggerLoop.prefetch acc)) whens
             /\ (t.DeferredBlockTriggers.when triggers = None <-> whens = [])).
  { destruct (t.DeferredBlockTriggers.when triggers) as [when|].
    - destruct (e.instanceof_Interpolation _); [discriminate|].
      apply bind_Ok in Hwhen as (expr & ? & _ & Hwhen).
      apply ret_Ok in Hwhen as [-> _].
      eexists. split; [reflexivity|]. split; [repeat constructor|].
      split; discriminate.
    - apply ret_Ok in Hwhen as [-> _]. exists [].
      split; [symmetry; apply app_nil_r|]. split; [constructor|]. split; reflexivity. }
  destruct Hwhens as (whens & -> & Hexplicit & Hnone).
  clear Hwhen.
  set (opt := fun (A : Type) (x : option A) (f : A -> Op) =>
                match x with Some a => [f a] | None => [] end).
  exists (opt _ (t.DeferredBlockTriggers.idle triggers)
            (fun idle => DeferOnOp deferXref DeferTrigger.Idle (TriggerLoop.prefetch acc)
                           (Some (t.IdleDeferredTrigger.sourceSpan idle)))
          ++ opt _ (t.DeferredBlockTriggers.immediate triggers)
               (fun immediate =>
                  DeferOnOp deferXref DeferTrigger.Immediate (TriggerLoop.prefetch acc)
                    (Some (t.ImmediateDeferredTrigger.sourceSpan immediate)))
          ++ opt _ (t.DeferredBlockTriggers.timer triggers)
               (fun timer =>
                  DeferOnOp deferXref
                    (DeferTrigger.Timer (t.TimerDeferredTrigger.delay timer))
                    (TriggerLoop.prefetch acc)
                    (Some (t.TimerDeferredTrigger.sourceSpan timer)))
          ++ opt _ (t.DeferredBlockTriggers.hover triggers)
               (fun hover =>
                  DeferOnOp deferXref
                    (DeferTrigger.Hover
                       (unresolvedTarget (t.HoverDeferredTrigger.reference hover)))
                    (TriggerLoop.prefetch acc)
                    (Some (t.HoverDeferredTrigger.sourceSpan hover)))
          ++ opt _ (t.DeferredBlockTriggers.interaction triggers)
               (fun interaction =>
                  DeferOnOp deferXref
                    (DeferTrigger.Interaction
                       (unresolvedTarget
                          (t.InteractionDeferredTrigger.reference interaction)))
                    (TriggerLoop.prefetch acc)
                    (Some (t.InteractionDeferredTrigger.sourceSpan interaction)))
          ++ opt _ (t.DeferredBlockTriggers.viewport triggers)
               (fun viewport =>
                  DeferOnOp deferXref
                    (DeferTrigger.Viewport
                       (unresolvedTarget (t.ViewportDeferredTrigger.reference viewport)))
                    (TriggerLoop.prefetch acc)
                    (Some (t.ViewportDeferredTrigger.sourceSpan viewport)))),
         whens.
  unfold hasTrigger.
  destruct (t.DeferredBlockTriggers.idle triggers),
           (t.DeferredBlockTriggers.immediate triggers),
           (t.DeferredBlockTriggers.timer triggers),
           (t.DeferredBlockTriggers.hover triggers),
           (t.DeferredBlockTriggers.interaction triggers),
           (t.DeferredBlockTriggers.viewport triggers);
    cbn [opt app];
    (split; [repeat (apply List.Forall_cons; [reflexivity|]); apply List.Forall_nil|]);
    (split; [exact Hexplicit|]);
    (split;
     [revert Hnone; destruct (t.DeferredBlockTriggers.when triggers); intros Hnone;
      (split;
       [intros Hfalse; try discriminate Hfalse;
        (split; [reflexivity|apply Hnone; reflexivity])
       |intros [Hons Hwhens]; try discriminate Hons;
        (apply Hnone in Hwhens; try discriminate Hwhens; reflexivity)])
     |]);
    (split; [reflexivity|]);
    (split; [|reflexivity]);
    rewrite <- ?app_assoc, ?app_nil_r; cbn [app];
    match goal with |- context [if ?c then _ else _] => destruct c end;
    rewrite <- ?app_assoc, ?app_nil_r; reflexivity.
Qed.

(** A pass over triggers without a [when] trigger always returns, and
    leaves the job as it was. *)
Lemma ingestDeferTriggers_returns env deferXref acc triggers job :
  t.DeferredBlockTriggers.when triggers = None ->
  exists acc', ingestDeferTriggers env deferXref acc triggers job = Ok (acc', job).
Proof.
  unfold ingestDeferTriggers. intros ->. eexists. reflexivity.
Qed.

(** The two passes of the trigger loop, started with empty lists. *)
Lemma ingestDeferTriggers_both env deferXref regular prefetch job acc job' :
  forM (ingestDeferTriggers env deferXref) [regular; prefetch]
    (TriggerLoop.mk false [] []) job = Ok (acc, job') ->
  exists regularOn regularWhen prefetchOn prefetchWhen,
    Forall (isExplicitOn false) regularOn
    /\ Forall (isExplicitWhen false) regularWhen
    /\ Forall (isExplicitOn true) prefetchOn
    /\ Forall (isExplicitWhen true) prefetchWhen
    /\ (hasTrigger regular = false <-> regularOn = [] /\ regularWhen = [])
    /\ TriggerLoop.deferOnOps acc =
         regularOn
         ++ (if hasTrigger regular then []
             else [DeferOnOp deferXref DeferTrigger.Idle false None])
         ++ prefetchOn
    /\ TriggerLoop.deferWhenOps acc = regularWhen ++ prefetchWhen.
Proof.
  cbn [forM]. intros H.
  apply bind_Ok in H as (acc1 & job1 & Hregular & H).
  apply bind_Ok in H as (acc2 & job2 & Hprefetch & H).
  apply ret_Ok in H as [-> _].
  apply ingestDeferTriggers_pass in Hregular
    as (regularOn & regularWhen & HregularOn & HregularWhen & Hnone & Hwhen1 & Hon1 & Hflag).
  apply ingestDeferTriggers_pass in Hprefetch
    as (prefetchOn & prefetchWhen & HprefetchOn & HprefetchWhen & _ & Hwhen2 & Hon2 & _).
  cbn [TriggerLoop.prefetch TriggerLoop.deferOnOps TriggerLoop.deferWhenOps app]
    in HregularOn, HregularWhen, Hwhen1, Hon1.
  rewrite Hflag in HprefetchOn, HprefetchWhen.
  exists regularOn, regularWhen, prefetchOn, prefetchWhen.
  repeat (split; [assumption|]).
  rewrite Hwhen2, Hon2, Hwhen1, Hon1.
  split; [|reflexivity].
  destruct (hasTrigger regular).
  - assert (Hsome : ~ (regularOn = [] /\ regularWhen = [])).
    { intros Hboth. apply Hnone in Hboth. discriminate. }
    destruct regularOn as [|op1 ons1].
    + destruct regularWhen as [|w1 whens1]; [exfalso; apply Hsome; split; reflexivity|].
      cbn. rewrite andb_false_r, app_nil_r. reflexivity.
    + cbn. rewrite !app_nil_r. reflexivity.
  - destruct (proj1 Hnone eq_refl) as [-> ->]. cbn. rewrite app_nil_r. reflexivity.
Qed.

(** The operations of the triggers of the template are not synthesized
    ones. *)
Lemma explicit_not_synthesized prefetch ops :
  Forall (isExplicitOn prefetch) ops -> List.filter isSynthesized ops = [].
Proof.
  induction 1 as [|op ops Hop _ IH]; [reflexivity|].
  cbn [List.filter]. rewrite IH.
  destruct op as [| | | | | | | | | | | | | | | | | | ? ? ? [span|] | |];
    try contradiction; reflexivity.
Qed.

(** C3.  Ingesting a deferred block appends to the create list of the parent the
    template operations of its views and the defer operation, and then the
    defer-on operations: those of the regular triggers (not marked
    prefetch), the synthesized ones, and those of the prefetch triggers
    (marked prefetch); the defer-when operations go to the update list.
    When the regular pass made no trigger operation, exactly one operation
    is synthesized, an idle trigger of this defer operation that is not
    marked prefetch; when it made one (an on-trigger or a when-trigger),
    none is synthesized.  In both cases nothing is synthesized for the
    prefetch pass: the synthesized operations are all the trigger
    operations without a source span. *)
Theorem ingestDeferBlock_idle_trigger env unit deferBlock job unit' job' :
  ingestDeferBlock env unit deferBlock job = Ok (unit', job') ->
  exists templates deferXref main mainSlot metadata slots
         regularOn regularWhen synthesized prefetchOn prefetchWhen,
    ViewCompilationUnit.create unit' =
      ViewCompilationUnit.create unit ++ templates
      ++ [DeferOp deferXref main mainSlot metadata slots
            (t.DeferredBlock.sourceSpan deferBlock)]
      ++ regularOn ++ synthesized ++ prefetchOn
    /\ ViewCompilationUnit.update unit' =
         ViewCompilationUnit.update unit ++ regularWhen ++ prefetchWhen
    /\ Forall (fun op => kind_of op = OpKind.Template) templates
    /\ Forall (isExplicitOn false) regularOn
    /\ Forall (isExplicitWhen false) regularWhen
    /\ Forall (isExplicitOn true) prefetchOn
    /\ Forall (isExplicitWhen true) prefetchWhen
    /\ (regularOn = [] /\ regularWhen = [] ->
        synthesized = [DeferOnOp deferXref DeferTrigger.Idle false None])
    /\ (regularOn <> [] \/ regularWhen <> [] -> synthesized = [])
    /\ List.filter isSynthesized (regularOn ++ synthesized ++ prefetchOn) = synthesized
    /\ (hasTrigger (t.DeferredBlock.triggers deferBlock) = false <->
        regularOn = [] /\ regularWhen = []).
Proof.
  unfold ingestDeferBlock, ingestDeferBlockWith. intros H.
  apply bind_Ok in H as ([blockMeta|] & job0 & _ & H); [|discriminate].
  apply bind_Ok in H as ([unit1 main] & job1 & Hmain & H).
  apply bind_Ok in H as ([unit2 loading] & job2 & Hloading & H).
  apply bind_Ok in H as ([unit3 placeholder] & job3 & Hplaceholder & H).
  apply bind_Ok in H as ([unit4 error] & job4 & Herror & H).
  destruct main as [main|]; [|discriminate].
  apply bind_Ok in H as (deferXref & job5 & _ & H).
  apply bind_Ok in H as (acc & job6 & Hloop & H).
  apply ret_Ok in H as [-> _].
  apply (ingestDeferView_parent env) in Hmain as (Hu1 & ts1 & Hc1 & Ht1).
  assert (Hl : ViewCompilationUnit.update unit2 = ViewCompilationUnit.update unit1
               /\ exists ts, ViewCompilationUnit.create unit2
                             = ViewCompilationUnit.create unit1 ++ ts
                             /\ Forall (fun op => kind_of op = OpKind.Template) ts).
  { destruct (t.DeferredBlock.loading deferBlock);
      exact (ingestDeferView_parent env _ _ _ _ _ _ _ _ Hloading). }
  assert (Hp : ViewCompilationUnit.update unit3 = ViewCompilationUnit.update unit2
               /\ exists ts, ViewCompilationUnit.create unit3
                             = ViewCompilationUnit.create unit2 ++ ts
                             /\ Forall (fun op => kind_of op = OpKind.Template) ts).
  { destruct (t.DeferredBlock.placeholder deferBlock);
      exact (ingestDeferView_parent env _ _ _ _ _ _ _ _ Hplaceholder). }
  assert (He : ViewCompilationUnit.update unit4 = ViewCompilationUnit.update unit3
               /\ exists ts, ViewCompilationUnit.create unit4
                             = ViewCompilationUnit.create unit3 ++ ts
                             /\ Forall (fun op => kind_of op = OpKind.Template) ts).
  { destruct (t.DeferredBlock.error deferBlock);
      exact (ingestDeferView_parent env _ _ _ _ _ _ _ _ Herror). }
  destruct Hl as (Hu2 & ts2 & Hc2 & Ht2).
  destruct Hp as (Hu3 & ts3 & Hc3 & Ht3).
  destruct He as (Hu4 & ts4 & Hc4 & Ht4).
  apply ingestDeferTriggers_both in Hloop
    as (regularOn & regularWhen & prefetchOn & prefetchWhen
        & HregularOn & HregularWhen & HprefetchOn & HprefetchWhen & Hnone & Hon & Hwhen).
  exists (ts1 ++ ts2 ++ ts3 ++ ts4), deferXref, (op_xref main), (op_handle main), blockMeta.
  eexists. exists regularOn, regularWhen.
  exists (if hasTrigger (t.DeferredBlock.triggers deferBlock) then []
          else [DeferOnOp deferXref DeferTrigger.Idle false None]).
  exists prefetchOn, prefetchWhen.
  cbn [Unit.push_update_all Unit.push_create_all Unit.push_create
       ViewCompilationUnit.create ViewCompilationUnit.update].
  rewrite Hon, Hwhen, Hc4, Hc3, Hc2, Hc1, Hu4, Hu3, Hu2, Hu1.
  split; [rewrite <- !app_assoc; reflexivity|].
  split; [reflexivity|].
  split; [repeat (apply Forall_app; split); assumption|].
  repeat (split; [assumption|]).
  split; [|split; [|split; [|exact Hnone]]].
  - intros Hboth. apply Hnone in Hboth. rewrite Hboth. reflexivity.
  - intros Hsome. destruct (hasTrigger (t.DeferredBlock.triggers deferBlock));
      [reflexivity|].
    destruct (proj1 Hnone eq_refl) as [Hons Hwhens].
    destruct Hsome as [Hsome|Hsome]; contradiction.
  - rewrite !List.filter_app, (explicit_not_synthesized _ _ HregularOn),
      (explicit_not_synthesized _ _ HprefetchOn), app_nil_r.
    destruct (hasTrigger (t.DeferredBlock.triggers deferBlock)); reflexivity.
Qed.

Lemma ingestDeferBlock_idle_trigger_witness :
  exists unit' job',
    ingestDeferBlock Samples.env Samples.root Samples.bareDefer Samples.job =
      Ok (unit', job')
    /\ exists templates deferXref main mainSlot metadata slots
              regularOn regularWhen synthesized prefetchOn prefetchWhen,
        ViewCompilationUnit.create unit' =
          ViewCompilationUnit.create Samples.root ++ templates
          ++ [DeferOp deferXref main mainSlot metadata slots
                (t.DeferredBlock.sourceSpan Samples.bareDefer)]
          ++ regularOn ++ synthesized ++ prefetchOn
        /\ ViewCompilationUnit.update unit' =
             ViewCompilationUnit.update Samples.root ++ regularWhen ++ prefetchWhen
        /\ Forall (fun op => kind_of op = OpKind.Template) templates
        /\ Forall (isExplicitOn false) regularOn
        /\ Forall (isExplicitWhen false) regularWhen
        /\ Forall (isExplicitOn true) prefetchOn
        /\ Forall (isExplicitWhen true) prefetchWhen
        /\ (regularOn = [] /\ regularWhen = [] ->
            synthesized = [DeferOnOp deferXref DeferTrigger.Idle false None])
        /\ (regularOn <> [] \/ regularWhen <> [] -> synthesized = [])
        /\ List.filter isSynthesized (regularOn ++ synthesized ++ prefetchOn) = synthesized
        /\ (hasTrigger (t.DeferredBlock.triggers Samples.bareDefer) = false <->
            regularOn = [] /\ regularWhen = []).
Proof.
  eassert (H : ingestDeferBlock Samples.env Samples.root Samples.bareDefer Samples.job
               = Ok (_, _)) by (vm_compute; reflexivity).
  eexists _, _. split; [exact H|].
  exact (ingestDeferBlock_idle_trigger Samples.env Samples.root Samples.bareDefer
           Samples.job _ _ H).
Defined.

(** The block [@defer { x }], without any trigger: the parent gets the
    template of the main view, the defer operation and one idle trigger
    that is not marked prefetch. *)
Example ingestDeferBlock_bare :
  option_map ViewCompilationUnit.create
    (resultUnit (ingestDeferBlock Samples.env Samples.root Samples.bareDefer Samples.job))
  = Some [TemplateOp 1 TemplateKind.Block None "Defer" new_SlotHandle NS_HTML None []
            (Samples.span 0 12) (Samples.span 0 12);
          DeferOp 3 1 new_SlotHandle {| deps := [] |}
            (DeferSlots.mk None None None None None None None) (Samples.span 0 12);
          DeferOnOp 3 DeferTrigger.Idle false None].
Proof. vm_compute. reflexivity. Qed.

(** ** Host bindings *)

Lemma forM_invariant {A S} (f : S -> A -> M S) (I : S -> Prop) :
  (forall s a job s' job', I s -> f s a job = Ok (s', job') -> I s') ->
  forall l s job s' job', I s -> forM f l s job = Ok (s', job') -> I s'.
Proof.
  intros Hstep l. induction l as [|a l IH]; intros s job s' job' Hs H; cbn [forM] in H.
  - apply ret_Ok in H as [-> _]. exact Hs.
  - apply bind_Ok in H as (s1 & job1 & Hf & H). eauto.
Qed.

(** What the property loop does to a property object, and the kind it
    computes. *)
Lemma classifyHostProperty_spec bindingParser componentSelector property :
  let '(property', bindingKind, _) :=
    classifyHostProperty bindingParser componentSelector property in
  e.ParsedProperty.name property' =
    (if String.prefix "attr." (e.ParsedProperty.name property)
     then withoutAttrPrefix (e.ParsedProperty.name property)
     else e.ParsedProperty.name property)
  /\ e.ParsedProperty.expression_ast property' = e.ParsedProperty.expression_ast property
  /\ e.ParsedProperty.isAnimation property' = e.ParsedProperty.isAnimation property
  /\ e.ParsedProperty.sourceSpan property' = e.ParsedProperty.sourceSpan property
  /\ bindingKind =
       (if e.ParsedProperty.isAnimation property then BindingKind.Animation
        else if String.prefix "attr." (e.ParsedProperty.name property)
             then BindingKind.Attribute else BindingKind.Property).
Proof.
  unfold classifyHostProperty.
  destruct (String.prefix "attr." (e.ParsedProperty.name property)); cbn;
    destruct (e.ParsedProperty.isAnimation property); repeat split; reflexivity.
Qed.

Lemma ingestHostProperty_Ok env root property bindingKind securityContexts job root' job' :
  ingestHostProperty env root property bindingKind securityContexts job = Ok (root', job') ->
  exists op,
    root' = HostUnit.push_update root op
    /\ bindingKindOf op = Some bindingKind
    /\ bindingNameOf op = Some (e.ParsedProperty.name property).
Proof.
  unfold ingestHostProperty. intros H.
  apply bind_Ok in H as (expression & job1 & _ & H).
  apply ret_Ok in H as [-> _]. eexists. repeat split; reflexivity.
Qed.

(** The property objects as the loop leaves them: every one is either as
    it was or as the loop body rewrites it, and all are rewritten when the
    loop runs to its end.  Then the update list has gained one binding per
    property, in order. *)
Lemma ingestHostProperties_spec env bindingParser componentSelector properties :
  forall root job properties' result,
    ingestHostProperties env bindingParser componentSelector properties root job =
      (properties', result) ->
    Forall2 (fun property property' =>
               property' = property
               \/ property' =
                    fst (fst (classifyHostProperty bindingParser componentSelector
                                property)))
            properties properties'
    /\ forall root' job',
        result = Ok (root', job') ->
        properties' =
          map (fun property =>
                 fst (fst (classifyHostProperty bindingParser componentSelector property)))
              properties
        /\ HostBindingCompilationUnit.create root' = HostBindingCompilationUnit.create root
        /\ exists ops,
            HostBindingCompilationUnit.update root' =
              HostBindingCompilationUnit.update root ++ ops
            /\ Forall2 (fun property op =>
                          let '(property', bindingKind, _) :=
                            classifyHostProperty bindingParser componentSelector property in
                          bindingKindOf op = Some bindingKind
                          /\ bindingNameOf op = Some (e.ParsedProperty.name property'))
                       properties ops.
Proof.
  induction properties as [|property rest IH]; intros root job properties' result H;
    cbn [ingestHostProperties] in H.
  - injection H as <- <-. split; [constructor|].
    intros root' job' [= <- <-]. split; [reflexivity|]. split; [reflexivity|].
    exists []. split; [symmetry; apply app_nil_r|constructor].
  - destruct (classifyHostProperty bindingParser componentSelector property)
      as [[property1 bindingKind] securityContexts] eqn:Hclassify.
    destruct (ingestHostProperty env root property1 bindingKind securityContexts job)
      as [[root1 job1]|msg] eqn:Hproperty.
    + destruct (ingestHostProperties env bindingParser componentSelector rest root1 job1)
        as [rest' result'] eqn:Hrest.
      injection H as <- <-.
      apply IH in Hrest as [Hframe Hok].
      split.
      * constructor; [right; rewrite Hclassify; reflexivity|exact Hframe].
      * intros root' job' Hresult.
        destruct (Hok _ _ Hresult) as (-> & Hcreate & ops & Hupdate & Hops).
        apply ingestHostProperty_Ok in Hproperty as (op & -> & Hkind & Hname).
        split; [cbn [map]; rewrite Hclassify; reflexivity|].
        split; [rewrite Hcreate; reflexivity|].
        exists (op :: ops). split.
        -- rewrite Hupdate. cbn [HostUnit.push_update HostBindingCompilationUnit.update].
           rewrite <- app_assoc. reflexivity.
        -- constructor; [rewrite Hclassify; split; assumption|exact Hops].
    + injection H as <- <-. split.
      * constructor; [right; rewrite Hclassify; reflexivity|].
        clear. induction rest; constructor; auto.
      * intros root' job' [=].
Qed.

(** The attribute and event loops keep what the update list holds. *)
Lemma ingestHostBinding_rest_update env bindingParser input root job root' job' :
  (root <- forM (fun root attribute =>
                   let securityContexts :=
                     List.filter notNone
                       (calcPossibleSecurityContexts bindingParser
                          (HostBindingInput.componentSelector input)
                          (fst attribute) true) in
                   ingestHostAttribute root (fst attribute) (snd attribute)
                     securityContexts)
                (HostBindingInput.attributes input) root ;;
   forM (ingestHostEvent env) (default [] (HostBindingInput.events input)) root) job =
    Ok (root', job') ->
  exists more,
    HostBindingCompilationUnit.update root' = HostBindingCompilationUnit.update root ++ more.
Proof.
  intros H. apply bind_Ok in H as (root1 & job1 & Hattributes & Hevents).
  eapply (forM_invariant _
            (fun r => exists more, HostBindingCompilationUnit.update r =
                                     HostBindingCompilationUnit.update root ++ more))
    in Hevents; [exact Hevents| |].
  - intros r event j r' j' [more Hmore] Hevent.
    unfold ingestHostEvent in Hevent.
    destruct (if e.ParsedEventType.eqb _ _ then _ else _) as [phase target].
    apply bind_Ok in Hevent as (handlerOps & ? & _ & Hevent).
    apply ret_Ok in Hevent as [-> _]. exists more. exact Hmore.
  - eapply (forM_invariant _
              (fun r => exists more, HostBindingCompilationUnit.update r =
                                       HostBindingCompilationUnit.update root ++ more))
      in Hattributes; [exact Hattributes| |].
    + intros r attribute j r' j' [more Hmore] Hattribute.
      unfold ingestHostAttribute in Hattribute.
      apply ret_Ok in Hattribute as [-> _].
      eexists. cbn [HostUnit.push_update HostBindingCompilationUnit.update].
      rewrite Hmore, <- app_assoc. reflexivity.
    + exists []. symmetry. apply app_nil_r.
Qed.

(** C2, as the code has it.  When host binding ingestion returns, the
    binding of every host property whose name starts with [attr.] carries
    the name without the prefix, and is attribute-kind unless the property
    is flagged as an animation binding, in which case it is animation-kind.
    (The bindings of the properties come first in the update list, in the
    order of the properties.) *)
Theorem ingestHostBinding_attr_prefix env input bindingParser input' root job i property :
  ingestHostBinding env input bindingParser = (input', Ok (root, job)) ->
  default [] (HostBindingInput.properties input) !! i = Some property ->
  String.prefix "attr." (e.ParsedProperty.name property) = true ->
  exists op,
    HostBindingCompilationUnit.update root !! i = Some op
    /\ bindingNameOf op = Some (withoutAttrPrefix (e.ParsedProperty.name property))
    /\ bindingKindOf op =
         Some (if e.ParsedProperty.isAnimation property
               then BindingKind.Animation else BindingKind.Attribute).
Proof.
  unfold ingestHostBinding. intros H Hlookup Hprefix.
  cbn [new_HostBindingCompilationJob] in H.
  destruct (ingestHostProperties _ _ _ _ _ _) as [properties' result] eqn:Hproperties.
  injection H as _ H.
  destruct result as [[root1 job1]|msg]; [|discriminate].
  apply ingestHostProperties_spec in Hproperties as [_ Hok].
  destruct (Hok _ _ eq_refl) as (_ & _ & ops & Hupdate & Hops).
  apply ingestHostBinding_rest_update in H as [more Hmore].
  cbn [HostBindingCompilationUnit.update app] in Hupdate.
  destruct (Forall2_lookup_l _ _ _ _ _ Hops Hlookup) as (op & Hop & Hspec).
  exists op. split.
  - rewrite Hmore, Hupdate. apply lookup_app_l_Some. exact Hop.
  - pose proof (classifyHostProperty_spec bindingParser
                  (HostBindingInput.componentSelector input) property) as Hclassify.
    destruct (classifyHostProperty _ _ property) as [[property1 bindingKind] scs].
    destruct Hclassify as (Hname & _ & _ & _ & Hkind).
    destruct Hspec as [Hopkind Hopname].
    rewrite Hprefix in Hname, Hkind.
    rewrite Hopname, Hopkind, Hname, Hkind. split; reflexivity.
Qed.

Lemma ingestHostBinding_attr_prefix_witness :
  exists input' root job,
    ingestHostBinding Samples.env Samples.attrInput Samples.bindingParser =
      (input', Ok (root, job))
    /\ exists op,
        HostBindingCompilationUnit.update root !! 0 = Some op
        /\ bindingNameOf op = Some "role"
        /\ bindingKindOf op = Some BindingKind.Attribute.
Proof.
  eassert (H : ingestHostBinding Samples.env Samples.attrInput Samples.bindingParser
               = (_, Ok (_, _))) by (vm_compute; reflexivity).
  eexists _, _, _. split; [exact H|].
  exact (ingestHostBinding_attr_prefix Samples.env Samples.attrInput Samples.bindingParser
           _ _ _ 0 Samples.attrProperty H eq_refl eq_refl).
Defined.

(** C2, as stated, fails: the host property [[@attr.foo]] has a name that
    starts with [attr.] and is declared as an animation binding; its
    binding gets the name [foo] and is animation-kind, not attribute-kind. *)
Lemma ingestHostBinding_animation_wins :
  snd (ingestHostBinding Samples.env Samples.animationInput Samples.bindingParser) =
    Ok (HostBindingCompilationUnit.mk 0 []
          [BindingOp 0 BindingKind.Animation "foo"
             (BExpr (LiteralExpr (LNumber 1) (Some (Samples.span 0 1)))) None
             (ManyContexts []) false false None None (Some (Samples.span 0 10))],
        snd (new_HostBindingCompilationJob "Cmp")).
Proof. vm_compute. reflexivity. Qed.

(** C10.  Host binding ingestion leaves the input as it was, except for the
    names of properties: the component name and selector, the attributes
    and the events are untouched; the array of properties keeps its length
    and every property keeps its expression, its animation flag and its
    source span; a name is either as it was or, if it started with
    [attr.], without that prefix; and when ingestion returns, the name of
    every property that started with [attr.] is the name without the
    prefix, and every other name is as it was. *)
Theorem ingestHostBinding_mutates_names env input bindingParser :
  let input' := fst (ingestHostBinding env input bindingParser) in
  HostBindingInput.componentName input' = HostBindingInput.componentName input
  /\ HostBindingInput.componentSelector input' = HostBindingInput.componentSelector input
  /\ HostBindingInput.attributes input' = HostBindingInput.attributes input
  /\ HostBindingInput.events input' = HostBindingInput.events input
  /\ (HostBindingInput.properties input = None <->
      HostBindingInput.properties input' = None)
  /\ Forall2 (fun property property' =>
                e.ParsedProperty.expression_ast property' =
                  e.ParsedProperty.expression_ast property
                /\ e.ParsedProperty.isAnimation property' =
                     e.ParsedProperty.isAnimation property
                /\ e.ParsedProperty.sourceSpan property' =
                     e.ParsedProperty.sourceSpan property
                /\ (e.ParsedProperty.name property' = e.ParsedProperty.name property
                    \/ String.prefix "attr." (e.ParsedProperty.name property) = true
                       /\ e.ParsedProperty.name property' =
                            withoutAttrPrefix (e.ParsedProperty.name property)))
             (default [] (HostBindingInput.properties input))
             (default [] (HostBindingInput.properties input'))
  /\ (forall root job,
         snd (ingestHostBinding env input bindingParser) = Ok (root, job) ->
         Forall2 (fun property property' =>
                    e.ParsedProperty.name property' =
                      (if String.prefix "attr." (e.ParsedProperty.name property)
                       then withoutAttrPrefix (e.ParsedProperty.name property)
                       else e.ParsedProperty.name property))
                 (default [] (HostBindingInput.properties input))
                 (default [] (HostBindingInput.properties input'))).
Proof.
  unfold ingestHostBinding. cbn [new_HostBindingCompilationJob].
  destruct (ingestHostProperties _ _ _ _ _ _) as [properties' result] eqn:Hproperties.
  cbn [fst snd HostBindingInput.componentName HostBindingInput.componentSelector
       HostBindingInput.attributes HostBindingInput.events HostBindingInput.properties].
  apply ingestHostProperties_spec in Hproperties as [Hframe Hok].
  repeat (split; [reflexivity|]).
  split; [destruct (HostBindingInput.properties input); split; discriminate || reflexivity|].
  assert (Hsame : default [] (option_map (fun _ => properties')
                                (HostBindingInput.properties input)) = properties').
  { destruct (HostBindingInput.properties input); [reflexivity|].
    cbn in Hframe |- *. inversion Hframe. reflexivity. }
  rewrite Hsame. split.
  - eapply Forall2_impl; [exact Hframe|].
    intros property property' [-> | ->]; [repeat split; left; reflexivity|].
    pose proof (classifyHostProperty_spec bindingParser
                  (HostBindingInput.componentSelector input) property) as Hclassify.
    destruct (classifyHostProperty _ _ property) as [[property1 bindingKind] scs].
    destruct Hclassify as (Hname & Hast & Hanimation & Hspan & _).
    cbn [fst]. repeat (split; [assumption|]).
    destruct (String.prefix "attr." (e.ParsedProperty.name property));
      [right; split; [reflexivity|exact Hname]|left; exact Hname].
  - intros root job Hresult.
    destruct result as [[root1 job1]|msg]; [|discriminate].
    destruct (Hok _ _ eq_refl) as (-> & _).
    clear. induction (default [] (HostBindingInput.properties input)) as [|property rest IH];
      cbn [map]; constructor; [|exact IH].
    pose proof (classifyHostProperty_spec bindingParser
                  (HostBindingInput.componentSelector input) property) as Hclassify.
    destruct (classifyHostProperty _ _ property) as [[property1 bindingKind] scs].
    exact (proj1 Hclassify).
Qed.

(** The host property [[attr.role]]: ingestion returns, and the caller's
    property object is now named [role]. *)
Example ingestHostBinding_renames :
  option_map (map e.ParsedProperty.name)
    (HostBindingInput.properties
       (fst (ingestHostBinding Samples.env Samples.attrInput Samples.bindingParser)))
  = Some ["role"]
  /\ option_map HostBindingCompilationUnit.update
       (resultUnit (snd (ingestHostBinding Samples.env Samples.attrInput
                           Samples.bindingParser)))
     = Some [BindingOp 0 BindingKind.Attribute "role"
               (BExpr (LiteralExpr (LString "x") (Some (Samples.span 0 1)))) None
               (ManyContexts []) false false None None (Some (Samples.span 0 10))].
Proof. split; vm_compute; reflexivity. Qed.

Lemma ingestHostBinding_mutates_names_witness :
  Forall2 (fun property property' =>
             e.ParsedProperty.name property' =
               (if String.prefix "attr." (e.ParsedProperty.name property)
                then withoutAttrPrefix (e.ParsedProperty.name property)
                else e.ParsedProperty.name property))
          [Samples.attrProperty]
          (default []
             (HostBindingInput.properties
                (fst (ingestHostBinding Samples.env Samples.attrInput
                        Samples.bindingParser)))).
Proof.
  eassert (H : snd (ingestHostBinding Samples.env Samples.attrInput Samples.bindingParser)
               = Ok (_, _)) by (vm_compute; reflexivity).
  exact (proj2 (proj2 (proj2 (proj2 (proj2 (proj2
           (ingestHostBinding_mutates_names Samples.env Samples.attrInput
              Samples.bindingParser)))))) _ _ H).
Defined.

(** ** Whole templates *)

(** The template [<div [class.on]="x">text</div>]: the root view gets the
    element start, the i18n-attributes operation, the text and the element
    end in its create list, and one class binding in its update list. *)
Example ingestComponent_class_binding :
  let root :=
    rootOf (ingestComponent Samples.env "Cmp" [t.Element Samples.classBindingElement]
              "cmp.ts" false (fun _ => None)) in
  option_map ViewCompilationUnit.create root =
    Some [ElementStartOp "div" 1 new_SlotHandle NS_HTML None []
            (Samples.span 0 20) (Samples.span 0 30);
          I18nAttributesOp 2 new_SlotHandle 1;
          TextOp 3 "text" None (Some (Samples.span 20 24));
          ElementEndOp 1 (Some (Samples.span 24 30))]
  /\ option_map ViewCompilationUnit.update root =
       Some [BindingOp 1 BindingKind.ClassName "on" (BExpr (LexicalReadExpr "x")) None
               (OneContext SC_NONE) false false None None (Some (Samples.span 5 19))].
Proof. split; vm_compute; reflexivity. Qed.

(** The template [@switch (v) { @case (1) {A} }]: one child view with the
    text, its template in the parent's create list and one conditional in
    the parent's update list. *)
Example ingestComponent_switch :
  match ingestComponent Samples.env "Cmp" [t.SwitchBlock Samples.oneCaseSwitch]
          "cmp.ts" false (fun _ => None) with
  | Ok job =>
      option_map ViewCompilationUnit.create (views job !! 1) =
        Some [TextOp 2 "A" None (Some (Samples.span 25 26))]
      /\ option_map ViewCompilationUnit.create (views job !! 0) =
           Some [TemplateOp 1 TemplateKind.Block None "Case" new_SlotHandle NS_HTML None []
                   (Samples.span 14 24) (Samples.span 14 28)]
      /\ option_map ViewCompilationUnit.update (views job !! 0) =
           Some [ConditionalOp (Some 1) (Some new_SlotHandle) (Some (LexicalReadExpr "v"))
                   [ConditionalCaseExpr
                      (Some (LiteralExpr (LNumber 1) (Some (Samples.span 0 1))))
                      1 new_SlotHandle None]
                   (Samples.span 0 30)]
      /\ size (views job) = 2
  | Throw _ => False
  end.
Proof. vm_compute. repeat split; reflexivity. Qed.

(** A comment in front of the single element is skipped: the inference
    yields the tag name of the element and copies its static attribute. *)
Example ingestControlFlowInsertionPoint_comment_then_element :
  ingestControlFlowInsertionPoint Samples.env Samples.root 1
    [t.Comment "c" (Samples.span 0 1); t.Element Samples.divElement] Samples.job =
    Ok ((Unit.push_update Samples.root
           (BindingOp 1 BindingKind.Attribute "title"
              (BExpr (LiteralExpr (LString "t") None)) None (OneContext SC_NONE)
              true false None None (Some (Samples.span 5 14))),
         Some "div"), Samples.job).
Proof. reflexivity. Qed.

(** * Further properties of ingestion *)

(** ** The step relations *)

Lemma unit_ext_refl u : unit_ext u u.
Proof.
  repeat split; try reflexivity; exists []; symmetry; apply app_nil_r.
Qed.

Lemma unit_ext_trans u1 u2 u3 : unit_ext u1 u2 -> unit_ext u2 u3 -> unit_ext u1 u3.
Proof.
  intros (Hx & Hp & Hc & Ha & [cs Hcs] & [us Hus])
         (Hx' & Hp' & Hc' & Ha' & [cs' Hcs'] & [us' Hus']).
  repeat split; try congruence.
  - exists (cs ++ cs'). rewrite Hcs', Hcs, app_assoc. reflexivity.
  - exists (us ++ us'). rewrite Hus', Hus, app_assoc. reflexivity.
Qed.

Lemma unit_ext_push_create u op : unit_ext u (Unit.push_create u op).
Proof.
  repeat split; try reflexivity; [exists [op]|exists []]; cbn;
    [reflexivity|symmetry; apply app_nil_r].
Qed.

Lemma unit_ext_push_create_all u ops : unit_ext u (Unit.push_create_all u ops).
Proof.
  repeat split; try reflexivity; [exists ops|exists []]; cbn;
    [reflexivity|symmetry; apply app_nil_r].
Qed.

Lemma unit_ext_push_update u op : unit_ext u (Unit.push_update u op).
Proof.
  repeat split; try reflexivity; [exists []|exists [op]]; cbn;
    [symmetry; apply app_nil_r|reflexivity].
Qed.

Lemma unit_ext_push_update_all u ops : unit_ext u (Unit.push_update_all u ops).
Proof.
  repeat split; try reflexivity; [exists []|exists ops]; cbn;
    [symmetry; apply app_nil_r|reflexivity].
Qed.

Lemma set_nextXrefId_id j : set_nextXrefId j (nextXrefId j) = j.
Proof. destruct j. reflexivity. Qed.

Lemma counter_ext_refl j : counter_ext j j.
Proof. exists (nextXrefId j). split; [symmetry; apply set_nextXrefId_id|reflexivity]. Qed.

Lemma counter_ext_trans j1 j2 j3 : counter_ext j1 j2 -> counter_ext j2 j3 -> counter_ext j1 j3.
Proof.
  intros (n & -> & Hle) (m & -> & Hle'). exists m. destruct j1. cbn in *.
  split; [reflexivity|lia].
Qed.

Lemma counter_ext_le j j' : counter_ext j j' -> nextXrefId j <= nextXrefId j'.
Proof. intros (n & -> & Hle). destruct j. exact Hle. Qed.

Lemma counter_ext_allocate j xref j' :
  allocateXrefId j = Ok (xref, j') ->
  xref = nextXrefId j /\ nextXrefId j' = S (nextXrefId j) /\ counter_ext j j'.
Proof.
  unfold allocateXrefId. intros [= <- <-]. destruct j. cbn.
  split; [reflexivity|]. split; [reflexivity|].
  eexists. split; [reflexivity|cbn; lia].
Qed.

Lemma job_ext_refl j : job_ext j j.
Proof. repeat split; auto. Qed.

Lemma job_ext_trans j1 j2 j3 : job_ext j1 j2 -> job_ext j2 j3 -> job_ext j1 j3.
Proof.
  intros (Hs & Hle & Hold & Hkeep) (Hs' & Hle' & Hold' & Hkeep').
  repeat split; [congruence|lia| |auto].
  intros k Hk. rewrite Hold' by lia. auto.
Qed.

Lemma counter_ext_job_ext j j' : counter_ext j j' -> job_ext j j'.
Proof.
  intros (n & -> & Hle). destruct j. cbn in *. repeat split; auto.
Qed.

Lemma counter_ext_views_wf j j' : counter_ext j j' -> views_wf j -> views_wf j'.
Proof.
  intros (n & -> & Hle) Hwf k v Hv. destruct j. cbn in *.
  destruct (Hwf k v Hv) as (Hx & Hk & Hp). cbn in *.
  split; [exact Hx|]. split; [lia|exact Hp].
Qed.

Lemma counter_ext_registered u j j' : counter_ext j j' -> registered u j -> registered u j'.
Proof.
  intros (n & -> & Hle) [Hx Hreg]. destruct j. cbn in *. split; cbn; [lia|exact Hreg].
Qed.

(** ** Monadic loops *)

Lemma mapM_length {A B} (f : A -> M B) l job bs job' :
  mapM f l job = Ok (bs, job') -> List.length bs = List.length l.
Proof.
  revert job bs. induction l as [|a l IH]; intros job bs H; cbn [mapM] in H.
  - apply ret_Ok in H as [-> _]. reflexivity.
  - apply bind_Ok in H as (b & job1 & _ & H).
    apply bind_Ok in H as (bs1 & job2 & Hrest & H).
    apply ret_Ok in H as [-> ->]. cbn. f_equal. eauto.
Qed.

(** A loop over a list each of whose steps respects a preorder on jobs
    respects it; what holds of every step's result holds of every
    result. *)
Lemma mapM_rel {A B} (f : A -> M B) (R : CompilationJob -> CompilationJob -> Prop)
    (Q : A -> B -> Prop) l :
  (forall j, R j j) ->
  (forall j1 j2 j3, R j1 j2 -> R j2 j3 -> R j1 j3) ->
  Forall (fun a => forall job b job', f a job = Ok (b, job') -> R job job' /\ Q a b) l ->
  forall job bs job',
    mapM f l job = Ok (bs, job') -> R job job' /\ Forall2 Q l bs.
Proof.
  intros Hrefl Htrans Hall. induction Hall as [|a l Ha _ IH]; intros job bs job' H;
    cbn [mapM] in H.
  - apply ret_Ok in H as [-> ->]. split; [apply Hrefl|constructor].
  - apply bind_Ok in H as (b & job1 & Hb & H).
    apply bind_Ok in H as (bs1 & job2 & Hrest & H).
    apply ret_Ok in H as [-> ->].
    destruct (Ha _ _ _ Hb) as [HR HQ]. destruct (IH _ _ _ Hrest) as [HR' HQ'].
    split; [eauto|constructor; assumption].
Qed.

Lemma forM_rel {A S} (f : S -> A -> M S) (R : S * CompilationJob -> S * CompilationJob -> Prop)
    l :
  (forall x, R x x) ->
  (forall x y z, R x y -> R y z -> R x z) ->
  Forall (fun a => forall s job s' job', f s a job = Ok (s', job') -> R (s, job) (s', job')) l ->
  forall s job s' job',
    forM f l s job = Ok (s', job') -> R (s, job) (s', job').
Proof.
  intros Hrefl Htrans Hall. induction Hall as [|a l Ha _ IH]; intros s job s' job' H;
    cbn [forM] in H.
  - apply ret_Ok in H as [-> ->]. apply Hrefl.
  - apply bind_Ok in H as (s1 & job1 & Hs & H). eauto.
Qed.

(** ** Induction on expression trees *)

Lemma AST_deep_ind (P : e.AST -> Prop) :
  (forall span ast, P ast -> P (e.ASTWithSource span ast)) ->
  (forall span, P (e.EmptyExpr span)) ->
  (forall span, P (e.ImplicitReceiver span)) ->
  (forall span, P (e.ThisReceiver span)) ->
  (forall span expressions, Forall P expressions -> P (e.Chain span expressions)) ->
  (forall span condition trueExp falseExp,
      P condition -> P trueExp -> P falseExp ->
      P (e.Conditional span condition trueExp falseExp)) ->
  (forall span receiver name, P receiver -> P (e.PropertyRead span receiver name)) ->
  (forall span receiver name value,
      P receiver -> P value -> P (e.PropertyWrite span receiver name value)) ->
  (forall span receiver name, P receiver -> P (e.SafePropertyRead span receiver name)) ->
  (forall span receiver key, P receiver -> P key -> P (e.KeyedRead span receiver key)) ->
  (forall span receiver key, P receiver -> P key -> P (e.SafeKeyedRead span receiver key)) ->
  (forall span receiver key value,
      P receiver -> P key -> P value -> P (e.KeyedWrite span receiver key value)) ->
  (forall span exp name args, P exp -> Forall P args -> P (e.BindingPipe span exp name args)) ->
  (forall span value, P (e.LiteralPrimitive span value)) ->
  (forall span expressions, Forall P expressions -> P (e.LiteralArray span expressions)) ->
  (forall span keys values, Forall P values -> P (e.LiteralMap span keys values)) ->
  (forall span strings expressions,
      Forall P expressions -> P (e.Interpolation span strings expressions)) ->
  (forall span operation lhs rhs, P lhs -> P rhs -> P (e.Binary span operation lhs rhs)) ->
  (forall span operator expr, P expr -> P (e.Unary span operator expr)) ->
  (forall span expression, P expression -> P (e.PrefixNot span expression)) ->
  (forall span expression, P expression -> P (e.NonNullAssert span expression)) ->
  (forall span receiver args, P receiver -> Forall P args -> P (e.Call span receiver args)) ->
  (forall span receiver args,
      P receiver -> Forall P args -> P (e.SafeCall span receiver args)) ->
  forall ast, P ast.
Proof.
  intros HWithSource HEmpty HImplicit HThis HChain HConditional HPropertyRead
    HPropertyWrite HSafePropertyRead HKeyedRead HSafeKeyedRead HKeyedWrite HBindingPipe
    HLiteralPrimitive HLiteralArray HLiteralMap HInterpolation HBinary HUnary HPrefixNot
    HNonNullAssert HCall HSafeCall.
  fix IH 1.
  assert (Hall : forall l, Forall P l).
  { fix IHl 1. intros [|a l]; [apply List.Forall_nil|apply List.Forall_cons; [apply IH|apply IHl]]. }
  intros [span ast|span|span|span|span expressions|span c tr fa|span r n|span r n v
         |span r n|span r k|span r k|span r k v|span ex n args|span v|span es
         |span ks vs|span ss es|span op l r|span op ex|span ex|span ex|span r args
         |span r args].
  - apply HWithSource, IH.
  - apply HEmpty.
  - apply HImplicit.
  - apply HThis.
  - apply HChain, Hall.
  - apply HConditional; apply IH.
  - apply HPropertyRead, IH.
  - apply HPropertyWrite; apply IH.
  - apply HSafePropertyRead, IH.
  - apply HKeyedRead; apply IH.
  - apply HSafeKeyedRead; apply IH.
  - apply HKeyedWrite; apply IH.
  - apply HBindingPipe; [apply IH|apply Hall].
  - apply HLiteralPrimitive.
  - apply HLiteralArray, Hall.
  - apply HLiteralMap, Hall.
  - apply HInterpolation, Hall.
  - apply HBinary; apply IH.
  - apply HUnary, IH.
  - apply HPrefixNot, IH.
  - apply HNonNullAssert, IH.
  - apply HCall; [apply IH|apply Hall].
  - apply HSafeCall; [apply IH|apply Hall].
Qed.

(** ** Identifiers taken by expression lowering *)

Lemma lowered_refl j : lowered j [] j.
Proof. split; [apply counter_ext_refl|]. rewrite Nat.sub_diag. reflexivity. Qed.

Lemma lowered_app j1 p j2 q j3 :
  lowered j1 p j2 -> lowered j2 q j3 -> lowered j1 (p ++ q) j3.
Proof.
  intros [H12 ->] [H23 ->]. split; [eapply counter_ext_trans; eassumption|].
  apply counter_ext_le in H12, H23.
  replace (nextXrefId j3 - nextXrefId j1)
    with ((nextXrefId j2 - nextXrefId j1) + (nextXrefId j3 - nextXrefId j2)) by lia.
  rewrite seq_app. do 2 f_equal. lia.
Qed.

Lemma lowered_allocate j xref j' :
  allocateXrefId j = Ok (xref, j') -> lowered j [xref] j'.
Proof.
  intros H. apply counter_ext_allocate in H as (-> & Hnext & Hext).
  split; [exact Hext|]. rewrite Hnext.
  replace (S (nextXrefId j) - nextXrefId j) with 1 by lia. reflexivity.
Qed.

Lemma rootXref_Ok j root j' : rootXref j = Ok (root, j') -> root = root_xref j /\ j' = j.
Proof. unfold rootXref. intros [= <- <-]. auto. Qed.

Lemma mapM_lowered (f : e.AST -> M Expression) l :
  Forall (fun a => forall job x job', f a job = Ok (x, job') -> lowered job (pipeXrefs x) job')
         l ->
  forall job xs job',
    mapM f l job = Ok (xs, job') -> lowered job (flat_map pipeXrefs xs) job'.
Proof.
  intros Hall. induction Hall as [|a l Ha _ IH]; intros job xs job' H; cbn [mapM] in H.
  - apply ret_Ok in H as [-> ->]. apply lowered_refl.
  - apply bind_Ok in H as (x & job1 & Hx & H).
    apply bind_Ok in H as (xs1 & job2 & Hxs & H).
    apply ret_Ok in H as [-> ->]. cbn [flat_map].
    eapply lowered_app; eauto.
Qed.

(** Turn the runs in the context into facts about the identifiers taken. *)
Ltac lower :=
  repeat match goal with
    | H : bind _ _ _ = Ok _ |- _ =>
        let H1 := fresh "Hrun" in apply bind_Ok in H as (? & ? & H1 & H)
    | H : ret _ _ = Ok _ |- _ => apply ret_Ok in H as [-> ->]
    | H : throw _ _ = Ok _ |- _ => discriminate H
    | H : rootXref _ = Ok _ |- _ => apply rootXref_Ok in H as [-> ->]
    | H : allocateXrefId _ = Ok _ |- _ => apply lowered_allocate in H
    | IH : forall base job x job', convertAst _ ?a base job = Ok (x, job') -> _,
      H : convertAst _ ?a _ _ = Ok _ |- _ => apply IH in H
    | IH : Forall _ ?l, H : mapM _ ?l _ = Ok _ |- _ =>
        apply (mapM_lowered _ _ (Forall_impl _ _ _ IH (fun a Ha => Ha _))) in H
    end.

Ltac chain :=
  cbn [pipeXrefs app];
  repeat first
    [ eassumption
    | apply lowered_refl
    | eapply lowered_app; [eassumption|] ].

Lemma convertAst_lowered env ast :
  forall base job x job',
    convertAst env ast base job = Ok (x, job') -> lowered job (pipeXrefs x) job'.
Proof.
  induction ast using AST_deep_ind; intros base job x job' Hconv;
    cbn [convertAst] in Hconv.
  - eauto.
  - lower. chain.
  - discriminate.
  - lower. chain.
  - discriminate.
  - lower. chain.
  - destruct (_ || _); lower; chain.
  - destruct (e.instanceof_ImplicitReceiver _); lower; chain.
  - lower. chain.
  - lower. chain.
  - lower. chain.
  - lower. chain.
  - lower. cbn [pipeXrefs flat_map].
    eapply (lowered_app _ [_]); [eassumption|]. chain.
  - lower. chain.
  - lower. chain.
  - apply bind_Ok in Hconv as (entries & job1 & Hentries & Hconv). lower.
    cbn [pipeXrefs].
    revert keys job entries Hentries.
    match goal with IH : Forall _ values |- _ =>
      induction IH as [|value values Hvalue _ IHvalues]
    end; intros keys job entries Hentries.
    + destruct keys; lower; apply lowered_refl.
    + destruct keys as [|key keys]; lower; [apply lowered_refl|].
      cbn [flat_map]. eapply lowered_app; [eauto|]. eapply IHvalues. eassumption.
  - discriminate.
  - destruct (BINARY_OPERATORS env operation); lower; chain.
  - destruct (String.eqb operator "+"); [|destruct (String.eqb operator "-")];
      lower; chain.
  - lower. chain.
  - eauto.
  - destruct (e.instanceof_ImplicitReceiver _); lower; chain.
  - lower. chain.
Qed.

Lemma convertAst_counter env ast base job x job' :
  convertAst env ast base job = Ok (x, job') -> counter_ext job job'.
Proof. intros H. apply convertAst_lowered in H as [H _]. exact H. Qed.

Lemma mapM_convertAst_lowered env base l job xs job' :
  mapM (fun a => convertAst env a base) l job = Ok (xs, job') ->
  lowered job (flat_map pipeXrefs xs) job'.
Proof.
  apply mapM_lowered. apply Forall_forall. intros a _ j x j'. apply convertAst_lowered.
Qed.

Lemma mapM_convertAst_counter env base l job xs job' :
  mapM (fun a => convertAst env a base) l job = Ok (xs, job') -> counter_ext job job'.
Proof. intros H. apply mapM_convertAst_lowered in H as [H _]. exact H. Qed.

Lemma asMessage_Ok i18nMeta job message job' :
  asMessage i18nMeta job = Ok (message, job') ->
  job' = job
  /\ message = match i18nMeta with Some (i18n.IsMessage m) => Some m | _ => None end.
Proof.
  unfold asMessage. destruct i18nMeta as [[m|n]|]; try discriminate;
    intros H; apply ret_Ok in H as [-> ->]; auto.
Qed.

Lemma inCompatibilityMode_Ok job b job' :
  inCompatibilityMode job = Ok (b, job') -> job' = job.
Proof. unfold inCompatibilityMode. intros [= _ <-]. reflexivity. Qed.

Lemma getDeferBlockMeta_Ok deferBlock job meta job' :
  getDeferBlockMeta deferBlock job = Ok (meta, job') ->
  meta = deferBlocksMeta job deferBlock /\ job' = job.
Proof. unfold getDeferBlockMeta. intros [= <- <-]. auto. Qed.

(** Break the runs in the context down to what they say about the job. *)
Ltac runs :=
  repeat match goal with
    | H : bind _ _ _ = Ok _ |- _ =>
        let H1 := fresh "Hrun" in apply bind_Ok in H as (? & ? & H1 & H)
    | H : ret _ _ = Ok _ |- _ => apply ret_Ok in H as [? ?]; subst
    | H : throw _ _ = Ok _ |- _ => discriminate H
    | H : throwIf _ _ _ = Ok _ |- _ => apply throwIf_Ok in H as [? ?]; simplify_eq
    | H : asMessage _ _ = Ok _ |- _ => apply asMessage_Ok in H as [? ?]; subst
    | H : rootXref _ = Ok _ |- _ => apply rootXref_Ok in H as [? ?]; subst
    | H : inCompatibilityMode _ = Ok _ |- _ => apply inCompatibilityMode_Ok in H; subst
    | H : getDeferBlockMeta _ _ = Ok _ |- _ =>
        apply getDeferBlockMeta_Ok in H as [? ?]; subst
    | H : allocateXrefId _ = Ok _ |- _ =>
        apply counter_ext_allocate in H as (? & ? & ?); subst
    | H : convertAst _ _ _ _ = Ok _ |- _ => apply convertAst_counter in H
    | H : mapM (fun _ => convertAst _ _ _) _ _ = Ok _ |- _ =>
        apply mapM_convertAst_counter in H
    end.

Ltac counter :=
  repeat first
    [ eassumption
    | apply counter_ext_refl
    | eapply counter_ext_trans; [eassumption|] ].

Lemma convertAstWithInterpolation_counter env value i18nMeta sourceSpan job x job' :
  convertAstWithInterpolation env value i18nMeta sourceSpan job = Ok (x, job') ->
  counter_ext job job'.
Proof.
  unfold convertAstWithInterpolation. intros H.
  destruct value as [ast|text]; [destruct ast|]; runs; counter.
Qed.

Lemma makeListenerHandlerOps_counter env handler handlerSpan job ops job' :
  makeListenerHandlerOps env handler handlerSpan job = Ok (ops, job') ->
  counter_ext job job'.
Proof.
  unfold makeListenerHandlerOps. intros H.
  destruct (Nat.eqb _ 0); runs.
  destruct (List.rev _); runs. counter.
Qed.

Lemma listenerOf_counter env op output job listener job' :
  listenerOf env op output job = Ok (listener, job') -> counter_ext job job'.
Proof.
  unfold listenerOf. intros H. runs.
  eapply makeListenerHandlerOps_counter. eassumption.
Qed.

Lemma createTemplateBinding_counter env xref type name value unit securityContext
    isStructuralTemplateAttribute templateKind i18nMessage sourceSpan job op job' :
  createTemplateBinding env xref type name value unit securityContext
    isStructuralTemplateAttribute templateKind i18nMessage sourceSpan job = Ok (op, job') ->
  counter_ext job job'.
Proof.
  unfold createTemplateBinding. intros H.
  repeat match type of H with
         | (if ?c then _ else _) _ = _ => destruct c
         end; runs; try apply counter_ext_refl.
  eapply convertAstWithInterpolation_counter. eassumption.
Qed.

(** The relation that the leaf ingestors keep: the unit has only grown,
    and only the counter of the job has moved. *)
Lemma leaf_refl (x : ViewCompilationUnit.t * CompilationJob) :
  unit_ext (fst x) (fst x) /\ counter_ext (snd x) (snd x).
Proof. split; [apply unit_ext_refl|apply counter_ext_refl]. Qed.

Lemma leaf_trans (x y z : ViewCompilationUnit.t * CompilationJob) :
  unit_ext (fst x) (fst y) /\ counter_ext (snd x) (snd y) ->
  unit_ext (fst y) (fst z) /\ counter_ext (snd y) (snd z) ->
  unit_ext (fst x) (fst z) /\ counter_ext (snd x) (snd z).
Proof.
  intros [Hu Hj] [Hu' Hj']. split;
    [eapply unit_ext_trans; eassumption|eapply counter_ext_trans; eassumption].
Qed.

(** A loop over a unit whose every step is a leaf step is a leaf step. *)
Lemma forM_leaf {A} (f : ViewCompilationUnit.t -> A -> M ViewCompilationUnit.t) l :
  (forall a u job u' job',
      f u a job = Ok (u', job') -> unit_ext u u' /\ counter_ext job job') ->
  forall u job u' job',
    forM f l u job = Ok (u', job') -> unit_ext u u' /\ counter_ext job job'.
Proof.
  intros Hstep u job u' job' H.
  apply (forM_rel f (fun x y => unit_ext (fst x) (fst y) /\ counter_ext (snd x) (snd y)) l
           leaf_refl leaf_trans) in H; [exact H|].
  apply Forall_forall. intros a _ s j s' j' Hf. apply (Hstep _ _ _ _ _ Hf).
Qed.

Lemma mapM_counter {A B} (f : A -> M B) l :
  (forall a job b job', f a job = Ok (b, job') -> counter_ext job job') ->
  forall job bs job', mapM f l job = Ok (bs, job') -> counter_ext job job'.
Proof.
  intros Hstep job bs job' H.
  apply (mapM_rel f counter_ext (fun _ _ => True) l counter_ext_refl counter_ext_trans)
    in H; [exact (proj1 H)|].
  apply Forall_forall. intros a _ j b j' Hf. split; [eauto|exact I].
Qed.

(** ** The leaf ingestors only append and only take identifiers *)

Ltac unit_steps :=
  repeat first
    [ apply unit_ext_refl
    | eassumption
    | apply unit_ext_push_create
    | apply unit_ext_push_update
    | apply unit_ext_push_create_all
    | apply unit_ext_push_update_all
    | eapply unit_ext_trans; [|solve [ apply unit_ext_push_create
                                    | apply unit_ext_push_update
                                    | apply unit_ext_push_create_all
                                    | apply unit_ext_push_update_all ]] ].

Lemma ingestElementBindings_leaf env unit op element job unit' job' :
  ingestElementBindings env unit op element job = Ok (unit', job') ->
  unit_ext unit unit' /\ counter_ext job job'.
Proof.
  unfold ingestElementBindings. intros H.
  apply bind_Ok in H as (attrBindings & job1 & Hattrs & H).
  apply bind_Ok in H as (inputBindings & job2 & Hinputs & H).
  apply bind_Ok in H as (unit1 & job3 & Houtputs & H).
  cbn [boolean_strictNotEquals_null] in H. runs.
  apply mapM_counter in Hattrs;
    [|intros attr j b j' Hf; runs;
      eapply counter_ext_trans; [eapply convertAstWithInterpolation_counter; eassumption|];
      counter].
  apply mapM_counter in Hinputs;
    [|intros input j b j' Hf; runs;
      eapply counter_ext_trans; [eapply convertAstWithInterpolation_counter; eassumption|];
      counter].
  apply forM_leaf in Houtputs as [Hunit Hjob];
    [|intros output u j u' j' Hf; destruct (animationWithoutPhase output); runs;
      split; [apply unit_ext_push_create|eapply listenerOf_counter; eassumption]].
  split; [|counter].
  eapply unit_ext_trans; [|apply unit_ext_push_create].
  eapply unit_ext_trans; [|exact Hunit].
  eapply unit_ext_trans; [apply unit_ext_push_create_all|apply unit_ext_push_update_all].
Qed.

Lemma ingestTemplateBindings_leaf env unit op template templateKind job unit' job' :
  ingestTemplateBindings env unit op template templateKind job = Ok (unit', job') ->
  unit_ext unit unit' /\ counter_ext job job'.
Proof.
  unfold ingestTemplateBindings. intros H.
  apply bind_Ok in H as (templateAttrBindings & job1 & HtemplateAttrs & H).
  apply bind_Ok in H as (attrBindings & job2 & Hattrs & H).
  apply bind_Ok in H as (inputBindings & job3 & Hinputs & H).
  apply bind_Ok in H as (unit1 & job4 & Houtputs & H).
  cbn [boolean_strictNotEquals_null] in H. runs.
  apply mapM_counter in HtemplateAttrs;
    [|intros [attr|attr] j b j' Hf; runs;
      eapply createTemplateBinding_counter; eassumption].
  apply mapM_counter in Hattrs;
    [|intros attr j b j' Hf; runs; eapply createTemplateBinding_counter; eassumption].
  apply mapM_counter in Hinputs;
    [|intros input j b j' Hf; runs; eapply createTemplateBinding_counter; eassumption].
  apply forM_leaf in Houtputs as [Hunit Hjob].
  - split; [|counter].
    eapply unit_ext_trans; [|apply unit_ext_push_create].
    eapply unit_ext_trans; [|exact Hunit].
    eapply unit_ext_trans; [apply unit_ext_push_create_all|apply unit_ext_push_update_all].
  - intros output u j u' j' Hf.
    destruct (animationWithoutPhase output); [discriminate Hf|].
    apply bind_Ok in Hf as (u1 & j1 & Hlistener & Hf).
    assert (Hfirst : unit_ext u u1 /\ counter_ext j j1).
    { destruct (TemplateKind_is templateKind TemplateKind.NgTemplate).
      - apply bind_Ok in Hlistener as (listener & j2 & Hlistener & Hret).
        apply ret_Ok in Hret as [-> ->].
        split; [apply unit_ext_push_create|eapply listenerOf_counter; eassumption].
      - apply ret_Ok in Hlistener as [-> ->].
        split; [apply unit_ext_refl|apply counter_ext_refl]. }
    destruct Hfirst as [Hu Hj].
    destruct (_ && _); apply ret_Ok in Hf as [-> ->]; split; try exact Hj; try exact Hu.
    eapply unit_ext_trans; [exact Hu|apply unit_ext_push_create].
Qed.

Lemma ingestControlFlowInsertionPoint_leaf env unit xref children job unit' tagName job' :
  ingestControlFlowInsertionPoint env unit xref children job = Ok ((unit', tagName), job') ->
  unit_ext unit unit' /\ job' = job.
Proof.
  intros H. destruct (findRoot children None) as [[root|]|] eqn:Hroot.
  - destruct (ingestControlFlowInsertionPoint_root _ _ _ _ _ _ _ _ _ Hroot H)
      as (-> & Hcreate & [ops Hupdate] & _).
    split; [|reflexivity].
    unfold ingestControlFlowInsertionPoint in H. rewrite Hroot in H.
    apply bind_Ok in H as (unit1 & job1 & Hcopy & H). apply ret_Ok in H as [[= <- _] _].
    apply forM_leaf in Hcopy as [Hunit _]; [exact Hunit|].
    intros attr u j u' j' Hf. runs. split; [apply unit_ext_push_update|counter].
  - rewrite (ingestControlFlowInsertionPoint_no_root env unit xref children job) in H
      by (right; exact Hroot).
    injection H as <- _ <-. split; [apply unit_ext_refl|reflexivity].
  - rewrite (ingestControlFlowInsertionPoint_no_root env unit xref children job) in H
      by (left; exact Hroot).
    injection H as <- _ <-. split; [apply unit_ext_refl|reflexivity].
Qed.

Lemma ingestContent_leaf env unit content job unit' job' :
  ingestContent env unit content job = Ok (unit', job') ->
  unit_ext unit unit' /\ counter_ext job job'.
Proof.
  unfold ingestContent. intros H.
  apply bind_Ok in H as (? & job0 & Hcheck & H).
  assert (job0 = job) as ->.
  { destruct (t.Content.i18n content); runs; reflexivity. }
  apply bind_Ok in H as (xref & job1 & Hxref & H).
  apply bind_Ok in H as (unit1 & job2 & Hattrs & H). runs.
  apply forM_leaf in Hattrs as [Hunit Hjob];
    [|intros attr u j u' j' Hf; runs; split; [apply unit_ext_push_update|counter]].
  split; [eapply unit_ext_trans; [exact Hunit|apply unit_ext_push_create]|counter].
Qed.

Lemma ingestText_leaf unit text icuPlaceholder job unit' job' :
  ingestText unit text icuPlaceholder job = Ok (unit', job') ->
  unit_ext unit unit' /\ counter_ext job job'.
Proof.
  unfold ingestText. intros H. runs. split; [apply unit_ext_push_create|counter].
Qed.

Lemma ingestBoundText_leaf env unit text icuPlaceholder job unit' job' :
  ingestBoundText env unit text icuPlaceholder job = Ok (unit', job') ->
  unit_ext unit unit' /\ counter_ext job job'.
Proof.
  unfold ingestBoundText. intros H.
  destruct (astOf (t.BoundText.value text)); try discriminate H.
  apply bind_Ok in H as (? & job0 & Hcheck & H).
  assert (job0 = job) as ->.
  { destruct (t.BoundText.i18n text); runs; reflexivity. }
  destruct (_ && _); runs.
  split; [|counter].
  eapply unit_ext_trans; [apply unit_ext_push_create|apply unit_ext_push_update].
Qed.

Lemma ingestIcu_leaf env unit icu job unit' job' :
  ingestIcu env unit icu job = Ok (unit', job') ->
  unit_ext unit unit' /\ counter_ext job job'.
Proof.
  unfold ingestIcu. intros H.
  destruct (t.Icu.i18n icu) as [[message|]|]; try discriminate H.
  destruct (isSingleI18nIcu env message); try discriminate H.
  apply bind_Ok in H as (xref & job1 & Hxref & H).
  apply bind_Ok in H as (unit1 & job2 & Htexts & H). runs.
  apply forM_leaf in Htexts as [Hunit Hjob];
    [|intros [placeholder [text|text]] u j u' j' Hf; cbn [snd fst] in Hf;
      [eapply ingestText_leaf|eapply ingestBoundText_leaf]; eassumption].
  split; [|counter].
  eapply unit_ext_trans; [apply unit_ext_push_create|].
  eapply unit_ext_trans; [exact Hunit|apply unit_ext_push_create].
Qed.

(** ** Steps of the node ingestion *)

Lemma registered_ext u u' j j' :
  ViewCompilationUnit.xref u' = ViewCompilationUnit.xref u ->
  job_ext j j' -> registered u j -> registered u' j'.
Proof.
  intros Hx (_ & Hle & _ & Hkeep) [Hlt Hreg]. rewrite <- Hx in *.
  split; [lia|auto].
Qed.

Lemma ingest_step_refl u j : ingest_step u j u j.
Proof. split; [apply unit_ext_refl|]. split; [apply job_ext_refl|auto]. Qed.

Lemma ingest_step_trans u1 j1 u2 j2 u3 j3 :
  ingest_step u1 j1 u2 j2 -> ingest_step u2 j2 u3 j3 -> ingest_step u1 j1 u3 j3.
Proof.
  intros (Hu & Hj & Hwf) (Hu' & Hj' & Hwf').
  split; [eapply unit_ext_trans; eassumption|].
  split; [eapply job_ext_trans; eassumption|].
  intros Hreg Hviews. apply Hwf'; [|auto].
  eapply registered_ext; [exact (proj1 Hu)|exact Hj|exact Hreg].
Qed.

Lemma ingest_step_leaf u j u' j' :
  unit_ext u u' /\ counter_ext j j' -> ingest_step u j u' j'.
Proof.
  intros [Hu Hj]. split; [exact Hu|]. split; [apply counter_ext_job_ext, Hj|].
  intros _. apply counter_ext_views_wf, Hj.
Qed.

(** A step on another unit, seen from a unit that it does not touch. *)
Lemma ingest_step_unit u u' j j' :
  unit_ext u u' -> ingest_step u j u j' -> ingest_step u j u' j'.
Proof. intros Hu (_ & Hj & Hwf). split; [exact Hu|]. split; assumption. Qed.

Lemma allocateView_Ok parent j view j' :
  allocateView parent j = Ok (view, j') ->
  view = ViewCompilationUnit.mk (nextXrefId j) (Some parent) [] [] ∅ []
  /\ j' = set_views (set_nextXrefId j (S (nextXrefId j)))
            (<[nextXrefId j := view]> (views j)).
Proof.
  unfold allocateView. intros H.
  apply bind_Ok in H as (xref & j1 & Hxref & H).
  unfold allocateXrefId in Hxref. injection Hxref as <- <-.
  apply bind_Ok in H as ([] & j2 & Hstore & H).
  unfold storeView in Hstore. injection Hstore as <-.
  apply ret_Ok in H as [-> ->]. split; reflexivity.
Qed.

(** The life of a child view: allocated under a fresh identifier with the
    unit as its parent, filled by a step (before and after which only the
    counter of the job moves and only fields other than identity and
    parent are set), and written back to the table. *)
Lemma child_view_step unit j c0 j1 j1' c1 c2 j2 j2' c3 j3 :
  allocateView (ViewCompilationUnit.xref unit) j = Ok (c0, j1) ->
  counter_ext j1 j1' ->
  ViewCompilationUnit.xref c1 = ViewCompilationUnit.xref c0 ->
  ViewCompilationUnit.parent c1 = ViewCompilationUnit.parent c0 ->
  ingest_step c1 j1' c2 j2 ->
  counter_ext j2 j2' ->
  ViewCompilationUnit.xref c3 = ViewCompilationUnit.xref c2 ->
  ViewCompilationUnit.parent c3 = ViewCompilationUnit.parent c2 ->
  storeView c3 j2' = Ok (tt, j3) ->
  ingest_step unit j unit j3.
Proof.
  intros Halloc Hpre Hx1 Hp1 (Hunit & Hjob & Hwf) Hpost Hx3 Hp3 Hstore.
  apply allocateView_Ok in Halloc as [-> ->].
  unfold storeView in Hstore. injection Hstore as <-.
  destruct Hunit as (Hx2 & Hp2 & _).
  cbn [ViewCompilationUnit.xref ViewCompilationUnit.parent] in Hx1, Hp1.
  assert (Hkey : ViewCompilationUnit.xref c3 = nextXrefId j) by congruence.
  assert (Hparent : ViewCompilationUnit.parent c3 = Some (ViewCompilationUnit.xref unit))
    by congruence.
  destruct Hpre as (n1 & -> & Hle1). destruct Hpost as (n2 & -> & Hle2).
  destruct Hjob as (Hstatic & Hle & Hold & Hkeep).
  destruct j as [cn cm rp ie dm next root vs].
  cbn [set_views set_nextXrefId nextXrefId views static componentName compatibility
       relativeContextFilePath i18nUseExternalIds deferBlocksMeta root_xref] in *.
  destruct j2 as [cn2 cm2 rp2 ie2 dm2 next2 root2 vs2].
  cbn [set_views set_nextXrefId nextXrefId views static componentName compatibility
       relativeContextFilePath i18nUseExternalIds deferBlocksMeta root_xref] in *.
  injection Hstatic as -> -> -> -> -> ->.
  split; [apply unit_ext_refl|]. split.
  - unfold job_ext. cbn. split; [reflexivity|]. split; [lia|]. split.
    + intros k Hk. rewrite Hkey, lookup_insert_ne by lia.
      rewrite Hold by lia. apply lookup_insert_ne. lia.
    + intros k Hsome. destruct (decide (k = ViewCompilationUnit.xref c3)) as [->|Hne].
      * rewrite lookup_insert_eq. eauto.
      * rewrite lookup_insert_ne by congruence. apply Hkeep.
        destruct (decide (k = next)) as [->|Hne'];
          [rewrite lookup_insert_eq; eauto|rewrite lookup_insert_ne by congruence; exact Hsome].
  - intros [Hlt Hreg] Hviews. cbn in Hlt, Hreg.
    assert (Hwf1 : views_wf (mkJob cn cm rp ie dm n1 root
                     (<[next := ViewCompilationUnit.mk next
                                  (Some (ViewCompilationUnit.xref unit)) [] [] ∅ []]> vs))).
    { intros k v Hv. cbn in Hv |- *.
      destruct (decide (k = next)) as [->|Hne].
      - rewrite lookup_insert_eq in Hv. injection Hv as <-. cbn.
        split; [reflexivity|]. split; [lia|]. split; [exact Hlt|].
        rewrite lookup_insert_ne by lia. exact Hreg.
      - rewrite lookup_insert_ne in Hv by congruence.
        destruct (Hviews k v Hv) as (Hxv & Hkv & Hpv). cbn in Hkv, Hpv.
        split; [exact Hxv|]. split; [lia|].
        destruct (ViewCompilationUnit.parent v) as [p|]; [|exact Hpv].
        destruct Hpv as [Hpk Hpsome]. split; [exact Hpk|].
        destruct (decide (p = next)) as [->|Hne'];
          [rewrite lookup_insert_eq; eauto|rewrite lookup_insert_ne by congruence; exact Hpsome]. }
    assert (Hreg1 : registered c1 (mkJob cn cm rp ie dm n1 root
                      (<[next := ViewCompilationUnit.mk next
                                   (Some (ViewCompilationUnit.xref unit)) [] [] ∅ []]> vs))).
    { split; cbn; rewrite Hx1; [lia|]. rewrite lookup_insert_eq. eauto. }
    specialize (Hwf Hreg1 Hwf1).
    intros k v Hv. cbn in Hv |- *.
    destruct (decide (k = ViewCompilationUnit.xref c3)) as [->|Hne].
    + rewrite lookup_insert_eq in Hv. injection Hv as <-.
      split; [reflexivity|]. split; [lia|]. rewrite Hparent.
      split; [lia|]. rewrite lookup_insert_ne by lia.
      apply Hkeep. cbn. rewrite lookup_insert_ne by lia. exact Hreg.
    + rewrite lookup_insert_ne in Hv by congruence.
      destruct (Hwf k v Hv) as (Hxv & Hkv & Hpv). cbn in Hkv, Hpv.
      split; [exact Hxv|]. split; [lia|].
      destruct (ViewCompilationUnit.parent v) as [p|]; [|exact Hpv].
      destruct Hpv as [Hpk Hpsome]. split; [exact Hpk|].
      destruct (decide (p = ViewCompilationUnit.xref c3)) as [->|Hne'];
        [rewrite lookup_insert_eq; eauto|rewrite lookup_insert_ne by congruence; exact Hpsome].
Qed.

(** ** Induction on template trees *)

Lemma Node_deep_ind (P : t.Node -> Prop) :
  (forall element, Forall P (t.Element.children element) -> P (t.Element element)) ->
  (forall tmpl, Forall P (t.Template.children tmpl) -> P (t.Template tmpl)) ->
  (forall content, P (t.Content content)) ->
  (forall text, P (t.Text text)) ->
  (forall text, P (t.BoundText text)) ->
  (forall ifBlock,
      Forall (fun branch => Forall P (t.IfBlockBranch.children branch))
        (t.IfBlock.branches ifBlock) ->
      P (t.IfBlock ifBlock)) ->
  (forall switchBlock,
      Forall (fun case => Forall P (t.SwitchBlockCase.children case))
        (t.SwitchBlock.cases switchBlock) ->
      P (t.SwitchBlock switchBlock)) ->
  (forall deferBlock,
      Forall P (t.DeferredBlock.children deferBlock) ->
      match t.DeferredBlock.loading deferBlock with
      | Some block => Forall P (t.DeferredBlockLoading.children block)
      | None => True
      end ->
      match t.DeferredBlock.placeholder deferBlock with
      | Some block => Forall P (t.DeferredBlockPlaceholder.children block)
      | None => True
      end ->
      match t.DeferredBlock.error deferBlock with
      | Some block => Forall P (t.DeferredBlockError.children block)
      | None => True
      end ->
      P (t.DeferredBlock deferBlock)) ->
  (forall icu, P (t.Icu icu)) ->
  (forall forBlock,
      Forall P (t.ForLoopBlock.children forBlock) ->
      match t.ForLoopBlock.empty forBlock with
      | Some block => Forall P (t.ForLoopBlockEmpty.children block)
      | None => True
      end ->
      P (t.ForLoopBlock forBlock)) ->
  (forall value sourceSpan, P (t.Comment value sourceSpan)) ->
  (forall name sourceSpan, P (t.UnknownBlock name sourceSpan)) ->
  forall node, P node.
Proof.
  intros HElement HTemplate HContent HText HBoundText HIfBlock HSwitchBlock HDeferredBlock
    HIcu HForLoopBlock HComment HUnknownBlock.
  fix IH 1.
  assert (Hall : forall l, Forall P l).
  { fix IHl 1. intros [|a l]; [apply List.Forall_nil|apply List.Forall_cons; [apply IH|apply IHl]]. }
  intros [element|tmpl|content|text|text|ifBlock|switchBlock|deferBlock|icu|forBlock
         |value sourceSpan|name sourceSpan].
  - apply HElement. destruct element. apply Hall.
  - apply HTemplate. destruct tmpl. apply Hall.
  - apply HContent.
  - apply HText.
  - apply HBoundText.
  - apply HIfBlock. destruct ifBlock as [branches ?]. cbn.
    revert branches. fix IHb 1.
    intros [|branch branches]; [apply List.Forall_nil|apply List.Forall_cons; [|apply IHb]].
    destruct branch. apply Hall.
  - apply HSwitchBlock. destruct switchBlock as [? cases ? ?]. cbn.
    revert cases. fix IHc 1.
    intros [|case cases]; [apply List.Forall_nil|apply List.Forall_cons; [|apply IHc]].
    destruct case. apply Hall.
  - destruct deferBlock as [children ? ? placeholder loading error ? ?].
    apply HDeferredBlock; cbn.
    + apply Hall.
    + destruct loading as [[]|]; [apply Hall|exact I].
    + destruct placeholder as [[]|]; [apply Hall|exact I].
    + destruct error as [[]|]; [apply Hall|exact I].
  - apply HIcu.
  - destruct forBlock as [? ? ? ? children empty ? ? ?].
    apply HForLoopBlock; cbn.
    + apply Hall.
    + destruct empty as [[]|]; [apply Hall|exact I].
  - apply HComment.
  - apply HUnknownBlock.
Qed.

(** ** The node ingestors are steps *)

Lemma unit_ext_updateCreateAt u0 u idx op :
  unit_ext u0 u -> List.length (ViewCompilationUnit.create u0) <= idx ->
  unit_ext u0 (updateCreateAt u idx op).
Proof.
  intros (Hx & Hp & Hc & Ha & [ops Hcreate] & Hupdate) Hidx.
  destruct u as [x p create update cv al]. cbn in *. subst create.
  repeat (split; [assumption|]). split; [|assumption].
  exists (<[idx - List.length (ViewCompilationUnit.create u0) := op]> ops).
  apply insert_app_r_alt. exact Hidx.
Qed.

Lemma unit_ext_insertBeforeLast u0 u op target :
  unit_ext u0 u ->
  unit_ext u0
    (Unit.set_create (Unit.push_create u target)
       (insertBeforeLast op (ViewCompilationUnit.create (Unit.push_create u target)))).
Proof.
  intros (Hx & Hp & Hc & Ha & [ops Hcreate] & Hupdate).
  destruct u as [x p create update cv al]. cbn in *. subst create.
  repeat (split; [assumption|]). split; [|assumption].
  exists (ops ++ [op; target]). rewrite insertBeforeLast_app, app_assoc. reflexivity.
Qed.

Lemma ingestElementWith_step env ing unit element job unit' job' :
  (forall u j u' j',
      ing u (t.Element.children element) j = Ok (u', j') -> ingest_step u j u' j') ->
  ingestElementWith env ing unit element job = Ok (unit', job') ->
  ingest_step unit job unit' job'.
Proof.
  intros Hing H. unfold ingestElementWith in H.
  apply bind_Ok in H as (? & j0 & Hcheck & H). apply throwIf_Ok in Hcheck as [_ ?].
  simplify_eq.
  apply bind_Ok in H as (id & j1 & Hid & H).
  apply counter_ext_allocate in Hid as (-> & _ & Hj1).
  destruct (splitNsName env (t.Element.name element)) as [namespaceKey elementName].
  apply bind_Ok in H as (u1 & j2 & Hbindings & H).
  apply ingestElementBindings_leaf in Hbindings as [Hu1 Hj2].
  apply bind_Ok in H as ([u2 i18nBlockId] & j3 & Hstart & H).
  apply bind_Ok in H as (u3 & j4 & Hchildren & H).
  apply Hing in Hchildren.
  assert (Hbefore : unit_ext unit u2 /\ counter_ext job j3).
  { assert (Hrefs : unit_ext unit
                      (updateCreateAt u1 (List.length (ViewCompilationUnit.create unit))
                         (ingestReferences
                            (ElementStartOp elementName (nextXrefId job) new_SlotHandle
                               (namespaceForKey env namespaceKey)
                               (i18n_as i18n.instanceof_TagPlaceholder (t.Element.i18n element))
                               [] (t.Element.startSourceSpan element)
                               (t.Element.sourceSpan element))
                            (t.Element.references element)))).
    { apply unit_ext_updateCreateAt; [|lia].
      eapply unit_ext_trans; [apply unit_ext_push_create|exact Hu1]. }
    destruct (t.Element.i18n element) as [[message|placeholder]|].
    - apply bind_Ok in Hstart as (i18nBlockId' & j3' & Hblock & Hstart).
      apply counter_ext_allocate in Hblock as (-> & _ & Hj3).
      apply ret_Ok in Hstart as [[= -> ->] ->].
      split; [eapply unit_ext_trans; [exact Hrefs|apply unit_ext_push_create]|counter].
    - apply ret_Ok in Hstart as [[= -> ->] ->]. split; [exact Hrefs|counter].
    - apply ret_Ok in Hstart as [[= -> ->] ->]. split; [exact Hrefs|counter]. }
  apply ingest_step_leaf in Hbefore.
  eapply ingest_step_trans; [exact Hbefore|].
  eapply ingest_step_trans; [exact Hchildren|].
  apply ingest_step_leaf.
  destruct i18nBlockId as [i18nBlockId|]; apply ret_Ok in H as [-> ->];
    (split; [|apply counter_ext_refl]).
  - apply unit_ext_insertBeforeLast, unit_ext_refl.
  - apply unit_ext_push_create.
Qed.

Lemma fold_set_contextVariable_identity {A} (name value : A -> string) l view :
  let view' := fold_left
                 (fun view variable => Unit.set_contextVariable view (name variable)
                                         (value variable)) l view in
  ViewCompilationUnit.xref view' = ViewCompilationUnit.xref view
  /\ ViewCompilationUnit.parent view' = ViewCompilationUnit.parent view.
Proof.
  revert view. induction l as [|a l IH]; intros view; cbn; [auto|].
  destruct (IH (Unit.set_contextVariable view (name a) (value a))) as [-> ->]. auto.
Qed.

Lemma storeView_unit view job r job' : storeView view job = Ok (r, job') -> r = tt.
Proof. destruct r. reflexivity. Qed.

Lemma ingestTemplateWith_step env ing unit tmpl job unit' job' :
  (forall u j u' j',
      ing u (t.Template.children tmpl) j = Ok (u', j') -> ingest_step u j u' j') ->
  ingestTemplateWith env ing unit tmpl job = Ok (unit', job') ->
  ingest_step unit job unit' job'.
Proof.
  intros Hing H. unfold ingestTemplateWith in H.
  apply bind_Ok in H as (? & j0 & Hcheck & H). apply throwIf_Ok in Hcheck as [_ ?].
  simplify_eq.
  apply bind_Ok in H as (c0 & j1 & Halloc & H).
  destruct (if truthy_string (t.Template.tagName tmpl) then _ else _)
    as [namespacePrefix tagNameWithoutNamespace].
  apply bind_Ok in H as (u1 & j2 & Hbindings & H).
  apply ingestTemplateBindings_leaf in Hbindings as [Hu1 Hj2].
  apply bind_Ok in H as (c2 & j3 & Hchildren & H).
  apply Hing in Hchildren.
  apply bind_Ok in H as (c3 & j4 & Hi18n & H).
  apply bind_Ok in H as ([] & j5 & Hstore & H).
  apply ret_Ok in H as [-> ->].
  apply ingest_step_unit.
  { apply unit_ext_updateCreateAt; [|lia].
    eapply unit_ext_trans; [apply unit_ext_push_create|exact Hu1]. }
  pose proof (fold_set_contextVariable_identity TemplateVariable.name
                (fun variable =>
                   if negb (String.eqb (TemplateVariable.value variable) "")
                   then TemplateVariable.value variable else "$implicit")
                (t.Template.variables tmpl) c2) as [Hx Hp].
  cbv zeta in Hx, Hp.
  assert (Hlast : counter_ext j3 j4
                  /\ ViewCompilationUnit.xref c3 = ViewCompilationUnit.xref c2
                  /\ ViewCompilationUnit.parent c3 = ViewCompilationUnit.parent c2).
  { destruct (isPlainTemplate _ _);
      [destruct (t.Template.i18n tmpl) as [[message|placeholder]|]|];
      try (apply ret_Ok in Hi18n as [-> ->]; split; [apply counter_ext_refl|auto]).
    apply bind_Ok in Hi18n as (id & j3' & Hid & Hi18n).
    apply counter_ext_allocate in Hid as (-> & _ & Hj3).
    apply ret_Ok in Hi18n as [-> ->]. split; [exact Hj3|auto]. }
  destruct Hlast as (Hj4 & Hx3 & Hp3).
  eapply (child_view_step unit job c0 j1 j2 c0 c2 j3 j4 c3 j5); eauto.
Qed.

Lemma ingestIfBranch_step env ing acc ifCase job acc' job' :
  (forall u j u' j',
      ing u (t.IfBlockBranch.children ifCase) j = Ok (u', j') -> ingest_step u j u' j') ->
  ingestIfBranch env ing acc ifCase job = Ok (acc', job') ->
  ingest_step (BranchLoop.unit acc) job (BranchLoop.unit acc') job'.
Proof.
  intros Hing H. unfold ingestIfBranch in H.
  apply bind_Ok in H as (c0 & j1 & Halloc & H).
  apply bind_Ok in H as ([u1 tagName] & j1' & Hpoint & H).
  assert (Hu1 : unit_ext (BranchLoop.unit acc) u1 /\ j1' = j1).
  { destruct (Nat.eqb (BranchLoop.i acc) 0).
    - eapply ingestControlFlowInsertionPoint_leaf. exact Hpoint.
    - apply ret_Ok in Hpoint as [[= -> ->] ->]. split; [apply unit_ext_refl|reflexivity]. }
  destruct Hu1 as [Hu1 ->].
  apply bind_Ok in H as (? & j0 & Hcheck & H). apply throwIf_Ok in Hcheck as [_ ?].
  simplify_eq.
  destruct (BranchLoop.firstXref acc) as [first|];
    (apply bind_Ok in H as (caseExpr & j2 & Hexpr & H);
     assert (Hj2 : counter_ext j1 j2)
       by (destruct (t.IfBlockBranch.expression ifCase); runs; counter);
     apply bind_Ok in H as (c2 & j3 & Hchildren & H);
     apply Hing in Hchildren;
     apply bind_Ok in H as ([] & j4 & Hstore & H);
     apply ret_Ok in H as [-> ->]; cbn [BranchLoop.unit];
     apply ingest_step_unit;
       [eapply unit_ext_trans; [exact Hu1|apply unit_ext_push_create]|];
     eapply (child_view_step _ job c0 j1 j2 _ c2 j3 j3 c2 j4);
       [exact Halloc|exact Hj2| | |exact Hchildren|apply counter_ext_refl
       |reflexivity|reflexivity|exact Hstore];
     destruct (t.IfBlockBranch.expressionAlias ifCase); reflexivity).
Qed.

(** A loop over branches each of whose steps is a step on the unit that
    the loop carries is such a step. *)
Lemma forM_branch_step {A} (f : BranchLoop.t -> A -> M BranchLoop.t) l :
  Forall (fun a => forall acc job acc' job',
              f acc a job = Ok (acc', job') ->
              ingest_step (BranchLoop.unit acc) job (BranchLoop.unit acc') job') l ->
  forall acc job acc' job',
    forM f l acc job = Ok (acc', job') ->
    ingest_step (BranchLoop.unit acc) job (BranchLoop.unit acc') job'.
Proof.
  intros Hall acc job acc' job' H.
  apply (forM_rel f (fun x y => ingest_step (BranchLoop.unit (fst x)) (snd x)
                                  (BranchLoop.unit (fst y)) (snd y)) l) in H.
  - exact H.
  - intros x. apply ingest_step_refl.
  - intros x y z. apply ingest_step_trans.
  - exact Hall.
Qed.

Lemma ingestIfBlockWith_step env ing unit ifBlock job unit' job' :
  Forall (fun branch => forall u j u' j',
              ing u (t.IfBlockBranch.children branch) j = Ok (u', j') ->
              ingest_step u j u' j') (t.IfBlock.branches ifBlock) ->
  ingestIfBlockWith env ing unit ifBlock job = Ok (unit', job') ->
  ingest_step unit job unit' job'.
Proof.
  intros Hing H. unfold ingestIfBlockWith in H.
  apply bind_Ok in H as (acc & j1 & Hbranches & H). apply ret_Ok in H as [-> ->].
  apply forM_branch_step in Hbranches.
  - eapply ingest_step_trans; [exact Hbranches|].
    apply ingest_step_leaf. split; [apply unit_ext_push_update|apply counter_ext_refl].
  - eapply List.Forall_impl; [|exact Hing]. intros branch Hbranch acc0 j acc' j'.
    apply ingestIfBranch_step. exact Hbranch.
Qed.

Lemma ingestSwitchCase_step env ing startSourceSpan acc switchCase job acc' job' :
  (forall u j u' j',
      ing u (t.SwitchBlockCase.children switchCase) j = Ok (u', j') ->
      ingest_step u j u' j') ->
  ingestSwitchCase env ing startSourceSpan acc switchCase job = Ok (acc', job') ->
  ingest_step (BranchLoop.unit acc) job (BranchLoop.unit acc') job'.
Proof.
  intros Hing H. unfold ingestSwitchCase in H.
  apply bind_Ok in H as (c0 & j1 & Halloc & H).
  apply bind_Ok in H as (? & j0 & Hcheck & H). apply throwIf_Ok in Hcheck as [_ ?].
  simplify_eq.
  destruct (BranchLoop.firstXref acc) as [first|];
    (apply bind_Ok in H as (caseExpr & j2 & Hexpr & H);
     assert (Hj2 : counter_ext j1 j2)
       by (destruct (t.SwitchBlockCase.expression switchCase); runs; counter);
     apply bind_Ok in H as (c2 & j3 & Hchildren & H);
     apply Hing in Hchildren;
     apply bind_Ok in H as ([] & j4 & Hstore & H);
     apply ret_Ok in H as [-> ->]; cbn [BranchLoop.unit];
     apply ingest_step_unit; [apply unit_ext_push_create|];
     eapply (child_view_step _ job c0 j1 j2 c0 c2 j3 j3 c2 j4);
       [exact Halloc|exact Hj2|reflexivity|reflexivity|exact Hchildren
       |apply counter_ext_refl|reflexivity|reflexivity|exact Hstore]).
Qed.

Lemma ingestSwitchBlockWith_step env ing unit switchBlock job unit' job' :
  Forall (fun case => forall u j u' j',
              ing u (t.SwitchBlockCase.children case) j = Ok (u', j') ->
              ingest_step u j u' j') (t.SwitchBlock.cases switchBlock) ->
  ingestSwitchBlockWith env ing unit switchBlock job = Ok (unit', job') ->
  ingest_step unit job unit' job'.
Proof.
  intros Hing H. unfold ingestSwitchBlockWith in H.
  destruct (Nat.eqb _ 0).
  { apply ret_Ok in H as [-> ->]. apply ingest_step_refl. }
  apply bind_Ok in H as (acc & j1 & Hcases & H).
  apply bind_Ok in H as (test & j2 & Htest & H). apply convertAst_counter in Htest.
  apply ret_Ok in H as [-> ->].
  apply forM_branch_step in Hcases.
  - eapply ingest_step_trans; [exact Hcases|].
    apply ingest_step_leaf. split; [apply unit_ext_push_update|exact Htest].
  - eapply List.Forall_impl; [|exact Hing]. intros case Hcase acc0 j acc' j'.
    apply ingestSwitchCase_step. exact Hcase.
Qed.

Lemma ingestDeferViewWith_step ing unit suffix i18nMeta block job unit' op job' :
  match block with
  | Some (children, _) =>
      forall u j u' j', ing u children j = Ok (u', j') -> ingest_step u j u' j'
  | None => True
  end ->
  ingestDeferViewWith ing unit suffix i18nMeta block job = Ok ((unit', op), job') ->
  ingest_step unit job unit' job'.
Proof.
  intros Hing H. unfold ingestDeferViewWith in H.
  apply bind_Ok in H as (? & j0 & Hcheck & H). apply throwIf_Ok in Hcheck as [_ ?].
  simplify_eq.
  destruct block as [[children sourceSpan]|].
  - apply bind_Ok in H as (c0 & j1 & Halloc & H).
    apply bind_Ok in H as (c2 & j2 & Hchildren & H). apply Hing in Hchildren.
    apply bind_Ok in H as ([] & j3 & Hstore & H).
    apply ret_Ok in H as [[= -> ->] ->].
    apply ingest_step_unit; [apply unit_ext_push_create|].
    eapply (child_view_step _ job c0 j1 j1 c0 c2 j2 j2 c2 j3);
      [exact Halloc|apply counter_ext_refl|reflexivity|reflexivity|exact Hchildren
      |apply counter_ext_refl|reflexivity|reflexivity|exact Hstore].
  - apply ret_Ok in H as [[= -> ->] ->]. apply ingest_step_refl.
Qed.

Lemma ingestDeferTriggers_counter env deferXref acc triggers job acc' job' :
  ingestDeferTriggers env deferXref acc triggers job = Ok (acc', job') ->
  counter_ext job job'.
Proof.
  unfold ingestDeferTriggers. intros H.
  apply bind_Ok in H as (deferWhenOps & j1 & Hwhen & H). apply ret_Ok in H as [_ ->].
  destruct (t.DeferredBlockTriggers.when triggers) as [when|];
    [destruct (e.instanceof_Interpolation _)|]; runs; counter.
Qed.

Lemma ingestDeferBlockWith_step env ing unit deferBlock job unit' job' :
  (forall u j u' j',
      ing u (t.DeferredBlock.children deferBlock) j = Ok (u', j') ->
      ingest_step u j u' j') ->
  match t.DeferredBlock.loading deferBlock with
  | Some block =>
      forall u j u' j',
        ing u (t.DeferredBlockLoading.children block) j = Ok (u', j') ->
        ingest_step u j u' j'
  | None => True
  end ->
  match t.DeferredBlock.placeholder deferBlock with
  | Some block =>
      forall u j u' j',
        ing u (t.DeferredBlockPlaceholder.children block) j = Ok (u', j') ->
        ingest_step u j u' j'
  | None => True
  end ->
  match t.DeferredBlock.error deferBlock with
  | Some block =>
      forall u j u' j',
        ing u (t.DeferredBlockError.children block) j = Ok (u', j') ->
        ingest_step u j u' j'
  | None => True
  end ->
  ingestDeferBlockWith env ing unit deferBlock job = Ok (unit', job') ->
  ingest_step unit job unit' job'.
Proof.
  intros Hmain Hloading Hplaceholder Herror H. unfold ingestDeferBlockWith in H.
  apply bind_Ok in H as (blockMeta & j0 & Hmeta & H).
  apply getDeferBlockMeta_Ok in Hmeta as [-> ->].
  destruct (deferBlocksMeta job deferBlock) as [blockMeta|]; [|discriminate H].
  apply bind_Ok in H as ([u1 main] & j1 & Hview1 & H).
  apply ingestDeferViewWith_step in Hview1; [|exact Hmain].
  apply bind_Ok in H as ([u2 loading] & j2 & Hview2 & H).
  assert (Hstep2 : ingest_step u1 j1 u2 j2).
  { destruct (t.DeferredBlock.loading deferBlock);
      (eapply ingestDeferViewWith_step; [|exact Hview2]); [exact Hloading|exact I]. }
  apply bind_Ok in H as ([u3 placeholder] & j3 & Hview3 & H).
  assert (Hstep3 : ingest_step u2 j2 u3 j3).
  { destruct (t.DeferredBlock.placeholder deferBlock);
      (eapply ingestDeferViewWith_step; [|exact Hview3]); [exact Hplaceholder|exact I]. }
  apply bind_Ok in H as ([u4 error] & j4 & Hview4 & H).
  assert (Hstep4 : ingest_step u3 j3 u4 j4).
  { destruct (t.DeferredBlock.error deferBlock);
      (eapply ingestDeferViewWith_step; [|exact Hview4]); [exact Herror|exact I]. }
  destruct main as [main|]; [|discriminate H].
  apply bind_Ok in H as (deferXref & j5 & Hxref & H).
  apply counter_ext_allocate in Hxref as (-> & _ & Hj5).
  apply bind_Ok in H as (acc & j6 & Htriggers & H).
  apply ret_Ok in H as [-> ->].
  assert (Hj6 : counter_ext j5 j6).
  { apply (forM_rel _ (fun x y => counter_ext (snd x) (snd y))) in Htriggers.
    - exact Htriggers.
    - intros x. apply counter_ext_refl.
    - intros x y z. apply counter_ext_trans.
    - apply Forall_forall. intros triggers _ s j s' j'.
      apply ingestDeferTriggers_counter. }
  eapply ingest_step_trans; [exact Hview1|].
  eapply ingest_step_trans; [exact Hstep2|].
  eapply ingest_step_trans; [exact Hstep3|].
  eapply ingest_step_trans; [exact Hstep4|].
  apply ingest_step_leaf. split; [|counter].
  eapply unit_ext_trans; [apply unit_ext_push_create|].
  eapply unit_ext_trans; [apply unit_ext_push_create_all|apply unit_ext_push_update_all].
Qed.

Lemma ingestForBlockWith_step env ing unit forBlock job unit' job' :
  (forall u j u' j',
      ing u (t.ForLoopBlock.children forBlock) j = Ok (u', j') -> ingest_step u j u' j') ->
  match t.ForLoopBlock.empty forBlock with
  | Some block =>
      forall u j u' j',
        ing u (t.ForLoopBlockEmpty.children block) j = Ok (u', j') ->
        ingest_step u j u' j'
  | None => True
  end ->
  ingestForBlockWith env ing unit forBlock job = Ok (unit', job') ->
  ingest_step unit job unit' job'.
Proof.
  intros Hchildren Hempty H. unfold ingestForBlockWith in H.
  apply bind_Ok in H as (c0 & j1 & Halloc & H).
  apply bind_Ok in H as (track & j2 & Htrack & H). apply convertAst_counter in Htrack.
  apply bind_Ok in H as (c2 & j3 & Hrepeater & H). apply Hchildren in Hrepeater.
  apply bind_Ok in H as ([] & j4 & Hstore & H).
  assert (Hfirst : ingest_step unit job unit j4).
  { eapply (child_view_step unit job c0 j1 j2 _ c2 j3 j3 c2 j4);
      [exact Halloc|exact Htrack| | |exact Hrepeater|apply counter_ext_refl
      |reflexivity|reflexivity|exact Hstore]; reflexivity. }
  apply bind_Ok in H as ([[u1 emptyView] emptyTagName] & j5 & Hemptyview & H).
  assert (Hsecond : ingest_step unit j4 u1 j5).
  { destruct (t.ForLoopBlock.empty forBlock) as [empty|].
    - apply bind_Ok in Hemptyview as (e0 & j41 & Halloc' & Hemptyview).
      apply bind_Ok in Hemptyview as (e2 & j42 & Hnodes & Hemptyview).
      apply Hempty in Hnodes.
      apply bind_Ok in Hemptyview as ([] & j43 & Hstore' & Hemptyview).
      apply bind_Ok in Hemptyview as ([u1' tag] & j44 & Hpoint & Hemptyview).
      apply ingestControlFlowInsertionPoint_leaf in Hpoint as [Hu1 ->].
      apply ret_Ok in Hemptyview as [[= -> -> ->] ->]. cbn [fst].
      apply ingest_step_unit; [exact Hu1|].
      eapply (child_view_step unit j4 e0 j41 j41 e0 e2 j42 j42 e2 j43);
        [exact Halloc'|apply counter_ext_refl|reflexivity|reflexivity|exact Hnodes
        |apply counter_ext_refl|reflexivity|reflexivity|exact Hstore'].
    - apply ret_Ok in Hemptyview as [[= -> -> ->] ->]. apply ingest_step_refl. }
  apply bind_Ok in H as (? & j0 & Hcheck & H). apply throwIf_Ok in Hcheck as [_ ?].
  simplify_eq.
  apply bind_Ok in H as (? & j0 & Hcheck & H). apply throwIf_Ok in Hcheck as [_ ?].
  simplify_eq.
  apply bind_Ok in H as ([u2 tagName] & j6 & Hpoint & H).
  apply ingestControlFlowInsertionPoint_leaf in Hpoint as [Hu2 ->].
  apply bind_Ok in H as (expression & j7 & Hexpression & H).
  apply convertAst_counter in Hexpression.
  apply ret_Ok in H as [-> ->].
  eapply ingest_step_trans; [exact Hfirst|].
  eapply ingest_step_trans; [exact Hsecond|].
  apply ingest_step_leaf. split; [|exact Hexpression].
  eapply unit_ext_trans; [exact Hu2|].
  eapply unit_ext_trans; [apply unit_ext_push_create|apply unit_ext_push_update].
Qed.

(** Every node is ingested by a step, and so is every list of nodes. *)
Lemma ingestNode_step env node :
  forall unit job unit' job',
    ingestNode env node unit job = Ok (unit', job') -> ingest_step unit job unit' job'.
Proof.
  assert (Hlist : forall children,
             Forall (fun node => forall unit job unit' job',
                         ingestNode env node unit job = Ok (unit', job') ->
                         ingest_step unit job unit' job') children ->
             forall u j u' j',
               forM (fun u n => ingestNode env n u) children u j = Ok (u', j') ->
               ingest_step u j u' j').
  { intros children Hall u j u' j' H.
    apply (forM_rel _ (fun x y => ingest_step (fst x) (snd x) (fst y) (snd y))) in H.
    - exact H.
    - intros x. apply ingest_step_refl.
    - intros x y z. apply ingest_step_trans.
    - eapply List.Forall_impl; [|exact Hall]. intros n Hn s j0 s' j0'. apply Hn. }
  induction node using Node_deep_ind; intros unit job unit' job' Hrun; cbn [ingestNode] in Hrun.
  - eapply ingestElementWith_step; [|exact Hrun]. apply Hlist. assumption.
  - eapply ingestTemplateWith_step; [|exact Hrun]. apply Hlist. assumption.
  - apply ingest_step_leaf. eapply ingestContent_leaf. exact Hrun.
  - apply ingest_step_leaf. eapply ingestText_leaf. exact Hrun.
  - apply ingest_step_leaf. eapply ingestBoundText_leaf. exact Hrun.
  - eapply ingestIfBlockWith_step; [|exact Hrun].
    eapply List.Forall_impl; [|eassumption]. intros branch. apply Hlist.
  - eapply ingestSwitchBlockWith_step; [|exact Hrun].
    eapply List.Forall_impl; [|eassumption]. intros case. apply Hlist.
  - eapply ingestDeferBlockWith_step; [| | | |exact Hrun].
    + apply Hlist. assumption.
    + destruct (t.DeferredBlock.loading deferBlock); [apply Hlist; assumption|exact I].
    + destruct (t.DeferredBlock.placeholder deferBlock); [apply Hlist; assumption|exact I].
    + destruct (t.DeferredBlock.error deferBlock); [apply Hlist; assumption|exact I].
  - apply ingest_step_leaf. eapply ingestIcu_leaf. exact Hrun.
  - eapply ingestForBlockWith_step; [| |exact Hrun].
    + apply Hlist. assumption.
    + destruct (t.ForLoopBlock.empty forBlock); [apply Hlist; assumption|exact I].
  - discriminate Hrun.
  - discriminate Hrun.
Qed.

Lemma ingestNodes_step env unit template job unit' job' :
  ingestNodes env unit template job = Ok (unit', job') -> ingest_step unit job unit' job'.
Proof.
  unfold ingestNodes. intros H.
  apply (forM_rel _ (fun x y => ingest_step (fst x) (snd x) (fst y) (snd y))) in H.
  - exact H.
  - intros x. apply ingest_step_refl.
  - intros x y z. apply ingest_step_trans.
  - apply Forall_forall. intros node _ s j s' j'. apply ingestNode_step.
Qed.

(** * What ingestion keeps *)

(** X1.  Ingesting a list of nodes into a view only appends to the two
    operation lists of the view: the operations that were there stay, in
    place and unchanged, and the identifier, the parent, the context
    variables and the aliases of the view are as before. *)
Theorem ingestNodes_only_appends env unit template job unit' job' :
  ingestNodes env unit template job = Ok (unit', job') ->
  ViewCompilationUnit.xref unit' = ViewCompilationUnit.xref unit
  /\ ViewCompilationUnit.parent unit' = ViewCompilationUnit.parent unit
  /\ ViewCompilationUnit.contextVariables unit' = ViewCompilationUnit.contextVariables unit
  /\ ViewCompilationUnit.aliases unit' = ViewCompilationUnit.aliases unit
  /\ (exists ops,
         ViewCompilationUnit.create unit' = ViewCompilationUnit.create unit ++ ops)
  /\ (exists ops,
         ViewCompilationUnit.update unit' = ViewCompilationUnit.update unit ++ ops).
Proof. intros H. apply ingestNodes_step in H as [Hunit _]. exact Hunit. Qed.

Lemma ingestNodes_only_appends_witness :
  exists unit' job',
    ingestNodes Samples.env Samples.root
      [t.Element Samples.classBindingElement; t.IfBlock Samples.twoBranchIf]
      Samples.job = Ok (unit', job')
    /\ ViewCompilationUnit.xref unit' = ViewCompilationUnit.xref Samples.root
    /\ ViewCompilationUnit.parent unit' = ViewCompilationUnit.parent Samples.root
    /\ ViewCompilationUnit.contextVariables unit'
       = ViewCompilationUnit.contextVariables Samples.root
    /\ ViewCompilationUnit.aliases unit' = ViewCompilationUnit.aliases Samples.root
    /\ (exists ops,
           ViewCompilationUnit.create unit'
           = ViewCompilationUnit.create Samples.root ++ ops)
    /\ (exists ops,
           ViewCompilationUnit.update unit'
           = ViewCompilationUnit.update Samples.root ++ ops).
Proof.
  eassert (H : ingestNodes Samples.env Samples.root
                 [t.Element Samples.classBindingElement; t.IfBlock Samples.twoBranchIf]
                 Samples.job = Ok (_, _)) by (vm_compute; reflexivity).
  eexists _, _. split; [exact H|].
  exact (ingestNodes_only_appends Samples.env Samples.root _ Samples.job _ _ H).
Defined.

(** X2.  Ingesting a list of nodes leaves the fixed fields of the job
    alone, never moves the identifier counter back, and never writes the
    view table under an identifier that was handed out before: the views
    it registers are the child views it allocates, and no view leaves the
    table. *)
Theorem ingestNodes_job_frame env unit template job unit' job' :
  ingestNodes env unit template job = Ok (unit', job') ->
  componentName job' = componentName job
  /\ compatibility job' = compatibility job
  /\ relativeContextFilePath job' = relativeContextFilePath job
  /\ i18nUseExternalIds job' = i18nUseExternalIds job
  /\ deferBlocksMeta job' = deferBlocksMeta job
  /\ root_xref job' = root_xref job
  /\ nextXrefId job <= nextXrefId job'
  /\ (forall k, k < nextXrefId job -> views job' !! k = views job !! k)
  /\ (forall k, is_Some (views job !! k) -> is_Some (views job' !! k)).
Proof.
  intros H. apply ingestNodes_step in H as (_ & (Hstatic & Hle & Hold & Hkeep) & _).
  unfold static in Hstatic. injection Hstatic as -> -> -> -> -> ->.
  repeat (split; [reflexivity|]). split; [exact Hle|]. split; assumption.
Qed.

Lemma ingestNodes_job_frame_witness :
  exists unit' job',
    ingestNodes Samples.env Samples.root
      [t.Template Samples.repeatedParagraph; t.IfBlock Samples.twoBranchIf]
      Samples.job = Ok (unit', job')
    /\ componentName job' = componentName Samples.job
    /\ compatibility job' = compatibility Samples.job
    /\ relativeContextFilePath job' = relativeContextFilePath Samples.job
    /\ i18nUseExternalIds job' = i18nUseExternalIds Samples.job
    /\ deferBlocksMeta job' = deferBlocksMeta Samples.job
    /\ root_xref job' = root_xref Samples.job
    /\ nextXrefId Samples.job <= nextXrefId job'
    /\ (forall k, k < nextXrefId Samples.job -> views job' !! k = views Samples.job !! k)
    /\ (forall k, is_Some (views Samples.job !! k) -> is_Some (views job' !! k)).
Proof.
  eassert (H : ingestNodes Samples.env Samples.root
                 [t.Template Samples.repeatedParagraph; t.IfBlock Samples.twoBranchIf]
                 Samples.job = Ok (_, _)) by (vm_compute; reflexivity).
  eexists _, _. split; [exact H|].
  exact (ingestNodes_job_frame Samples.env Samples.root _ Samples.job _ _ H).
Defined.

Lemma new_ComponentCompilationJob_wf componentName relativeContextFilePath
    i18nUseExternalIds deferBlocksMeta :
  let fresh := new_ComponentCompilationJob componentName relativeContextFilePath
                 i18nUseExternalIds deferBlocksMeta in
  views_wf (snd fresh) /\ registered (fst fresh) (snd fresh).
Proof.
  cbn. split.
  - intros k v Hv. cbn in Hv. apply lookup_singleton_Some in Hv as [<- <-]. cbn.
    split; [reflexivity|]. split; [lia|reflexivity].
  - split; cbn; [lia|]. rewrite lookup_singleton_eq. eauto.
Qed.

(** X3.  The view table of an ingested component is a forest rooted in
    the root view: every view is registered under its own identifier,
    below the counter; the root view, registered under the first
    identifier, is the only view without a parent; the parent of any
    other view is a registered view with a smaller identifier. *)
Theorem ingestComponent_views_forest env componentName template relativeContextFilePath
    i18nUseExternalIds deferBlocksMeta job :
  ingestComponent env componentName template relativeContextFilePath i18nUseExternalIds
    deferBlocksMeta = Ok job ->
  root_xref job = 0
  /\ is_Some (views job !! 0)
  /\ forall k v,
      views job !! k = Some v ->
      ViewCompilationUnit.xref v = k
      /\ k < nextXrefId job
      /\ match ViewCompilationUnit.parent v with
         | None => k = 0
         | Some p => p < k /\ is_Some (views job !! p)
         end.
Proof.
  unfold ingestComponent.
  pose proof (new_ComponentCompilationJob_wf componentName relativeContextFilePath
                i18nUseExternalIds deferBlocksMeta) as [Hwf Hreg].
  cbv zeta in Hwf, Hreg.
  destruct (new_ComponentCompilationJob componentName relativeContextFilePath
              i18nUseExternalIds deferBlocksMeta) as [root job0] eqn:Hnew.
  injection Hnew as <- <-. cbn [fst snd] in Hwf, Hreg.
  match goal with
  | |- match ?m ?j with _ => _ end = _ -> _ => destruct (m j) as [[[] j2]|msg] eqn:Hrun
  end; [|discriminate].
  intros [= <-].
  apply bind_Ok in Hrun as (root' & j1 & Hnodes & Hstore).
  apply ingestNodes_step in Hnodes as ((Hx & Hp & _) & (Hstatic & Hle & _ & Hkeep) & Hwf').
  specialize (Hwf' Hreg Hwf). destruct Hreg as [_ Hroot]. apply Hkeep in Hroot.
  unfold storeView in Hstore. injection Hstore as <-.
  cbn [ViewCompilationUnit.xref ViewCompilationUnit.parent] in Hx, Hp.
  unfold static in Hstatic. cbn in Hstatic, Hle. injection Hstatic as _ _ _ _ _ Hrootx.
  destruct j1 as [cn cm rp ie dm next rootx vs]. cbn in *. subst rootx.
  split; [reflexivity|]. rewrite Hx. split; [rewrite lookup_insert_eq; eauto|].
  intros k v Hv. destruct (decide (k = 0)) as [->|Hne].
  - rewrite lookup_insert_eq in Hv. injection Hv as <-. rewrite Hx, Hp.
    split; [reflexivity|]. split; [lia|reflexivity].
  - rewrite lookup_insert_ne in Hv by congruence.
    destruct (Hwf' k v Hv) as (Hxv & Hkv & Hpv). cbn in Hkv, Hpv.
    split; [exact Hxv|]. split; [exact Hkv|].
    destruct (ViewCompilationUnit.parent v) as [p|]; [|exact Hpv].
    destruct Hpv as [Hpk Hpsome]. split; [exact Hpk|].
    destruct (decide (p = 0)) as [->|Hne'];
      [rewrite lookup_insert_eq; eauto|rewrite lookup_insert_ne by congruence; exact Hpsome].
Qed.

Lemma ingestComponent_views_forest_witness :
  exists job,
    ingestComponent Samples.env "Cmp"
      [t.Template Samples.repeatedParagraph; t.IfBlock Samples.twoBranchIf]
      "cmp.ts" false (fun _ => None) = Ok job
    /\ root_xref job = 0
    /\ is_Some (views job !! 0)
    /\ forall k v,
        views job !! k = Some v ->
        ViewCompilationUnit.xref v = k
        /\ k < nextXrefId job
        /\ match ViewCompilationUnit.parent v with
           | None => k = 0
           | Some p => p < k /\ is_Some (views job !! p)
           end.
Proof.
  eassert (H : ingestComponent Samples.env "Cmp"
                 [t.Template Samples.repeatedParagraph; t.IfBlock Samples.twoBranchIf]
                 "cmp.ts" false (fun _ => None) = Ok _) by (vm_compute; reflexivity).
  eexists. split; [exact H|].
  exact (ingestComponent_views_forest Samples.env _ _ _ _ _ _ H).
Defined.

(** * Lowering of expressions *)



(** * Listeners *)

Lemma mapM_Ok_nil {A B} (f : A -> M B) l job job' :
  mapM f l job = Ok ([], job') -> l = [].
Proof. intros H. apply mapM_length in H. destruct l; [reflexivity|discriminate H]. Qed.

(** X5.  The handler of a listener becomes one statement per expression
    of the handler (the expressions of a chain, or the handler itself),
    lowered from left to right against the span of the handler: an
    expression statement for each but the last, which becomes the return
    statement. *)
Theorem makeListenerHandlerOps_statements env handler handlerSpan job ops job' :
  makeListenerHandlerOps env handler handlerSpan job = Ok (ops, job') ->
  exists before returnExpr,
    mapM (fun expr => convertAst env expr (Some handlerSpan))
      match astOf handler with
      | e.Chain _ expressions => expressions
      | _ => [astOf handler]
      end job = Ok (before ++ [returnExpr], job')
    /\ ops = map (fun x => StatementOp (ExpressionStatement x (sourceSpanOf x))) before
             ++ [StatementOp (ReturnStatement returnExpr (sourceSpanOf returnExpr))].
Proof.
  unfold makeListenerHandlerOps. intros H.
  destruct (Nat.eqb _ 0); [discriminate H|].
  apply bind_Ok in H as (expressions & job1 & Hmap & H).
  destruct (List.rev expressions) as [|returnExpr before] eqn:Hrev; [discriminate H|].
  apply ret_Ok in H as [-> ->].
  exists (List.rev before), returnExpr. split; [|reflexivity].
  rewrite Hmap. do 2 f_equal.
  rewrite <- (rev_involutive expressions), Hrev. reflexivity.
Qed.

Lemma makeListenerHandlerOps_statements_witness :
  exists ops job' before returnExpr,
    makeListenerHandlerOps Samples.env Samples.twoStatements (Samples.span 0 4)
      Samples.job = Ok (ops, job')
    /\ mapM (fun expr => convertAst Samples.env expr (Some (Samples.span 0 4)))
         match astOf Samples.twoStatements with
         | e.Chain _ expressions => expressions
         | _ => [astOf Samples.twoStatements]
         end Samples.job = Ok (before ++ [returnExpr], job')
    /\ ops = map (fun x => StatementOp (ExpressionStatement x (sourceSpanOf x))) before
             ++ [StatementOp (ReturnStatement returnExpr (sourceSpanOf returnExpr))].
Proof.
  eassert (H : makeListenerHandlerOps Samples.env Samples.twoStatements
                 (Samples.span 0 4) Samples.job = Ok (_, _))
    by (vm_compute; reflexivity).
  destruct (makeListenerHandlerOps_statements Samples.env Samples.twoStatements
              (Samples.span 0 4) Samples.job _ _ H) as (before & returnExpr & Hmap & Hops).
  eexists _, _, before, returnExpr. split; [exact H|]. split; [exact Hmap|exact Hops].
Defined.

(** X6.  A handler that is an empty chain, bare or wrapped with its
    source, is refused, whatever the job. *)
Theorem makeListenerHandlerOps_empty_chain env handler span handlerSpan job :
  astOf handler = e.Chain span [] ->
  makeListenerHandlerOps env handler handlerSpan job
  = Throw "Expected listener to have non-empty expression list.".
Proof. unfold makeListenerHandlerOps. intros ->. reflexivity. Qed.

Lemma makeListenerHandlerOps_empty_chain_witness :
  makeListenerHandlerOps Samples.env
    (e.ASTWithSource (Samples.rel 0 0) (e.Chain (Samples.rel 0 0) []))
    (Samples.span 0 0) Samples.job
  = Throw "Expected listener to have non-empty expression list.".
Proof.
  apply (makeListenerHandlerOps_empty_chain Samples.env _ (Samples.rel 0 0)).
  reflexivity.
Defined.

(** * Nodes that are not ingested *)

Lemma forM_app {A S} (f : S -> A -> M S) l1 l2 s job :
  forM f (l1 ++ l2) s job = bind (forM f l1 s) (forM f l2) job.
Proof.
  revert s job. induction l1 as [|a l1 IH]; intros s job; cbn [forM app].
  - reflexivity.
  - unfold bind in *. destruct (f s a job) as [[s1 job1]|msg]; [apply IH|reflexivity].
Qed.

(** X7.  A comment or an unknown block among the nodes makes their
    ingestion fail: it never returns, and if the nodes in front of it are
    ingested, the failure is the one that names the kind of the node. *)
Theorem ingestNodes_unsupported env unit before node after job :
  (exists value sourceSpan, node = t.Comment value sourceSpan)
  \/ (exists name sourceSpan, node = t.UnknownBlock name sourceSpan) ->
  (forall r, ingestNodes env unit (before ++ node :: after) job <> Ok r)
  /\ (forall unit1 job1,
         ingestNodes env unit before job = Ok (unit1, job1) ->
         ingestNodes env unit (before ++ node :: after) job
         = Throw ("Unsupported template node: " ++ t.constructor_name node)).
Proof.
  intros Hnode. unfold ingestNodes. rewrite forM_app. unfold bind at 1.
  assert (Hthrow : forall unit1 job1,
             forM (fun u n => ingestNode env n u) (node :: after) unit1 job1
             = Throw ("Unsupported template node: " ++ t.constructor_name node)).
  { intros unit1 job1. destruct Hnode as [(value & sourceSpan & ->)|(name & sourceSpan & ->)];
      reflexivity. }
  split.
  - intros r. destruct (forM _ before unit job) as [[unit1 job1]|msg]; [|discriminate].
    rewrite Hthrow. discriminate.
  - intros unit1 job1 Hbefore. unfold bind. rewrite Hbefore. apply Hthrow.
Qed.

Lemma ingestNodes_unsupported_witness :
  (forall r,
      ingestNodes Samples.env Samples.root
        ([t.Element Samples.inputElement]
         ++ t.Comment "c" (Samples.span 7 15) :: [t.Element Samples.divElement])
        Samples.job <> Ok r)
  /\ (forall unit1 job1,
         ingestNodes Samples.env Samples.root [t.Element Samples.inputElement]
           Samples.job = Ok (unit1, job1) ->
         ingestNodes Samples.env Samples.root
           ([t.Element Samples.inputElement]
            ++ t.Comment "c" (Samples.span 7 15) :: [t.Element Samples.divElement])
           Samples.job
         = Throw ("Unsupported template node: "
                  ++ t.constructor_name (t.Comment "c" (Samples.span 7 15)))).
Proof.
  apply (ingestNodes_unsupported Samples.env Samples.root
           [t.Element Samples.inputElement] (t.Comment "c" (Samples.span 7 15))
           [t.Element Samples.divElement] Samples.job).
  left. exists "c", (Samples.span 7 15). reflexivity.
Defined.

(** * Bindings of templates, by outcome *)

(** The three outcomes of a template binding, by the inputs that decide
    them. *)
Lemma createTemplateBinding_cases env xref type name value unit securityContext
    isStructuralTemplateAttribute templateKind i18nMessage sourceSpan job op job' :
  createTemplateBinding env xref type name value unit securityContext
    isStructuralTemplateAttribute templateKind i18nMessage sourceSpan job = Ok (op, job') ->
  (op = None <->
     templateKind = Some TemplateKind.Structural
     /\ (exists ast, value = inl ast)
     /\ (type = e.BindingType.Attribute \/ type = e.BindingType.Animation))
  /\ (isExtractedAttribute op = true <->
        templateKind = Some TemplateKind.Structural
        /\ isStructuralTemplateAttribute = false
        /\ (type = e.BindingType.Property \/ type = e.BindingType.Class
            \/ type = e.BindingType.Style))
  /\ (isBinding op = true <-> op <> None /\ isExtractedAttribute op = false).
Proof.
  intros H. unfold createTemplateBinding in H.
  destruct templateKind as [[]|], isStructuralTemplateAttribute, type, value as [ast|text];
    cbn [TemplateKind_is e.BindingType.eqb andb orb negb] in H;
    first [ apply ret_Ok in H as [Hop _]
          | apply bind_Ok in H as (expression & job1 & _ & H);
            apply ret_Ok in H as [Hop _] ];
    subst op; cbn [isExtractedAttribute isBinding];
    (split; [|split]); split;
    solve [ discriminate
          | intros (? & ? & ?); first [discriminate|tauto]
          | intros (? & ? & [?|[?|?]]); discriminate
          | intros (? & ? & [?|?]); discriminate
          | intros (? & [? ?] & [?|?]); discriminate
          | intros [? ?]; congruence
          | intros _; repeat split; eauto; discriminate ].
Qed.

(** X8.  What a template binding comes to is decided by the kind of the
    template, the type of the binding, the structural flag and whether the
    value is text.  It is skipped exactly when the template is structural
    and the binding is a dynamic attribute or animation binding, flagged or
    not; it is extracted exactly when the template is structural and the
    binding is an unflagged property, class or style binding; in every
    other case it is a binding operation. *)
Theorem createTemplateBinding_outcome env xref type name value unit securityContext
    isStructuralTemplateAttribute templateKind i18nMessage sourceSpan job op job' :
  createTemplateBinding env xref type name value unit securityContext
    isStructuralTemplateAttribute templateKind i18nMessage sourceSpan job = Ok (op, job') ->
  (op = None <->
     templateKind = Some TemplateKind.Structural
     /\ (exists ast, value = inl ast)
     /\ (type = e.BindingType.Attribute \/ type = e.BindingType.Animation))
  /\ (isExtractedAttribute op = true <->
        templateKind = Some TemplateKind.Structural
        /\ isStructuralTemplateAttribute = false
        /\ (type = e.BindingType.Property \/ type = e.BindingType.Class
            \/ type = e.BindingType.Style))
  /\ (isBinding op = true <-> op <> None /\ isExtractedAttribute op = false).
Proof. apply createTemplateBinding_cases. Qed.

Lemma createTemplateBinding_outcome_witness :
  exists op job',
    createTemplateBinding Samples.env 1 e.BindingType.Attribute "role"
      (inl (e.PropertyRead (Samples.rel 0 1) (e.ImplicitReceiver (Samples.rel 0 0)) "x"))
      None SC_NONE true (Some TemplateKind.Structural) None (Samples.span 5 20)
      Samples.job = Ok (op, job')
    /\ (op = None <->
          Some TemplateKind.Structural = Some TemplateKind.Structural
          /\ (exists ast,
                 @inl e.AST string
                   (e.PropertyRead (Samples.rel 0 1) (e.ImplicitReceiver (Samples.rel 0 0))
                      "x") = inl ast)
          /\ (e.BindingType.Attribute = e.BindingType.Attribute
              \/ e.BindingType.Attribute = e.BindingType.Animation))
    /\ (isExtractedAttribute op = true <->
          Some TemplateKind.Structural = Some TemplateKind.Structural
          /\ true = false
          /\ (e.BindingType.Attribute = e.BindingType.Property
              \/ e.BindingType.Attribute = e.BindingType.Class
              \/ e.BindingType.Attribute = e.BindingType.Style))
    /\ (isBinding op = true <-> op <> None /\ isExtractedAttribute op = false).
Proof.
  eassert (H : createTemplateBinding Samples.env 1 e.BindingType.Attribute "role"
                 (inl (e.PropertyRead (Samples.rel 0 1)
                         (e.ImplicitReceiver (Samples.rel 0 0)) "x"))
                 None SC_NONE true (Some TemplateKind.Structural) None (Samples.span 5 20)
                 Samples.job = Ok (_, _)) by (vm_compute; reflexivity).
  eexists _, _. split; [exact H|].
  exact (createTemplateBinding_outcome Samples.env _ _ _ _ _ _ _ _ _ _ _ _ _ H).
Defined.

(** X9.  On an explicit [ng-template] every binding becomes a binding
    operation, and class, style and dynamic attribute bindings come out as
    property bindings: no class or style binding is emitted for an
    [ng-template], and an attribute binding only for a text value. *)
Theorem createTemplateBinding_ngTemplate env xref type name value unit securityContext
    isStructuralTemplateAttribute i18nMessage sourceSpan job op job' :
  createTemplateBinding env xref type name value unit securityContext
    isStructuralTemplateAttribute (Some TemplateKind.NgTemplate) i18nMessage sourceSpan job
  = Ok (op, job') ->
  exists kind expression,
    op = Some (BindingOp xref kind name expression unit (OneContext securityContext)
                 match value with inr _ => true | inl _ => false end
                 isStructuralTemplateAttribute (Some TemplateKind.NgTemplate) i18nMessage
                 (Some sourceSpan))
    /\ convertAstWithInterpolation env value (option_map i18n.IsMessage i18nMessage) None job
       = Ok (expression, job')
    /\ kind = match type with
              | e.BindingType.Property | e.BindingType.Class | e.BindingType.Style =>
                  BindingKind.Property
              | e.BindingType.Attribute =>
                  match value with
                  | inr _ => BindingKind.Attribute
                  | inl _ => BindingKind.Property
                  end
              | e.BindingType.Animation => BindingKind.Animation
              end.
Proof.
  intros H. unfold createTemplateBinding in H.
  destruct type, value as [ast|text];
    cbn [TemplateKind_is e.BindingType.eqb andb orb negb BINDING_KINDS] in H;
    apply bind_Ok in H as (expression & job1 & Hexpression & H);
    apply ret_Ok in H as [-> ->];
    eexists _, expression; (split; [reflexivity|]); (split; [exact Hexpression|reflexivity]).
Qed.

Lemma createTemplateBinding_ngTemplate_witness :
  exists op job' kind expression,
    createTemplateBinding Samples.env 1 e.BindingType.Class "on"
      (inl (e.PropertyRead (Samples.rel 0 1) (e.ImplicitReceiver (Samples.rel 0 0)) "x"))
      None SC_NONE false (Some TemplateKind.NgTemplate) None (Samples.span 5 20)
      Samples.job = Ok (op, job')
    /\ op = Some (BindingOp 1 kind "on" expression None (OneContext SC_NONE) false false
                    (Some TemplateKind.NgTemplate) None (Some (Samples.span 5 20)))
    /\ convertAstWithInterpolation Samples.env
         (inl (e.PropertyRead (Samples.rel 0 1) (e.ImplicitReceiver (Samples.rel 0 0)) "x"))
         (option_map i18n.IsMessage None) None Samples.job = Ok (expression, job')
    /\ kind = BindingKind.Property.
Proof.
  eassert (H : createTemplateBinding Samples.env 1 e.BindingType.Class "on"
                 (inl (e.PropertyRead (Samples.rel 0 1)
                         (e.ImplicitReceiver (Samples.rel 0 0)) "x"))
                 None SC_NONE false (Some TemplateKind.NgTemplate) None (Samples.span 5 20)
                 Samples.job = Ok (_, _)) by (vm_compute; reflexivity).
  destruct (createTemplateBinding_ngTemplate Samples.env _ _ _ _ _ _ _ _ _ _ _ _ H)
    as (kind & expression & Hop & Hexpression & Hkind).
  eexists _, _, kind, expression. split; [exact H|].
  split; [exact Hop|]. split; [exact Hexpression|exact Hkind].
Defined.

(** * Bindings of elements, by list *)

Lemma mapM_Forall2 {A B} (f : A -> M B) (Q : A -> B -> Prop) l :
  (forall a job b job', f a job = Ok (b, job') -> Q a b) ->
  forall job bs job', mapM f l job = Ok (bs, job') -> Forall2 Q l bs.
Proof.
  intros Hstep job bs job' H.
  apply (mapM_rel f (fun _ _ => True) Q l) in H; [exact (proj2 H)|auto|auto|].
  apply Forall_forall. intros a _ j b j' Hf. split; [exact I|eauto].
Qed.

(** A list of bindings all of which are binding operations: nothing is
    extracted, and the binding operations kept are the whole list. *)
Lemma keep_bindings {A} (nameOf : A -> string) (kindOf : A -> BindingKind.t) l bs :
  Forall2 (fun a b => exists op,
               b = Some op /\ isBinding b = true
               /\ bindingNameOf op = Some (nameOf a)
               /\ bindingKindOf op = Some (kindOf a)) l bs ->
  keep isExtractedAttribute bs = []
  /\ map bindingNameOf (keep isBinding bs) = map (fun a => Some (nameOf a)) l
  /\ map bindingKindOf (keep isBinding bs) = map (fun a => Some (kindOf a)) l.
Proof.
  induction 1 as [|a b l bs (op & -> & Hbinding & Hname & Hkind) _ (IH1 & IH2 & IH3)].
  - repeat split.
  - unfold keep in *. cbn [omap list_omap]. rewrite Hbinding.
    destruct op; try discriminate Hbinding. cbn [isExtractedAttribute].
    cbn [map]. rewrite IH1, IH2, IH3.
    cbn in Hname, Hkind. injection Hname as ->. injection Hkind as ->.
    repeat split.
Qed.

Lemma push_create_all_nil u : Unit.push_create_all u [] = u.
Proof. destruct u. unfold Unit.push_create_all. cbn. rewrite app_nil_r. reflexivity. Qed.

Lemma push_create_all_cons u op ops :
  Unit.push_create_all (Unit.push_create u op) ops = Unit.push_create_all u (op :: ops).
Proof.
  destruct u. unfold Unit.push_create_all, Unit.push_create. cbn.
  rewrite <- app_assoc. reflexivity.
Qed.

(** A loop each of whose steps pushes one operation onto the create list
    pushes one operation per item, in order. *)
Lemma forM_pushes {A} (f : ViewCompilationUnit.t -> A -> M ViewCompilationUnit.t)
    (P : A -> Op -> Prop) l :
  (forall a u j u' j',
      f u a j = Ok (u', j') -> exists op, u' = Unit.push_create u op /\ P a op) ->
  forall u j u' j',
    forM f l u j = Ok (u', j') ->
    exists ops, u' = Unit.push_create_all u ops /\ Forall2 P l ops.
Proof.
  intros Hstep. induction l as [|a l IH]; intros u j u' j' H; cbn [forM] in H.
  - apply ret_Ok in H as [-> _]. exists []. split; [symmetry; apply push_create_all_nil|].
    constructor.
  - apply bind_Ok in H as (u1 & j1 & Hf & H).
    apply Hstep in Hf as (op & -> & Hop). apply IH in H as (ops & -> & Hops).
    exists (op :: ops). split; [apply push_create_all_cons|]. constructor; assumption.
Qed.

(** X10.  The bindings of an element all go to the update list, one
    binding operation per attribute (of attribute kind) and then one per
    input (of the kind of its type), in source order; nothing is extracted
    into the create list, which gets one listener per output, in order and
    addressed to the element, and the i18n-attributes operation last. *)
Theorem ingestElementBindings_lists env unit op element job unit' job' :
  ingestElementBindings env unit op element job = Ok (unit', job') ->
  exists bindings listeners xref,
    ViewCompilationUnit.update unit' = ViewCompilationUnit.update unit ++ bindings
    /\ ViewCompilationUnit.create unit'
       = ViewCompilationUnit.create unit ++ listeners
         ++ [I18nAttributesOp xref new_SlotHandle (op_xref op)]
    /\ map bindingNameOf bindings
       = map (fun attr => Some (t.TextAttribute.name attr)) (t.Element.attributes element)
         ++ map (fun input => Some (t.BoundAttribute.name input)) (t.Element.inputs element)
    /\ map bindingKindOf bindings
       = map (fun _ => Some BindingKind.Attribute) (t.Element.attributes element)
         ++ map (fun input => Some (BINDING_KINDS (t.BoundAttribute.type input)))
              (t.Element.inputs element)
    /\ Forall2 (fun output listener =>
                  exists handlerOps,
                    listener = ListenerOp (op_xref op) (op_handle op)
                                 (t.BoundEvent.name output) (op_tag op) handlerOps
                                 (t.BoundEvent.phase output) (t.BoundEvent.target output)
                                 false (t.BoundEvent.sourceSpan output))
         (t.Element.outputs element) listeners.
Proof.
  unfold ingestElementBindings. intros H.
  apply bind_Ok in H as (attrBindings & job1 & Hattrs & H).
  apply bind_Ok in H as (inputBindings & job2 & Hinputs & H).
  apply bind_Ok in H as (unit1 & job3 & Houtputs & H).
  cbn [boolean_strictNotEquals_null] in H.
  apply bind_Ok in H as (xref & job4 & _ & H). apply ret_Ok in H as [-> _].
  apply (mapM_Forall2 _ (fun attr b => exists op,
                             b = Some op /\ isBinding b = true
                             /\ bindingNameOf op = Some (t.TextAttribute.name attr)
                             /\ bindingKindOf op = Some BindingKind.Attribute)) in Hattrs;
    [|intros attr j b j' Hf; runs; eexists; repeat split].
  apply (mapM_Forall2 _ (fun input b => exists op,
                             b = Some op /\ isBinding b = true
                             /\ bindingNameOf op = Some (t.BoundAttribute.name input)
                             /\ bindingKindOf op
                                = Some (BINDING_KINDS (t.BoundAttribute.type input))))
    in Hinputs; [|intros input j b j' Hf; runs; eexists; repeat split].
  apply (keep_bindings t.TextAttribute.name (fun _ => BindingKind.Attribute)) in Hattrs
    as (Hattrs1 & Hattrs2 & Hattrs3).
  apply (keep_bindings t.BoundAttribute.name
           (fun input => BINDING_KINDS (t.BoundAttribute.type input))) in Hinputs
    as (Hinputs1 & Hinputs2 & Hinputs3).
  apply (forM_pushes _ (fun output listener =>
                          exists handlerOps,
                            listener = ListenerOp (op_xref op) (op_handle op)
                                         (t.BoundEvent.name output) (op_tag op) handlerOps
                                         (t.BoundEvent.phase output)
                                         (t.BoundEvent.target output) false
                                         (t.BoundEvent.sourceSpan output))) in Houtputs
    as (listeners & -> & Hlisteners).
  - exists (keep isBinding (attrBindings ++ inputBindings)), listeners, xref.
    unfold keep in *. rewrite !omap_app, Hattrs1, Hinputs1, !map_app.
    rewrite Hattrs2, Hattrs3, Hinputs2, Hinputs3.
    destruct unit. cbn. rewrite app_nil_r, <- app_assoc.
    repeat split. exact Hlisteners.
  - intros output u j u' j' Hf. destruct (animationWithoutPhase output); [discriminate Hf|].
    apply bind_Ok in Hf as (listener & j1 & Hlistener & Hf). apply ret_Ok in Hf as [-> _].
    unfold listenerOf in Hlistener.
    apply bind_Ok in Hlistener as (handlerOps & j2 & _ & Hlistener).
    apply ret_Ok in Hlistener as [-> _]. eexists. split; [reflexivity|]. eexists. reflexivity.
Qed.

Lemma ingestElementBindings_lists_witness :
  exists unit' job' bindings listeners xref,
    ingestElementBindings Samples.env Samples.root Samples.inputStartOp
      Samples.classBindingElement Samples.job = Ok (unit', job')
    /\ ViewCompilationUnit.update unit'
       = ViewCompilationUnit.update Samples.root ++ bindings
    /\ ViewCompilationUnit.create unit'
       = ViewCompilationUnit.create Samples.root ++ listeners
         ++ [I18nAttributesOp xref new_SlotHandle (op_xref Samples.inputStartOp)]
    /\ map bindingNameOf bindings
       = map (fun attr => Some (t.TextAttribute.name attr))
           (t.Element.attributes Samples.classBindingElement)
         ++ map (fun input => Some (t.BoundAttribute.name input))
              (t.Element.inputs Samples.classBindingElement)
    /\ map bindingKindOf bindings
       = map (fun _ => Some BindingKind.Attribute)
           (t.Element.attributes Samples.classBindingElement)
         ++ map (fun input => Some (BINDING_KINDS (t.BoundAttribute.type input)))
              (t.Element.inputs Samples.classBindingElement)
    /\ Forall2 (fun output listener =>
                  exists handlerOps,
                    listener = ListenerOp (op_xref Samples.inputStartOp)
                                 (op_handle Samples.inputStartOp)
                                 (t.BoundEvent.name output) (op_tag Samples.inputStartOp)
                                 handlerOps (t.BoundEvent.phase output)
                                 (t.BoundEvent.target output) false
                                 (t.BoundEvent.sourceSpan output))
         (t.Element.outputs Samples.classBindingElement) listeners.
Proof.
  eassert (H : ingestElementBindings Samples.env Samples.root Samples.inputStartOp
                 Samples.classBindingElement Samples.job = Ok (_, _))
    by (vm_compute; reflexivity).
  destruct (ingestElementBindings_lists Samples.env Samples.root Samples.inputStartOp
              Samples.classBindingElement Samples.job _ _ H)
    as (bindings & listeners & xref & Hlists).
  eexists _, _, bindings, listeners, xref. split; [exact H|exact Hlists].
Defined.

(** * Control flow *)

(** What the insertion-point inference does to a unit and a job, with or
    without a root. *)
Lemma ingestControlFlowInsertionPoint_copies env unit xref children job unit' tagName job' :
  ingestControlFlowInsertionPoint env unit xref children job = Ok ((unit', tagName), job') ->
  job' = job
  /\ ViewCompilationUnit.create unit' = ViewCompilationUnit.create unit
  /\ (exists ops,
         ViewCompilationUnit.update unit' = ViewCompilationUnit.update unit ++ ops
         /\ Forall (fun op => bindingKindOf op = Some BindingKind.Attribute) ops)
  /\ tagName <> Some NG_TEMPLATE_TAG_NAME.
Proof.
  intros H. destruct (findRoot children None) as [[root|]|] eqn:Hroot.
  - destruct (ingestControlFlowInsertionPoint_root _ _ _ _ _ _ _ _ _ Hroot H)
      as (-> & Hcreate & (ops & Hupdate & Hops) & ->).
    split; [reflexivity|]. split; [exact Hcreate|]. split.
    + exists ops. split; [exact Hupdate|].
      clear -Hops. induction Hops as [|attr op attrs ops [Hkind _] _ IH]; constructor; auto.
    + destruct root as [element|tmpl]; [|destruct (t.Template.tagName tmpl) as [name|]];
        try discriminate;
        match goal with
        | |- (if String.eqb ?a ?b then _ else _) <> _ =>
            destruct (String.eqb_spec a b); [discriminate|congruence]
        end.
  - rewrite (ingestControlFlowInsertionPoint_no_root env unit xref children job) in H
      by (right; exact Hroot).
    injection H as <- <- <-. repeat split; try discriminate.
    exists []. split; [symmetry; apply app_nil_r|constructor].
  - rewrite (ingestControlFlowInsertionPoint_no_root env unit xref children job) in H
      by (left; exact Hroot).
    injection H as <- <- <-. repeat split; try discriminate.
    exists []. split; [symmetry; apply app_nil_r|constructor].
Qed.

(** X11.  The insertion-point inference of a control flow branch leaves
    the job and the create list of the unit alone; all it appends to the
    update list are attribute bindings; and the tag name it yields is
    never the tag name of [ng-template]. *)
Theorem ingestControlFlowInsertionPoint_never_ngTemplate env unit xref children job unit'
    tagName job' :
  ingestControlFlowInsertionPoint env unit xref children job = Ok ((unit', tagName), job') ->
  job' = job
  /\ ViewCompilationUnit.create unit' = ViewCompilationUnit.create unit
  /\ (exists ops,
         ViewCompilationUnit.update unit' = ViewCompilationUnit.update unit ++ ops
         /\ Forall (fun op => bindingKindOf op = Some BindingKind.Attribute) ops)
  /\ tagName <> Some "ng-template".
Proof. apply ingestControlFlowInsertionPoint_copies. Qed.

Lemma ingestControlFlowInsertionPoint_never_ngTemplate_witness :
  exists unit' tagName job',
    ingestControlFlowInsertionPoint Samples.env Samples.root 1
      [t.Template Samples.plainTemplate] Samples.job = Ok ((unit', tagName), job')
    /\ job' = Samples.job
    /\ ViewCompilationUnit.create unit' = ViewCompilationUnit.create Samples.root
    /\ (exists ops,
           ViewCompilationUnit.update unit' = ViewCompilationUnit.update Samples.root ++ ops
           /\ Forall (fun op => bindingKindOf op = Some BindingKind.Attribute) ops)
    /\ tagName <> Some "ng-template".
Proof.
  eassert (H : ingestControlFlowInsertionPoint Samples.env Samples.root 1
                 [t.Template Samples.plainTemplate] Samples.job = Ok ((_, _), _))
    by (vm_compute; reflexivity).
  eexists _, _, _. split; [exact H|].
  exact (ingestControlFlowInsertionPoint_never_ngTemplate Samples.env Samples.root 1 _
           Samples.job _ _ _ H).
Defined.

(** One turn of the branch loop of an [@if] block. *)
Lemma ingestIfBranch_inv env ing acc ifCase job acc' job' :
  ingestIfBranch env ing acc ifCase job = Ok (acc', job') ->
  exists tagName attrs caseExpr,
    ViewCompilationUnit.create (BranchLoop.unit acc')
    = ViewCompilationUnit.create (BranchLoop.unit acc)
      ++ [TemplateOp (nextXrefId job) TemplateKind.Block tagName "Conditional"
            new_SlotHandle NS_HTML (t.IfBlockBranch.i18n ifCase) []
            (t.IfBlockBranch.startSourceSpan ifCase) (t.IfBlockBranch.sourceSpan ifCase)]
    /\ ViewCompilationUnit.update (BranchLoop.unit acc')
       = ViewCompilationUnit.update (BranchLoop.unit acc) ++ attrs
    /\ Forall (fun op => bindingKindOf op = Some BindingKind.Attribute) attrs
    /\ (BranchLoop.i acc <> 0 -> tagName = None /\ attrs = [])
    /\ tagName <> Some NG_TEMPLATE_TAG_NAME
    /\ BranchLoop.conditions acc'
       = BranchLoop.conditions acc
         ++ [ConditionalCaseExpr caseExpr (nextXrefId job) new_SlotHandle
               (t.IfBlockBranch.expressionAlias ifCase)]
    /\ BranchLoop.i acc' = S (BranchLoop.i acc)
    /\ BranchLoop.firstXref acc'
       = Some (default (nextXrefId job) (BranchLoop.firstXref acc)).
Proof.
  intros H. unfold ingestIfBranch in H.
  apply bind_Ok in H as (c0 & j1 & Halloc & H).
  apply allocateView_Ok in Halloc as [Hc0 _].
  apply bind_Ok in H as ([u1 tagName] & j1' & Hpoint & H).
  assert (Hu1 : ViewCompilationUnit.create u1
                = ViewCompilationUnit.create (BranchLoop.unit acc)
                /\ (exists ops,
                       ViewCompilationUnit.update u1
                       = ViewCompilationUnit.update (BranchLoop.unit acc) ++ ops
                       /\ Forall (fun op => bindingKindOf op = Some BindingKind.Attribute) ops
                       /\ (BranchLoop.i acc <> 0 -> tagName = None /\ ops = []))
                /\ tagName <> Some NG_TEMPLATE_TAG_NAME).
  { destruct (Nat.eqb_spec (BranchLoop.i acc) 0) as [Hi|Hi].
    - apply ingestControlFlowInsertionPoint_copies in Hpoint
        as (_ & Hcreate & (ops & Hupdate & Hops) & Htag).
      split; [exact Hcreate|]. split; [|exact Htag].
      exists ops. split; [exact Hupdate|]. split; [exact Hops|]. intros Hne. contradiction.
    - apply ret_Ok in Hpoint as [[= -> ->] _]. split; [reflexivity|]. split; [|discriminate].
      exists []. split; [symmetry; apply app_nil_r|]. split; [constructor|auto]. }
  destruct Hu1 as (Hcreate & (attrs & Hupdate & Hattrs & Hlater) & Htag).
  apply bind_Ok in H as (? & j0 & _ & H).
  assert (Hx : ViewCompilationUnit.xref
                 match t.IfBlockBranch.expressionAlias ifCase with
                 | Some alias =>
                     Unit.set_contextVariable c0 (TemplateVariable.name alias) (CTX_REF env)
                 | None => c0
                 end = nextXrefId job).
  { rewrite Hc0. destruct (t.IfBlockBranch.expressionAlias ifCase); reflexivity. }
  rewrite Hx in H. clear Hx.
  exists tagName, attrs.
  destruct (BranchLoop.firstXref acc) as [first|];
    apply bind_Ok in H as (caseExpr & j2 & _ & H);
    apply bind_Ok in H as (c2 & j3 & _ & H);
    apply bind_Ok in H as ([] & j4 & _ & H);
    apply ret_Ok in H as [-> _]; exists caseExpr;
    cbn [BranchLoop.unit BranchLoop.conditions BranchLoop.i BranchLoop.firstXref
         Unit.push_create ViewCompilationUnit.create ViewCompilationUnit.update
         op_xref op_handle default];
    rewrite Hcreate, Hupdate; repeat split; auto; apply Hlater; assumption.
Qed.

(** The branch loop of an [@if] block, from any state of the loop. *)
Lemma ingestIfBranches_inv env ing branches :
  forall acc job acc' job',
    forM (ingestIfBranch env ing) branches acc job = Ok (acc', job') ->
    exists templates attrs conditions,
      ViewCompilationUnit.create (BranchLoop.unit acc')
      = ViewCompilationUnit.create (BranchLoop.unit acc) ++ templates
      /\ ViewCompilationUnit.update (BranchLoop.unit acc')
         = ViewCompilationUnit.update (BranchLoop.unit acc) ++ attrs
      /\ BranchLoop.conditions acc' = BranchLoop.conditions acc ++ conditions
      /\ Forall2 (fun branch template =>
                    exists xref tagName,
                      template = TemplateOp xref TemplateKind.Block tagName "Conditional"
                                   new_SlotHandle NS_HTML (t.IfBlockBranch.i18n branch) []
                                   (t.IfBlockBranch.startSourceSpan branch)
                                   (t.IfBlockBranch.sourceSpan branch)
                      /\ tagName <> Some NG_TEMPLATE_TAG_NAME)
           branches templates
      /\ Forall2 (fun template condition =>
                    exists expr alias,
                      condition = ConditionalCaseExpr expr (op_xref template)
                                    (op_handle template) alias)
           templates conditions
      /\ Forall (fun op => bindingKindOf op = Some BindingKind.Attribute) attrs
      /\ (BranchLoop.i acc <> 0 ->
          Forall (fun template => op_tag template = None) templates /\ attrs = [])
      /\ Forall (fun template => op_tag template = None) (tail templates)
      /\ BranchLoop.firstXref acc'
         = match BranchLoop.firstXref acc with
           | Some first => Some first
           | None => head (map op_xref templates)
           end
      /\ (forall template, head templates = Some template -> op_xref template = nextXrefId job).
Proof.
  induction branches as [|branch branches IH]; intros acc job acc' job' H; cbn [forM] in H.
  - apply ret_Ok in H as [-> _]. exists [], [], [].
    rewrite !app_nil_r. repeat split; try constructor; try discriminate.
    destruct (BranchLoop.firstXref acc); reflexivity.
  - apply bind_Ok in H as (acc1 & job1 & Hbranch & H).
    apply ingestIfBranch_inv in Hbranch
      as (tagName & attrs1 & caseExpr & Hcreate1 & Hupdate1 & Hattrs1 & Hlater1 & Htag
          & Hconditions1 & Hi1 & Hfirst1).
    apply IH in H
      as (templates & attrs & conditions & Hcreate & Hupdate & Hconditions & Htemplates
          & Hpairs & Hattrs & Hlater & _ & Hfirst & _).
    destruct Hlater as [Hnone Hnil]; [rewrite Hi1; discriminate|]. subst attrs.
    eexists (_ :: templates), attrs1, (_ :: conditions).
    rewrite Hcreate, Hcreate1, Hupdate, Hupdate1, Hconditions, Hconditions1, Hfirst, Hfirst1.
    rewrite <- !app_assoc, app_nil_r. cbn [app tail head map op_xref].
    split; [reflexivity|]. split; [reflexivity|]. split; [reflexivity|].
    split; [constructor; [eexists _, _; split; [reflexivity|exact Htag]|exact Htemplates]|].
    split; [constructor; [eexists _, _; reflexivity|exact Hpairs]|].
    split; [exact Hattrs1|].
    split; [intros Hi; destruct (Hlater1 Hi) as [-> ->]; split;
            [constructor; [reflexivity|exact Hnone]|reflexivity]|].
    split; [exact Hnone|].
    split; [destruct (BranchLoop.firstXref acc); reflexivity|].
    intros template [= <-]. reflexivity.
Qed.

(** X12.  An [@if] block puts one block template per branch on the
    create list, in order, and one conditional operation on the update
    list, behind the static attributes copied by the insertion-point
    inference.  The conditional holds one case per branch, each addressed
    to the template of its branch, and is anchored at the view of the
    first branch, which takes the first identifier handed out.  Only the
    template of the first branch can carry a tag name. *)
Theorem ingestIfBlock_conditional env unit ifBlock job unit' job' :
  ingestIfBlock env unit ifBlock job = Ok (unit', job') ->
  exists templates attrs slot conditions,
    ViewCompilationUnit.create unit' = ViewCompilationUnit.create unit ++ templates
    /\ ViewCompilationUnit.update unit'
       = ViewCompilationUnit.update unit ++ attrs
         ++ [ConditionalOp (head (map op_xref templates)) slot None conditions
               (t.IfBlock.sourceSpan ifBlock)]
    /\ Forall2 (fun branch template =>
                  exists xref tagName,
                    template = TemplateOp xref TemplateKind.Block tagName "Conditional"
                                 new_SlotHandle NS_HTML (t.IfBlockBranch.i18n branch) []
                                 (t.IfBlockBranch.startSourceSpan branch)
                                 (t.IfBlockBranch.sourceSpan branch)
                    /\ tagName <> Some "ng-template")
         (t.IfBlock.branches ifBlock) templates
    /\ Forall2 (fun template condition =>
                  exists expr alias,
                    condition = ConditionalCaseExpr expr (op_xref template)
                                  (op_handle template) alias)
         templates conditions
    /\ Forall (fun op => bindingKindOf op = Some BindingKind.Attribute) attrs
    /\ Forall (fun template => op_tag template = None) (tail templates)
    /\ (forall template, head templates = Some template -> op_xref template = nextXrefId job).
Proof.
  unfold ingestIfBlock, ingestIfBlockWith. intros H.
  apply bind_Ok in H as (acc & job1 & Hbranches & H). apply ret_Ok in H as [-> _].
  apply ingestIfBranches_inv in Hbranches
    as (templates & attrs & conditions & Hcreate & Hupdate & Hconditions & Htemplates
        & Hpairs & Hattrs & _ & Htail & Hfirst & Hhead).
  cbn [BranchLoop.unit BranchLoop.conditions BranchLoop.firstXref app] in *.
  exists templates, attrs, (BranchLoop.firstSlotHandle acc), conditions.
  cbn [Unit.push_update ViewCompilationUnit.create ViewCompilationUnit.update].
  rewrite Hcreate, Hupdate, Hconditions, Hfirst, <- app_assoc. repeat split; assumption.
Qed.

Lemma ingestIfBlock_conditional_witness :
  exists unit' job' templates attrs slot conditions,
    ingestIfBlock Samples.env Samples.root Samples.twoBranchIf Samples.job
    = Ok (unit', job')
    /\ ViewCompilationUnit.create unit'
       = ViewCompilationUnit.create Samples.root ++ templates
    /\ ViewCompilationUnit.update unit'
       = ViewCompilationUnit.update Samples.root ++ attrs
         ++ [ConditionalOp (head (map op_xref templates)) slot None conditions
               (t.IfBlock.sourceSpan Samples.twoBranchIf)]
    /\ Forall2 (fun branch template =>
                  exists xref tagName,
                    template = TemplateOp xref TemplateKind.Block tagName "Conditional"
                                 new_SlotHandle NS_HTML (t.IfBlockBranch.i18n branch) []
                                 (t.IfBlockBranch.startSourceSpan branch)
                                 (t.IfBlockBranch.sourceSpan branch)
                    /\ tagName <> Some "ng-template")
         (t.IfBlock.branches Samples.twoBranchIf) templates
    /\ Forall2 (fun template condition =>
                  exists expr alias,
                    condition = ConditionalCaseExpr expr (op_xref template)
                                  (op_handle template) alias)
         templates conditions
    /\ Forall (fun op => bindingKindOf op = Some BindingKind.Attribute) attrs
    /\ Forall (fun template => op_tag template = None) (tail templates)
    /\ (forall template,
           head templates = Some template -> op_xref template = nextXrefId Samples.job).
Proof.
  eassert (H : ingestIfBlock Samples.env Samples.root Samples.twoBranchIf Samples.job
               = Ok (_, _)) by (vm_compute; reflexivity).
  destruct (ingestIfBlock_conditional Samples.env Samples.root Samples.twoBranchIf
              Samples.job _ _ H) as (templates & attrs & slot & conditions & Hshape).
  eexists _, _, templates, attrs, slot, conditions. split; [exact H|exact Hshape].
Defined.

(** One turn of the case loop of a [@switch] block. *)
Lemma ingestSwitchCase_inv env ing startSourceSpan acc switchCase job acc' job' :
  ingestSwitchCase env ing startSourceSpan acc switchCase job = Ok (acc', job') ->
  exists caseExpr,
    BranchLoop.unit acc'
    = Unit.push_create (BranchLoop.unit acc)
        (TemplateOp (nextXrefId job) TemplateKind.Block None "Case" new_SlotHandle NS_HTML
           (t.SwitchBlockCase.i18n switchCase) []
           (t.SwitchBlockCase.startSourceSpan switchCase)
           (t.SwitchBlockCase.sourceSpan switchCase))
    /\ BranchLoop.conditions acc'
       = BranchLoop.conditions acc
         ++ [ConditionalCaseExpr caseExpr (nextXrefId job) new_SlotHandle None]
    /\ BranchLoop.firstXref acc'
       = Some (default (nextXrefId job) (BranchLoop.firstXref acc))
    /\ match t.SwitchBlockCase.expression switchCase with
       | Some _ => caseExpr <> None
       | None => caseExpr = None
       end.
Proof.
  intros H. unfold ingestSwitchCase in H.
  apply bind_Ok in H as (c0 & j1 & Halloc & H).
  apply allocateView_Ok in Halloc as [-> _].
  apply bind_Ok in H as (? & j0 & _ & H).
  cbn [ViewCompilationUnit.xref] in H.
  destruct (BranchLoop.firstXref acc) as [first|];
    apply bind_Ok in H as (caseExpr & j2 & Hexpr & H);
    apply bind_Ok in H as (c2 & j3 & _ & H);
    apply bind_Ok in H as ([] & j4 & _ & H);
    apply ret_Ok in H as [-> _]; exists caseExpr;
    cbn [BranchLoop.unit BranchLoop.conditions BranchLoop.firstXref op_xref op_handle default];
    (repeat split; auto);
    (destruct (t.SwitchBlockCase.expression switchCase);
     [apply bind_Ok in Hexpr as (lowering & j5 & _ & Hexpr);
      apply ret_Ok in Hexpr as [-> _];
      discriminate
     |apply ret_Ok in Hexpr as [-> _]; reflexivity]).
Qed.

Lemma ingestSwitchCases_inv env ing startSourceSpan cases :
  forall acc job acc' job',
    forM (ingestSwitchCase env ing startSourceSpan) cases acc job = Ok (acc', job') ->
    exists templates conditions,
      BranchLoop.unit acc' = Unit.push_create_all (BranchLoop.unit acc) templates
      /\ BranchLoop.conditions acc' = BranchLoop.conditions acc ++ conditions
      /\ Forall2 (fun case template =>
                    exists xref,
                      template = TemplateOp xref TemplateKind.Block None "Case"
                                   new_SlotHandle NS_HTML (t.SwitchBlockCase.i18n case) []
                                   (t.SwitchBlockCase.startSourceSpan case)
                                   (t.SwitchBlockCase.sourceSpan case))
           cases templates
      /\ Forall2 (fun case condition =>
                    exists expr xref,
                      condition = ConditionalCaseExpr expr xref new_SlotHandle None
                      /\ match t.SwitchBlockCase.expression case with
                         | Some _ => expr <> None
                         | None => expr = None
                         end)
           cases conditions
      /\ map op_xref templates
         = omap (fun condition =>
                   match condition with
                   | ConditionalCaseExpr _ target _ _ => Some target
                   | _ => None
                   end) conditions
      /\ BranchLoop.firstXref acc'
         = match BranchLoop.firstXref acc with
           | Some first => Some first
           | None => head (map op_xref templates)
           end
      /\ (forall template, head templates = Some template -> op_xref template = nextXrefId job).
Proof.
  induction cases as [|case cases IH]; intros acc job acc' job' H; cbn [forM] in H.
  - apply ret_Ok in H as [-> _]. exists [], [].
    rewrite push_create_all_nil, app_nil_r. repeat split; try constructor; try discriminate.
    destruct (BranchLoop.firstXref acc); reflexivity.
  - apply bind_Ok in H as (acc1 & job1 & Hcase & H).
    apply ingestSwitchCase_inv in Hcase as (caseExpr & Hunit1 & Hconditions1 & Hfirst1 & Hexpr).
    apply IH in H
      as (templates & conditions & Hunit & Hconditions & Htemplates & Hcases & Hxrefs
          & Hfirst & _).
    eexists (_ :: templates), (_ :: conditions).
    rewrite Hunit, Hunit1, Hconditions, Hconditions1, Hfirst, Hfirst1.
    rewrite push_create_all_cons, <- app_assoc. cbn [app head map op_xref omap list_omap].
    rewrite Hxrefs.
    split; [reflexivity|]. split; [reflexivity|].
    split; [constructor; [eexists; reflexivity|exact Htemplates]|].
    split; [constructor; [eexists _, _; split; [reflexivity|exact Hexpr]|exact Hcases]|].
    split; [reflexivity|].
    split; [destruct (BranchLoop.firstXref acc); reflexivity|].
    intros template [= <-]. reflexivity.
Qed.



(** * Deferred blocks that are refused *)

(** X14.  A deferred block for which the job holds no metadata is refused
    before anything is ingested. *)
Theorem ingestDeferBlock_without_metadata env unit deferBlock job :
  deferBlocksMeta job deferBlock = None ->
  ingestDeferBlock env unit deferBlock job
  = Throw "AssertionError: unable to find metadata for deferred block".
Proof.
  intros Hmeta. unfold ingestDeferBlock, ingestDeferBlockWith, bind, getDeferBlockMeta.
  rewrite Hmeta. reflexivity.
Qed.

Lemma ingestDeferBlock_without_metadata_witness :
  ingestDeferBlock Samples.env Samples.root Samples.bareDefer
    (snd (new_ComponentCompilationJob "Cmp" "cmp.ts" false (fun _ => None)))
  = Throw "AssertionError: unable to find metadata for deferred block".
Proof.
  apply (ingestDeferBlock_without_metadata Samples.env Samples.root Samples.bareDefer).
  reflexivity.
Defined.

Lemma ingestDeferTriggers_interpolation env deferXref acc triggers when job r :
  t.DeferredBlockTriggers.when triggers = Some when ->
  e.instanceof_Interpolation (t.BoundDeferredTrigger.value when) = true ->
  ingestDeferTriggers env deferXref acc triggers job <> Ok r.
Proof.
  intros Hwhen Hvalue. unfold ingestDeferTriggers, bind. rewrite Hwhen, Hvalue.
  discriminate.
Qed.

(** X15.  A deferred block one of whose [when] triggers, regular or
    prefetch, has an interpolation for its value is never ingested. *)
Theorem ingestDeferBlock_when_interpolation env unit deferBlock when job :
  t.DeferredBlockTriggers.when (t.DeferredBlock.triggers deferBlock) = Some when
  \/ t.DeferredBlockTriggers.when (t.DeferredBlock.prefetchTriggers deferBlock) = Some when ->
  e.instanceof_Interpolation (t.BoundDeferredTrigger.value when) = true ->
  forall r, ingestDeferBlock env unit deferBlock job <> Ok r.
Proof.
  intros Hwhen Hvalue [unit' job'] H. unfold ingestDeferBlock, ingestDeferBlockWith in H.
  apply bind_Ok in H as (blockMeta & j0 & _ & H).
  destruct blockMeta as [blockMeta|]; [|discriminate H].
  apply bind_Ok in H as ([u1 main] & j1 & _ & H).
  apply bind_Ok in H as ([u2 loading] & j2 & _ & H).
  apply bind_Ok in H as ([u3 placeholder] & j3 & _ & H).
  apply bind_Ok in H as ([u4 error] & j4 & _ & H).
  destruct main as [main|]; [|discriminate H].
  apply bind_Ok in H as (deferXref & j5 & _ & H).
  apply bind_Ok in H as (acc & j6 & Htriggers & _).
  cbn [forM] in Htriggers.
  apply bind_Ok in Htriggers as (acc1 & j7 & Hregular & Htriggers).
  apply bind_Ok in Htriggers as (acc2 & j8 & Hprefetch & _).
  destruct Hwhen as [Hwhen|Hwhen].
  - exact (ingestDeferTriggers_interpolation _ _ _ _ _ _ _ Hwhen Hvalue Hregular).
  - exact (ingestDeferTriggers_interpolation _ _ _ _ _ _ _ Hwhen Hvalue Hprefetch).
Qed.

Lemma ingestDeferBlock_when_interpolation_witness :
  ~ exists r,
      ingestDeferBlock Samples.env Samples.root Samples.interpolatedDefer Samples.job
      = Ok r.
Proof.
  intros [r H].
  exact (ingestDeferBlock_when_interpolation Samples.env Samples.root
           Samples.interpolatedDefer Samples.interpolatedTrigger Samples.job
           (or_introl eq_refl) eq_refl r H).
Defined.

(** * Text *)

(** What a successful run of the interpolated-text ingestor has done. *)
Lemma ingestBoundText_inv env unit text icuPlaceholder job unit' job' :
  ingestBoundText env unit text icuPlaceholder job = Ok (unit', job') ->
  exists span strings expressions lowering placeholders,
    astOf (t.BoundText.value text) = e.Interpolation span strings expressions
    /\ unit'
       = Unit.push_update
           (Unit.push_create unit
              (TextOp (nextXrefId job) "" icuPlaceholder
                 (Some (t.BoundText.sourceSpan text))))
           (InterpolateTextOp (nextXrefId job)
              (Interpolation.mk strings lowering placeholders)
              (t.BoundText.sourceSpan text))
    /\ List.length lowering = List.length expressions
    /\ (placeholders = [] \/ List.length placeholders = List.length expressions)
    /\ nextXrefId job < nextXrefId job'.
Proof.
  unfold ingestBoundText. intros H.
  destruct (astOf (t.BoundText.value text)) eqn:Hvalue; try discriminate H.
  apply bind_Ok in H as (? & job0 & Hcheck & H).
  assert (job0 = job) as ->.
  { destruct (t.BoundText.i18n text); runs; reflexivity. }
  clear Hcheck.
  match type of H with
  | (if Nat.ltb 0 (List.length ?ps) && _ then _ else _) _ = _ =>
      remember ps as placeholders eqn:Hplaceholders
  end.
  destruct (Nat.ltb 0 (List.length placeholders)
            && negb (Nat.eqb (List.length placeholders) (List.length expressions)))
    eqn:Hcount; [discriminate H|].
  apply bind_Ok in H as (textXref & job1 & Hxref & H).
  apply counter_ext_allocate in Hxref as (-> & Hnext & _).
  apply bind_Ok in H as (compat & job2 & Hcompat & H).
  apply inCompatibilityMode_Ok in Hcompat as ->.
  apply bind_Ok in H as (lowering & job3 & Hmap & H). apply ret_Ok in H as [-> ->].
  pose proof (mapM_length _ _ _ _ _ Hmap) as Hlength.
  apply mapM_counter in Hmap; [|intros a j b j' Hf; runs; assumption].
  apply counter_ext_le in Hmap.
  eexists _, _, _, lowering, placeholders. split; [reflexivity|]. split; [reflexivity|].
  split; [exact Hlength|]. split; [|lia].
  apply andb_false_iff in Hcount as [Hzero|Hsame].
  - left. apply Nat.ltb_ge in Hzero. destruct placeholders; [reflexivity|cbn in Hzero; lia].
  - right. apply negb_false_iff, Nat.eqb_eq in Hsame. exact Hsame.
Qed.



(** A loop each of whose steps pushes one operation onto the create list,
    and any number onto the update list. *)
Lemma forM_creates {A} (f : ViewCompilationUnit.t -> A -> M ViewCompilationUnit.t)
    (P : A -> Op -> Prop) (Q : Op -> Prop) l :
  (forall a u j u' j',
      f u a j = Ok (u', j') ->
      exists op ups,
        ViewCompilationUnit.create u' = ViewCompilationUnit.create u ++ [op]
        /\ ViewCompilationUnit.update u' = ViewCompilationUnit.update u ++ ups
        /\ P a op /\ Forall Q ups) ->
  forall u j u' j',
    forM f l u j = Ok (u', j') ->
    exists ops ups,
      ViewCompilationUnit.create u' = ViewCompilationUnit.create u ++ ops
      /\ ViewCompilationUnit.update u' = ViewCompilationUnit.update u ++ ups
      /\ Forall2 P l ops /\ Forall Q ups.
Proof.
  intros Hstep. induction l as [|a l IH]; intros u j u' j' H; cbn [forM] in H.
  - apply ret_Ok in H as [-> _]. exists [], []. rewrite !app_nil_r.
    repeat split; constructor.
  - apply bind_Ok in H as (u1 & j1 & Hf & H).
    apply Hstep in Hf as (op & ups1 & Hcreate1 & Hupdate1 & Hop & Hups1).
    apply IH in H as (ops & ups & Hcreate & Hupdate & Hops & Hups).
    exists (op :: ops), (ups1 ++ ups).
    rewrite Hcreate, Hcreate1, Hupdate, Hupdate1, <- !app_assoc.
    repeat split; [constructor; assumption|apply Forall_app; split; assumption].
Qed.

(** X17.  An ICU expression is ingested only with a message that is a
    single ICU.  Its operations on the create list are bracketed by an
    ICU start and an ICU end under the one identifier taken first; between
    them comes one text operation per variable and placeholder, marked
    with the name of its entry; the update list only gets the
    interpolations of those texts. *)
Theorem ingestIcu_brackets env unit icu job unit' job' :
  ingestIcu env unit icu job = Ok (unit', job') ->
  exists message texts interpolations,
    t.Icu.i18n icu = Some (i18n.IsMessage message)
    /\ isSingleI18nIcu env message = true
    /\ ViewCompilationUnit.create unit'
       = ViewCompilationUnit.create unit
         ++ [IcuStartOp (nextXrefId job) message (icuFromI18nMessage_name env message) None]
         ++ texts ++ [IcuEndOp (nextXrefId job)]
    /\ ViewCompilationUnit.update unit' = ViewCompilationUnit.update unit ++ interpolations
    /\ Forall2 (fun entry op =>
                  exists xref value sourceSpan,
                    op = TextOp xref value (Some (fst entry)) sourceSpan)
         (objectSpread (map (fun kv => (fst kv, inr (snd kv))) (t.Icu.vars icu))
            (t.Icu.placeholders icu))
         texts
    /\ Forall (fun op => kind_of op = OpKind.InterpolateText) interpolations.
Proof.
  unfold ingestIcu. intros H.
  destruct (t.Icu.i18n icu) as [[message|]|]; try discriminate H.
  destruct (isSingleI18nIcu env message) eqn:Hsingle; try discriminate H.
  apply bind_Ok in H as (xref & job1 & Hxref & H).
  apply counter_ext_allocate in Hxref as (-> & _ & _).
  apply bind_Ok in H as (unit1 & job2 & Htexts & H). apply ret_Ok in H as [-> _].
  apply (forM_creates _
           (fun entry op => exists xref value sourceSpan,
                op = TextOp xref value (Some (fst entry)) sourceSpan)
           (fun op => kind_of op = OpKind.InterpolateText)) in Htexts
    as (texts & interpolations & Hcreate & Hupdate & Htexts & Hinterpolations).
  - exists message, texts, interpolations.
    cbn [Unit.push_create ViewCompilationUnit.create ViewCompilationUnit.update] in *.
    rewrite Hcreate, Hupdate, <- !app_assoc. repeat split; assumption.
  - intros [name [text|text]] u j u' j' Hf; cbn [snd fst] in Hf.
    + unfold ingestText in Hf. apply bind_Ok in Hf as (x & j1 & _ & Hf).
      apply ret_Ok in Hf as [-> _]. eexists _, []. cbn. rewrite app_nil_r.
      repeat split; [eexists _, _, _; reflexivity|constructor].
    + apply ingestBoundText_inv in Hf
        as (span & strings & expressions & lowering & placeholders & _ & -> & _).
      eexists _, [_]. cbn.
      repeat split; [eexists _, _, _; reflexivity|repeat constructor].
Qed.

Lemma ingestIcu_brackets_witness :
  exists unit' job' message texts interpolations,
    ingestIcu Samples.env Samples.root Samples.plural Samples.job = Ok (unit', job')
    /\ t.Icu.i18n Samples.plural = Some (i18n.IsMessage message)
    /\ isSingleI18nIcu Samples.env message = true
    /\ ViewCompilationUnit.create unit'
       = ViewCompilationUnit.create Samples.root
         ++ [IcuStartOp (nextXrefId Samples.job) message
               (icuFromI18nMessage_name Samples.env message) None]
         ++ texts ++ [IcuEndOp (nextXrefId Samples.job)]
    /\ ViewCompilationUnit.update unit'
       = ViewCompilationUnit.update Samples.root ++ interpolations
    /\ Forall2 (fun entry op =>
                  exists xref value sourceSpan,
                    op = TextOp xref value (Some (fst entry)) sourceSpan)
         (objectSpread (map (fun kv => (fst kv, inr (snd kv))) (t.Icu.vars Samples.plural))
            (t.Icu.placeholders Samples.plural))
         texts
    /\ Forall (fun op => kind_of op = OpKind.InterpolateText) interpolations.
Proof.
  eassert (H : ingestIcu Samples.env Samples.root Samples.plural Samples.job = Ok (_, _))
    by (vm_compute; reflexivity).
  destruct (ingestIcu_brackets Samples.env Samples.root Samples.plural Samples.job _ _ H)
    as (message & texts & interpolations & Hshape).
  eexists _, _, message, texts, interpolations. split; [exact H|exact Hshape].
Defined.

(** * Elements and templates *)

Lemma unit_ext_lookup u u' i op :
  unit_ext u u' ->
  ViewCompilationUnit.create u !! i = Some op ->
  ViewCompilationUnit.create u' !! i = Some op.
Proof.
  intros (_ & _ & _ & _ & [ops ->] & _) Hop. apply lookup_app_l_Some. exact Hop.
Qed.

(** The operation pushed before the bindings is the one that the
    references are written to. *)
Lemma updateCreateAt_lookup u0 op u op' :
  unit_ext (Unit.push_create u0 op) u ->
  ViewCompilationUnit.create
    (updateCreateAt u (List.length (ViewCompilationUnit.create u0)) op')
  !! List.length (ViewCompilationUnit.create u0) = Some op'.
Proof.
  intros (_ & _ & _ & _ & [ops Hcreate] & _).
  unfold updateCreateAt. cbn [Unit.set_create ViewCompilationUnit.create].
  apply list_lookup_insert_eq. rewrite Hcreate. cbn. rewrite !length_app. cbn. lia.
Qed.

Lemma fold_set_contextVariable_vars {A} (name value : A -> string) l view :
  let view' := fold_left
                 (fun view variable => Unit.set_contextVariable view (name variable)
                                         (value variable)) l view in
  ViewCompilationUnit.contextVariables view'
  = fold_left (fun vars variable => <[name variable := value variable]> vars) l
      (ViewCompilationUnit.contextVariables view)
  /\ ViewCompilationUnit.aliases view' = ViewCompilationUnit.aliases view.
Proof.
  revert view. induction l as [|a l IH]; intros view; cbn; [auto|].
  destruct (IH (Unit.set_contextVariable view (name a) (value a))) as [-> ->]. auto.
Qed.



(** X19.  Ingesting a template registers its child view under the
    identifier taken first, with the view ingested into as its parent, no
    alias, and exactly the variables of the template as context variables
    (a variable without a value reads [$implicit]; of two variables with
    the same name the later one counts).  The template operation, right
    behind the operations that were on the create list, is addressed to
    that view, carries every local reference of the template, and is of
    the plain kind exactly for an [ng-template] tag. *)
Theorem ingestTemplate_child_view env unit tmpl job unit' job' :
  ingestTemplate env unit tmpl job = Ok (unit', job') ->
  exists child tagName functionNameSuffix namespace,
    views job' !! nextXrefId job = Some child
    /\ ViewCompilationUnit.xref child = nextXrefId job
    /\ ViewCompilationUnit.parent child = Some (ViewCompilationUnit.xref unit)
    /\ ViewCompilationUnit.aliases child = []
    /\ ViewCompilationUnit.contextVariables child
       = fold_left
           (fun vars variable =>
              <[TemplateVariable.name variable :=
                  if negb (String.eqb (TemplateVariable.value variable) "")
                  then TemplateVariable.value variable else "$implicit"]> vars)
           (t.Template.variables tmpl) ∅
    /\ ViewCompilationUnit.create unit' !! List.length (ViewCompilationUnit.create unit)
       = Some (TemplateOp (nextXrefId job)
                 (if isPlainTemplate env (t.Template.tagName tmpl)
                  then TemplateKind.NgTemplate else TemplateKind.Structural)
                 tagName functionNameSuffix new_SlotHandle namespace
                 (i18n_as i18n.instanceof_TagPlaceholder (t.Template.i18n tmpl))
                 (map (fun r => LocalRef.mk (t.Reference.name r) (t.Reference.value r))
                    (t.Template.references tmpl))
                 (t.Template.startSourceSpan tmpl) (t.Template.sourceSpan tmpl)).
Proof.
  unfold ingestTemplate, ingestTemplateWith. intros H.
  apply bind_Ok in H as (? & j0 & Hcheck & H). apply throwIf_Ok in Hcheck as [_ ?].
  simplify_eq.
  apply bind_Ok in H as (c0 & j1 & Halloc & H).
  apply allocateView_Ok in Halloc as [Hc0 _].
  destruct (if truthy_string (t.Template.tagName tmpl) then _ else _)
    as [namespacePrefix tagNameWithoutNamespace].
  apply bind_Ok in H as (u1 & j2 & Hbindings & H).
  apply ingestTemplateBindings_leaf in Hbindings as [Hu1 _].
  apply bind_Ok in H as (c2 & j3 & Hchildren & H).
  apply ingestNodes_step in Hchildren as [(Hx2 & Hp2 & Hv2 & Ha2 & _) _].
  apply bind_Ok in H as (c3 & j4 & Hi18n & H).
  apply bind_Ok in H as ([] & j5 & Hstore & H).
  apply ret_Ok in H as [-> ->].
  unfold storeView in Hstore. injection Hstore as <-.
  pose proof (fold_set_contextVariable_identity TemplateVariable.name
                (fun variable =>
                   if negb (String.eqb (TemplateVariable.value variable) "")
                   then TemplateVariable.value variable else "$implicit")
                (t.Template.variables tmpl) c2) as [Hx Hp].
  pose proof (fold_set_contextVariable_vars TemplateVariable.name
                (fun variable =>
                   if negb (String.eqb (TemplateVariable.value variable) "")
                   then TemplateVariable.value variable else "$implicit")
                (t.Template.variables tmpl) c2) as [Hv Ha].
  cbv zeta in Hx, Hp, Hv, Ha.
  assert (Hc3 : ViewCompilationUnit.xref c3 = nextXrefId job
                /\ ViewCompilationUnit.parent c3 = Some (ViewCompilationUnit.xref unit)
                /\ ViewCompilationUnit.aliases c3 = []
                /\ ViewCompilationUnit.contextVariables c3
                   = fold_left
                       (fun vars variable =>
                          <[TemplateVariable.name variable :=
                              if negb (String.eqb (TemplateVariable.value variable) "")
                              then TemplateVariable.value variable else "$implicit"]> vars)
                       (t.Template.variables tmpl) ∅).
  { rewrite Hc0 in Hx2, Hp2, Hv2, Ha2.
    cbn [ViewCompilationUnit.xref ViewCompilationUnit.parent
         ViewCompilationUnit.contextVariables ViewCompilationUnit.aliases] in *.
    rewrite Hx2 in Hx. rewrite Hp2 in Hp. rewrite Hv2 in Hv. rewrite Ha2 in Ha.
    destruct (isPlainTemplate env (t.Template.tagName tmpl));
      [destruct (t.Template.i18n tmpl) as [[message|placeholder]|]|];
      first [ apply ret_Ok in Hi18n as [-> _]
            | apply bind_Ok in Hi18n as (id & j3' & _ & Hi18n);
              apply ret_Ok in Hi18n as [-> _] ];
      repeat split; assumption. }
  destruct Hc3 as (Hx3 & Hp3 & Ha3 & Hv3).
  exists c3. eexists _, _, _. cbn [views set_views].
  split; [rewrite <- Hx3; apply lookup_insert_eq|].
  repeat (split; [assumption|]).
  subst c0. cbn [ViewCompilationUnit.xref ingestReferences app] in *.
  exact (updateCreateAt_lookup unit _ u1 _ Hu1).
Qed.

Lemma ingestTemplate_child_view_witness :
  exists unit' job' child tagName functionNameSuffix namespace,
    ingestTemplate Samples.env Samples.root Samples.repeatedParagraph Samples.job
    = Ok (unit', job')
    /\ views job' !! nextXrefId Samples.job = Some child
    /\ ViewCompilationUnit.xref child = nextXrefId Samples.job
    /\ ViewCompilationUnit.parent child = Some (ViewCompilationUnit.xref Samples.root)
    /\ ViewCompilationUnit.aliases child = []
    /\ ViewCompilationUnit.contextVariables child
       = fold_left
           (fun vars variable =>
              <[TemplateVariable.name variable :=
                  if negb (String.eqb (TemplateVariable.value variable) "")
                  then TemplateVariable.value variable else "$implicit"]> vars)
           (t.Template.variables Samples.repeatedParagraph) ∅
    /\ ViewCompilationUnit.create unit'
       !! List.length (ViewCompilationUnit.create Samples.root)
       = Some (TemplateOp (nextXrefId Samples.job)
                 (if isPlainTemplate Samples.env
                       (t.Template.tagName Samples.repeatedParagraph)
                  then TemplateKind.NgTemplate else TemplateKind.Structural)
                 tagName functionNameSuffix new_SlotHandle namespace
                 (i18n_as i18n.instanceof_TagPlaceholder
                    (t.Template.i18n Samples.repeatedParagraph))
                 (map (fun r => LocalRef.mk (t.Reference.name r) (t.Reference.value r))
                    (t.Template.references Samples.repeatedParagraph))
                 (t.Template.startSourceSpan Samples.repeatedParagraph)
                 (t.Template.sourceSpan Samples.repeatedParagraph)).
Proof.
  eassert (H : ingestTemplate Samples.env Samples.root Samples.repeatedParagraph
                 Samples.job = Ok (_, _)) by (vm_compute; reflexivity).
  destruct (ingestTemplate_child_view Samples.env Samples.root Samples.repeatedParagraph
              Samples.job _ _ H)
    as (child & tagName & functionNameSuffix & namespace & Hview).
  eexists _, _, child, tagName, functionNameSuffix, namespace.
  split; [exact H|exact Hview].
Defined.

(** * Repeaters *)

Lemma counter_ext_views j j' : counter_ext j j' -> views j' = views j.
Proof. intros (n & -> & _). reflexivity. Qed.

(** X20.  A [@for] block registers its repeater view under the
    identifier taken first, with the view ingested into as its parent.
    The view knows the item, the index and the count under their names
    and the index and the count once more under names suffixed with the
    identifier of the view, and has the four aliases for first, last,
    even and odd, in this order.  The unit gets one repeater-create
    operation on the create list, addressed to the repeater view, and one
    repeater operation last on the update list, behind the copied static
    attributes.  An empty view is named exactly when the block has an
    [@empty] part; it is registered too, under a later identifier and with
    the same parent. *)
Theorem ingestForBlock_repeater env unit forBlock job unit' job' :
  ingestForBlock env unit forBlock job = Ok (unit', job') ->
  let ctx := t.ForLoopBlock.contextVariables forBlock in
  let item := t.ForLoopBlock.item forBlock in
  let index := t.ForLoopBlockContext.index ctx in
  let count := t.ForLoopBlockContext.count ctx in
  let indexName := ("ɵ" ++ TemplateVariable.name index ++ "_"
                    ++ xrefToString (nextXrefId job))%string in
  let countName := ("ɵ" ++ TemplateVariable.name count ++ "_"
                    ++ xrefToString (nextXrefId job))%string in
  exists repeaterView emptyView tagName emptyTagName track expression attrs,
    views job' !! nextXrefId job = Some repeaterView
    /\ ViewCompilationUnit.xref repeaterView = nextXrefId job
    /\ ViewCompilationUnit.parent repeaterView = Some (ViewCompilationUnit.xref unit)
    /\ ViewCompilationUnit.contextVariables repeaterView
       = <[countName := TemplateVariable.value count]>
           (<[indexName := TemplateVariable.value index]>
              (<[TemplateVariable.name count := TemplateVariable.value count]>
                 (<[TemplateVariable.name index := TemplateVariable.value index]>
                    (<[TemplateVariable.name item := TemplateVariable.value item]> ∅))))
    /\ map AliasVariable.identifier (ViewCompilationUnit.aliases repeaterView)
       = [TemplateVariable.name (t.ForLoopBlockContext.first ctx);
          TemplateVariable.name (t.ForLoopBlockContext.last ctx);
          TemplateVariable.name (t.ForLoopBlockContext.even ctx);
          TemplateVariable.name (t.ForLoopBlockContext.odd ctx)]
    /\ ViewCompilationUnit.create unit'
       = ViewCompilationUnit.create unit
         ++ [RepeaterCreateOp (nextXrefId job) emptyView tagName track
               (RepeaterVarNames.mk (TemplateVariable.name index)
                  (TemplateVariable.name count)
                  (TemplateVariable.name (t.ForLoopBlockContext.first ctx))
                  (TemplateVariable.name (t.ForLoopBlockContext.last ctx))
                  (TemplateVariable.name (t.ForLoopBlockContext.even ctx))
                  (TemplateVariable.name (t.ForLoopBlockContext.odd ctx))
                  (TemplateVariable.name item))
               emptyTagName new_SlotHandle (t.ForLoopBlock.i18n forBlock)
               (t.ForLoopBlock.empty forBlock ≫= t.ForLoopBlockEmpty.i18n)
               (t.ForLoopBlock.startSourceSpan forBlock)
               (t.ForLoopBlock.sourceSpan forBlock)]
    /\ ViewCompilationUnit.update unit'
       = ViewCompilationUnit.update unit ++ attrs
         ++ [RepeaterOp (nextXrefId job) new_SlotHandle expression
               (t.ForLoopBlock.sourceSpan forBlock)]
    /\ Forall (fun op => bindingKindOf op = Some BindingKind.Attribute) attrs
    /\ (emptyView = None <-> t.ForLoopBlock.empty forBlock = None)
    /\ (forall xref,
           emptyView = Some xref ->
           nextXrefId job < xref
           /\ exists view,
               views job' !! xref = Some view
               /\ ViewCompilationUnit.parent view = Some (ViewCompilationUnit.xref unit)).
Proof.
  unfold ingestForBlock, ingestForBlockWith. intros H. cbv zeta.
  apply bind_Ok in H as (c0 & j1 & Halloc & H).
  pose proof (allocateView_Ok _ _ _ _ Halloc) as [Hc0 Hj1].
  apply bind_Ok in H as (track & j2 & Htrack & H). apply convertAst_counter in Htrack.
  apply bind_Ok in H as (c2 & j3 & Hrepeater & H).
  apply ingestNodes_step in Hrepeater.
  pose proof Hrepeater as ((Hx2 & Hp2 & Hv2 & Ha2 & _) & (_ & Hle3 & _) & _).
  apply bind_Ok in H as ([] & j4 & Hstore & H).
  assert (Hfirst : ingest_step unit job unit j4).
  { eapply (child_view_step unit job c0 j1 j2 _ c2 j3 j3 c2 j4);
      [exact Halloc|exact Htrack| | |exact Hrepeater|apply counter_ext_refl
      |reflexivity|reflexivity|exact Hstore]; reflexivity. }
  unfold storeView in Hstore. injection Hstore as Hj4.
  assert (Hn : nextXrefId job < nextXrefId j4).
  { apply counter_ext_le in Htrack. rewrite Hj1 in Htrack. rewrite <- Hj4.
    cbn in Htrack |- *. lia. }
  assert (Hview : views j4 !! nextXrefId job = Some c2).
  { rewrite <- Hj4. cbn [views set_views]. rewrite Hx2, Hc0.
    cbn [ViewCompilationUnit.xref Unit.set_contextVariable Unit.add_alias].
    apply lookup_insert_eq. }
  rewrite Hc0 in Hx2, Hp2, Hv2, Ha2.
  cbn [ViewCompilationUnit.xref ViewCompilationUnit.parent
       ViewCompilationUnit.contextVariables ViewCompilationUnit.aliases
       Unit.set_contextVariable Unit.add_alias app] in Hx2, Hp2, Hv2, Ha2.
  rewrite Hx2 in H.
  apply bind_Ok in H as ([[u1 emptyView] emptyTagName] & j5 & Hemptyview & H).
  assert (Hsecond :
            job_ext j4 j5
            /\ ViewCompilationUnit.create u1 = ViewCompilationUnit.create unit
            /\ (exists ops,
                   ViewCompilationUnit.update u1 = ViewCompilationUnit.update unit ++ ops
                   /\ Forall (fun op => bindingKindOf op = Some BindingKind.Attribute) ops)
            /\ (emptyView = None <-> t.ForLoopBlock.empty forBlock = None)
            /\ (forall xref,
                   emptyView = Some xref ->
                   nextXrefId j4 <= xref
                   /\ exists view,
                       views j5 !! xref = Some view
                       /\ ViewCompilationUnit.parent view
                          = Some (ViewCompilationUnit.xref unit))).
  { destruct (t.ForLoopBlock.empty forBlock) as [empty|].
    - apply bind_Ok in Hemptyview as (e0 & j41 & Halloc' & Hemptyview).
      pose proof (allocateView_Ok _ _ _ _ Halloc') as [He0 _].
      apply bind_Ok in Hemptyview as (e2 & j42 & Hnodes & Hemptyview).
      apply ingestNodes_step in Hnodes.
      pose proof Hnodes as ((Hxe & Hpe & _) & _).
      apply bind_Ok in Hemptyview as ([] & j43 & Hstore' & Hemptyview).
      apply bind_Ok in Hemptyview as ([u1' tag] & j44 & Hpoint & Hemptyview).
      apply ingestControlFlowInsertionPoint_copies in Hpoint
        as (-> & Hcreate & Hupdate & _).
      apply ret_Ok in Hemptyview as [[= -> -> ->] ->]. cbn [fst].
      pose proof (child_view_step unit j4 e0 j41 j41 e0 e2 j42 j42 e2 j43 Halloc'
                    (counter_ext_refl _) eq_refl eq_refl Hnodes (counter_ext_refl _)
                    eq_refl eq_refl Hstore') as (_ & Hjob & _).
      split; [exact Hjob|]. split; [exact Hcreate|]. split; [exact Hupdate|].
      split; [split; discriminate|].
      intros xref [= <-]. rewrite Hxe, He0. cbn [ViewCompilationUnit.xref].
      split; [lia|]. exists e2.
      unfold storeView in Hstore'. injection Hstore' as <-. cbn [views set_views].
      split; [rewrite Hxe, He0; apply lookup_insert_eq|].
      rewrite Hpe, He0. reflexivity.
    - apply ret_Ok in Hemptyview as [[= -> -> ->] ->].
      split; [apply job_ext_refl|]. split; [reflexivity|].
      split; [exists []; split; [symmetry; apply app_nil_r|constructor]|].
      split; [split; reflexivity|]. intros xref [=]. }
  destruct Hsecond as ((_ & _ & Hold & _) & Hcreate1 & (attrs1 & Hupdate1 & Hattrs1)
                       & Hnone & Hsome).
  apply bind_Ok in H as (? & j0 & Hcheck & H). apply throwIf_Ok in Hcheck as [_ ?].
  simplify_eq.
  apply bind_Ok in H as (? & j0 & Hcheck & H). apply throwIf_Ok in Hcheck as [_ ?].
  simplify_eq.
  apply bind_Ok in H as ([u2 tagName] & j6 & Hpoint & H).
  apply ingestControlFlowInsertionPoint_copies in Hpoint
    as (-> & Hcreate2 & (attrs2 & Hupdate2 & Hattrs2) & _).
  apply bind_Ok in H as (expression & j7 & Hexpression & H).
  apply convertAst_counter, counter_ext_views in Hexpression.
  apply ret_Ok in H as [-> ->].
  exists c2, emptyView, tagName, emptyTagName, track, expression, (attrs1 ++ attrs2).
  rewrite Hexpression.
  split; [rewrite Hold by exact Hn; exact Hview|].
  split; [exact Hx2|]. split; [exact Hp2|]. split; [exact Hv2|].
  split; [rewrite Ha2; reflexivity|].
  cbn [Unit.push_update Unit.push_create ViewCompilationUnit.create
       ViewCompilationUnit.update].
  split; [rewrite Hcreate2, Hcreate1; reflexivity|].
  split; [rewrite Hupdate2, Hupdate1, <- !app_assoc; reflexivity|].
  split; [apply Forall_app; split; assumption|].
  split; [exact Hnone|].
  intros xref Hxref. destruct (Hsome xref Hxref) as [Hle Hregistered].
  split; [lia|exact Hregistered].
Qed.

Lemma ingestForBlock_repeater_witness :
  exists unit' job' repeaterView emptyView tagName emptyTagName track expression attrs,
    ingestForBlock Samples.env Samples.root Samples.itemsLoop Samples.job
    = Ok (unit', job')
    /\ views job' !! 1 = Some repeaterView
    /\ ViewCompilationUnit.xref repeaterView = 1
    /\ ViewCompilationUnit.parent repeaterView = Some 0
    /\ ViewCompilationUnit.contextVariables repeaterView
       = <[("ɵ$count_" ++ xrefToString 1)%string := "$count"]>
           (<[("ɵ$index_" ++ xrefToString 1)%string := "$index"]>
              (<["$count" := "$count"]>
                 (<["$index" := "$index"]> (<["item" := "$implicit"]> ∅))))
    /\ map AliasVariable.identifier (ViewCompilationUnit.aliases repeaterView)
       = ["$first"; "$last"; "$even"; "$odd"]
    /\ ViewCompilationUnit.create unit'
       = ViewCompilationUnit.create Samples.root
         ++ [RepeaterCreateOp 1 emptyView tagName track
               (RepeaterVarNames.mk "$index" "$count" "$first" "$last" "$even" "$odd"
                  "item")
               emptyTagName new_SlotHandle None None (Samples.span 0 35)
               (Samples.span 0 52)]
    /\ ViewCompilationUnit.update unit'
       = ViewCompilationUnit.update Samples.root ++ attrs
         ++ [RepeaterOp 1 new_SlotHandle expression (Samples.span 0 52)]
    /\ Forall (fun op => bindingKindOf op = Some BindingKind.Attribute) attrs
    /\ (emptyView = None <-> t.ForLoopBlock.empty Samples.itemsLoop = None)
    /\ (forall xref,
           emptyView = Some xref ->
           1 < xref
           /\ exists view,
               views job' !! xref = Some view
               /\ ViewCompilationUnit.parent view = Some 0).
Proof.
  eassert (H : ingestForBlock Samples.env Samples.root Samples.itemsLoop Samples.job
               = Ok (_, _)) by (vm_compute; reflexivity).
  destruct (ingestForBlock_repeater Samples.env Samples.root Samples.itemsLoop
              Samples.job _ _ H)
    as (repeaterView & emptyView & tagName & emptyTagName & track & expression & attrs
        & Hshape).
  eexists _, _, repeaterView, emptyView, tagName, emptyTagName, track, expression, attrs.
  split; [exact H|exact Hshape].
Defined.

(** * Host bindings, by list *)

Lemma ingestHostProperties_frame env bindingParser componentSelector properties :
  forall root job properties' root' job',
    ingestHostProperties env bindingParser componentSelector properties root job
    = (properties', Ok (root', job')) ->
    HostBindingCompilationUnit.xref root' = HostBindingCompilationUnit.xref root
    /\ counter_ext job job'.
Proof.
  induction properties as [|property rest IH]; intros root job properties' root' job' H;
    cbn [ingestHostProperties] in H.
  - injection H as _ <- <-. split; [reflexivity|apply counter_ext_refl].
  - destruct (classifyHostProperty bindingParser componentSelector property)
      as [[property1 bindingKind] securityContexts].
    destruct (ingestHostProperty env root property1 bindingKind securityContexts job)
      as [[root1 job1]|msg] eqn:Hproperty; [|discriminate H].
    destruct (ingestHostProperties env bindingParser componentSelector rest root1 job1)
      as [rest' result'] eqn:Hrest.
    injection H as _ ->. apply IH in Hrest as [-> Hjob].
    unfold ingestHostProperty in Hproperty.
    apply bind_Ok in Hproperty as (expression & job2 & Hexpression & Hproperty).
    apply ret_Ok in Hproperty as [-> ->]. split; [reflexivity|].
    eapply counter_ext_trans; [|exact Hjob].
    destruct (e.ParsedProperty.expression_ast property1); runs; counter.
Qed.

Lemma filter_notNone contexts :
  Forall (fun context => context <> SC_NONE) (List.filter notNone contexts).
Proof.
  apply List.Forall_forall. intros context Hin. apply filter_In in Hin as [_ Hkeep].
  intros ->. discriminate Hkeep.
Qed.



(** * Projection *)

(** A loop each of whose steps pushes one operation onto the update list
    and leaves the job alone. *)
Lemma forM_updates {A} (f : ViewCompilationUnit.t -> A -> M ViewCompilationUnit.t)
    (P : A -> Op -> Prop) l :
  (forall a u j u' j',
      f u a j = Ok (u', j') -> j' = j /\ exists op, u' = Unit.push_update u op /\ P a op) ->
  forall u j u' j',
    forM f l u j = Ok (u', j') ->
    j' = j /\ exists ops, u' = Unit.push_update_all u ops /\ Forall2 P l ops.
Proof.
  intros Hstep. induction l as [|a l IH]; intros u j u' j' H; cbn [forM] in H.
  - apply ret_Ok in H as [-> ->]. split; [reflexivity|]. exists []. split; [|constructor].
    destruct u. unfold Unit.push_update_all. cbn. rewrite app_nil_r. reflexivity.
  - apply bind_Ok in H as (u1 & j1 & Hf & H).
    apply Hstep in Hf as (-> & op & -> & Hop). apply IH in H as (-> & ops & -> & Hops).
    split; [reflexivity|]. exists (op :: ops). split; [|constructor; assumption].
    destruct u. unfold Unit.push_update_all, Unit.push_update. cbn.
    rewrite <- app_assoc. reflexivity.
Qed.

(** X22.  A content node is ingested only without i18n metadata or with
    a tag placeholder.  It takes one identifier, for its projection
    operation, which goes last on the create list; each of its attributes
    becomes an attribute binding on the update list, in order, addressed
    to the projection, with the text of the attribute as a literal and
    the security context that the schema gives for the name of the content
    element. *)
Theorem ingestContent_projection env unit content job unit' job' :
  ingestContent env unit content job = Ok (unit', job') ->
  exists bindings,
    job' = set_nextXrefId job (S (nextXrefId job))
    /\ ViewCompilationUnit.create unit'
       = ViewCompilationUnit.create unit
         ++ [ProjectionOp (nextXrefId job) (t.Content.selector content)
               (t.Content.i18n content) (t.Content.sourceSpan content)]
    /\ ViewCompilationUnit.update unit' = ViewCompilationUnit.update unit ++ bindings
    /\ Forall2 (fun attr op =>
                  exists message,
                    op = BindingOp (nextXrefId job) BindingKind.Attribute
                           (t.TextAttribute.name attr)
                           (BExpr (literal (LString (t.TextAttribute.value attr)) None))
                           None
                           (OneContext
                              (domSchema_securityContext env (t.Content.name content)
                                 (t.TextAttribute.name attr) true))
                           true false None message
                           (Some (t.TextAttribute.sourceSpan attr)))
         (t.Content.attributes content) bindings
    /\ match t.Content.i18n content with
       | Some meta => i18n.instanceof_TagPlaceholder meta = true
       | None => True
       end.
Proof.
  unfold ingestContent. intros H.
  apply bind_Ok in H as (? & job0 & Hcheck & H).
  assert (Hmeta : job0 = job
                  /\ match t.Content.i18n content with
                     | Some meta => i18n.instanceof_TagPlaceholder meta = true
                     | None => True
                     end).
  { destruct (t.Content.i18n content) as [meta|].
    - apply throwIf_Ok in Hcheck as [Hcond [= _ ->]]. split; [reflexivity|].
      apply negb_false_iff. exact Hcond.
    - apply ret_Ok in Hcheck as [_ ->]. split; [reflexivity|exact I]. }
  destruct Hmeta as [-> Hmeta].
  apply bind_Ok in H as (xref & job1 & Hxref & H).
  unfold allocateXrefId in Hxref. injection Hxref as <- <-.
  apply bind_Ok in H as (unit1 & job2 & Hattrs & H). apply ret_Ok in H as [-> ->].
  apply (forM_updates _
           (fun attr op =>
              exists message,
                op = BindingOp (nextXrefId job) BindingKind.Attribute
                       (t.TextAttribute.name attr)
                       (BExpr (literal (LString (t.TextAttribute.value attr)) None))
                       None
                       (OneContext
                          (domSchema_securityContext env (t.Content.name content)
                             (t.TextAttribute.name attr) true))
                       true false None message
                       (Some (t.TextAttribute.sourceSpan attr)))) in Hattrs
    as (-> & bindings & -> & Hbindings).
  - exists bindings. repeat split; assumption.
  - intros attr u j u' j' Hf.
    apply bind_Ok in Hf as (message & j1 & Hmessage & Hf).
    apply asMessage_Ok in Hmessage as [-> _]. apply ret_Ok in Hf as [-> ->].
    split; [reflexivity|]. eexists. split; [reflexivity|]. eexists. reflexivity.
Qed.

Lemma ingestContent_projection_witness :
  exists unit' job' bindings,
    ingestContent Samples.env Samples.root
      (t.Content.mk "ng-content" "[slot]"
         [t.TextAttribute.mk "select" "[slot]" (Samples.span 12 27) None]
         (Samples.span 0 41) None)
      Samples.job = Ok (unit', job')
    /\ job' = set_nextXrefId Samples.job (S (nextXrefId Samples.job))
    /\ ViewCompilationUnit.create unit'
       = ViewCompilationUnit.create Samples.root
         ++ [ProjectionOp (nextXrefId Samples.job) "[slot]" None (Samples.span 0 41)]
    /\ ViewCompilationUnit.update unit'
       = ViewCompilationUnit.update Samples.root ++ bindings
    /\ Forall2 (fun attr op =>
                  exists message,
                    op = BindingOp (nextXrefId Samples.job) BindingKind.Attribute
                           (t.TextAttribute.name attr)
                           (BExpr (literal (LString (t.TextAttribute.value attr)) None))
                           None
                           (OneContext
                              (domSchema_securityContext Samples.env "ng-content"
                                 (t.TextAttribute.name attr) true))
                           true false None message
                           (Some (t.TextAttribute.sourceSpan attr)))
         [t.TextAttribute.mk "select" "[slot]" (Samples.span 12 27) None] bindings
    /\ True.
Proof.
  eassert (H : ingestContent Samples.env Samples.root
                 (t.Content.mk "ng-content" "[slot]"
                    [t.TextAttribute.mk "select" "[slot]" (Samples.span 12 27) None]
                    (Samples.span 0 41) None)
                 Samples.job = Ok (_, _)) by (vm_compute; reflexivity).
  destruct (ingestContent_projection Samples.env Samples.root _ Samples.job _ _ H)
    as (bindings & Hshape).
  eexists _, _, bindings. split; [exact H|exact Hshape].
Defined.

(** * The views of a deferred block *)

(** What one call for a view of a deferred block has done. *)
Lemma ingestDeferView_inv env unit suffix i18nMeta block job unit' op job' :
  ingestDeferView env unit suffix i18nMeta block job = Ok ((unit', op), job') ->
  nextXrefId job <= nextXrefId job'
  /\ match block with
     | None => unit' = unit /\ op = None
     | Some (children, sourceSpan) =>
         op = Some (TemplateOp (nextXrefId job) TemplateKind.Block None
                      ("Defer" ++ suffix)%string new_SlotHandle NS_HTML i18nMeta []
                      sourceSpan sourceSpan)
         /\ unit' = Unit.push_create unit
                      (TemplateOp (nextXrefId job) TemplateKind.Block None
                         ("Defer" ++ suffix)%string new_SlotHandle NS_HTML i18nMeta []
                         sourceSpan sourceSpan)
         /\ nextXrefId job < nextXrefId job'
     end.
Proof.
  unfold ingestDeferView, ingestDeferViewWith. intros H.
  apply bind_Ok in H as (? & j0 & Hcheck & H). apply throwIf_Ok in Hcheck as [_ ?].
  simplify_eq.
  destruct block as [[children sourceSpan]|].
  - apply bind_Ok in H as (c0 & j1 & Halloc & H).
    apply allocateView_Ok in Halloc as [-> ->].
    apply bind_Ok in H as (c2 & j2 & Hchildren & H).
    apply ingestNodes_step in Hchildren as ((Hx & _) & (_ & Hle & _) & _).
    apply bind_Ok in H as ([] & j3 & Hstore & H).
    unfold storeView in Hstore. injection Hstore as <-.
    apply ret_Ok in H as [[= -> ->] ->]. rewrite Hx. cbn in Hle |- *.
    split; [lia|]. repeat split. lia.
  - apply ret_Ok in H as [[= -> ->] ->]. repeat split. lia.
Qed.

(** X23.  A deferred block that is ingested has metadata in the job.
    Its main view takes the first identifier handed out, and the defer
    operation, addressed to that view, a later one.  In front of the defer
    operation the create list gets the block template of the main view
    and then those of the loading, placeholder and error views, each
    exactly when the block has that part; the slots of the defer operation
    name the views that are there, and carry the times of the loading and
    placeholder parts. *)
Theorem ingestDeferBlock_slots env unit deferBlock job unit' job' :
  ingestDeferBlock env unit deferBlock job = Ok (unit', job') ->
  exists metadata deferXref loadingOp placeholderOp errorOp triggers,
    deferBlocksMeta job deferBlock = Some metadata
    /\ nextXrefId job < deferXref
    /\ ViewCompilationUnit.create unit'
       = ViewCompilationUnit.create unit
         ++ [TemplateOp (nextXrefId job) TemplateKind.Block None "Defer" new_SlotHandle
               NS_HTML (t.DeferredBlock.i18n deferBlock) []
               (t.DeferredBlock.sourceSpan deferBlock)
               (t.DeferredBlock.sourceSpan deferBlock)]
         ++ option_list loadingOp ++ option_list placeholderOp ++ option_list errorOp
         ++ [DeferOp deferXref (nextXrefId job) new_SlotHandle metadata
               (DeferSlots.mk (option_map op_xref placeholderOp)
                  (option_map op_handle placeholderOp)
                  (option_map op_handle loadingOp) (option_map op_handle errorOp)
                  (t.DeferredBlock.placeholder deferBlock
                     ≫= t.DeferredBlockPlaceholder.minimumTime)
                  (t.DeferredBlock.loading deferBlock
                     ≫= t.DeferredBlockLoading.minimumTime)
                  (t.DeferredBlock.loading deferBlock
                     ≫= t.DeferredBlockLoading.afterTime))
               (t.DeferredBlock.sourceSpan deferBlock)]
         ++ triggers
    /\ (loadingOp = None <-> t.DeferredBlock.loading deferBlock = None)
    /\ (placeholderOp = None <-> t.DeferredBlock.placeholder deferBlock = None)
    /\ (errorOp = None <-> t.DeferredBlock.error deferBlock = None)
    /\ Forall (fun op => kind_of op = OpKind.Template
                         /\ nextXrefId job < op_xref op < deferXref)
         (option_list loadingOp ++ option_list placeholderOp ++ option_list errorOp).
Proof.
  unfold ingestDeferBlock, ingestDeferBlockWith. intros H.
  apply bind_Ok in H as (blockMeta & j0 & Hmeta & H).
  apply getDeferBlockMeta_Ok in Hmeta as [-> ->].
  destruct (deferBlocksMeta job deferBlock) as [metadata|]; [|discriminate H].
  apply bind_Ok in H as ([u1 main] & j1 & Hview1 & H).
  apply (ingestDeferView_inv env) in Hview1 as (_ & -> & -> & Hlt1).
  apply bind_Ok in H as ([u2 loading] & j2 & Hview2 & H).
  assert (Hloading : nextXrefId j1 <= nextXrefId j2
                     /\ u2 = Unit.push_create_all (Unit.push_create unit
                               (TemplateOp (nextXrefId job) TemplateKind.Block None "Defer"
                                  new_SlotHandle NS_HTML (t.DeferredBlock.i18n deferBlock) []
                                  (t.DeferredBlock.sourceSpan deferBlock)
                                  (t.DeferredBlock.sourceSpan deferBlock)))
                              (option_list loading)
                     /\ (loading = None <-> t.DeferredBlock.loading deferBlock = None)
                     /\ Forall (fun op => kind_of op = OpKind.Template
                                          /\ nextXrefId j1 <= op_xref op < nextXrefId j2)
                          (option_list loading)).
  { destruct (t.DeferredBlock.loading deferBlock) as [block|];
      apply (ingestDeferView_inv env) in Hview2 as (Hle & Hview2).
    - destruct Hview2 as (-> & -> & Hlt). split; [exact Hle|].
      split; [reflexivity|]. split; [split; discriminate|].
      repeat constructor; cbn; lia.
    - destruct Hview2 as (-> & ->). split; [exact Hle|].
      split; [symmetry; apply push_create_all_nil|]. split; [split; reflexivity|constructor]. }
  destruct Hloading as (Hle2 & -> & Hloading & Hall2).
  apply bind_Ok in H as ([u3 placeholder] & j3 & Hview3 & H).
  assert (Hplaceholder :
            nextXrefId j2 <= nextXrefId j3
            /\ u3 = Unit.push_create_all
                      (Unit.push_create_all (Unit.push_create unit
                         (TemplateOp (nextXrefId job) TemplateKind.Block None "Defer"
                            new_SlotHandle NS_HTML (t.DeferredBlock.i18n deferBlock) []
                            (t.DeferredBlock.sourceSpan deferBlock)
                            (t.DeferredBlock.sourceSpan deferBlock)))
                         (option_list loading))
                      (option_list placeholder)
            /\ (placeholder = None <-> t.DeferredBlock.placeholder deferBlock = None)
            /\ Forall (fun op => kind_of op = OpKind.Template
                                 /\ nextXrefId j2 <= op_xref op < nextXrefId j3)
                 (option_list placeholder)).
  { destruct (t.DeferredBlock.placeholder deferBlock) as [block|];
      apply (ingestDeferView_inv env) in Hview3 as (Hle & Hview3).
    - destruct Hview3 as (-> & -> & Hlt). split; [exact Hle|].
      split; [reflexivity|]. split; [split; discriminate|].
      repeat constructor; cbn; lia.
    - destruct Hview3 as (-> & ->). split; [exact Hle|].
      split; [symmetry; apply push_create_all_nil|]. split; [split; reflexivity|constructor]. }
  destruct Hplaceholder as (Hle3 & -> & Hplaceholder & Hall3).
  apply bind_Ok in H as ([u4 error] & j4 & Hview4 & H).
  assert (Herror :
            nextXrefId j3 <= nextXrefId j4
            /\ u4 = Unit.push_create_all
                      (Unit.push_create_all
                         (Unit.push_create_all (Unit.push_create unit
                            (TemplateOp (nextXrefId job) TemplateKind.Block None "Defer"
                               new_SlotHandle NS_HTML (t.DeferredBlock.i18n deferBlock) []
                               (t.DeferredBlock.sourceSpan deferBlock)
                               (t.DeferredBlock.sourceSpan deferBlock)))
                            (option_list loading))
                         (option_list placeholder))
                      (option_list error)
            /\ (error = None <-> t.DeferredBlock.error deferBlock = None)
            /\ Forall (fun op => kind_of op = OpKind.Template
                                 /\ nextXrefId j3 <= op_xref op < nextXrefId j4)
                 (option_list error)).
  { destruct (t.DeferredBlock.error deferBlock) as [block|];
      apply (ingestDeferView_inv env) in Hview4 as (Hle & Hview4).
    - destruct Hview4 as (-> & -> & Hlt). split; [exact Hle|].
      split; [reflexivity|]. split; [split; discriminate|].
      repeat constructor; cbn; lia.
    - destruct Hview4 as (-> & ->). split; [exact Hle|].
      split; [symmetry; apply push_create_all_nil|]. split; [split; reflexivity|constructor]. }
  destruct Herror as (Hle4 & -> & Herror & Hall4).
  apply bind_Ok in H as (deferXref & j5 & Hxref & H).
  apply counter_ext_allocate in Hxref as (-> & _ & _).
  apply bind_Ok in H as (acc & j6 & _ & H). apply ret_Ok in H as [-> _].
  exists metadata, (nextXrefId j4), loading, placeholder, error, (TriggerLoop.deferOnOps acc).
  split; [reflexivity|]. split; [lia|]. split.
  { destruct unit. cbn. rewrite <- !app_assoc. reflexivity. }
  split; [exact Hloading|]. split; [exact Hplaceholder|]. split; [exact Herror|].
  repeat (apply Forall_app; split);
    (eapply List.Forall_impl; [|eassumption]); cbn beta; intros op [Hkind Hrange];
    (split; [exact Hkind|lia]).
Qed.

Lemma ingestDeferBlock_slots_witness :
  exists unit' job' metadata deferXref loadingOp placeholderOp errorOp triggers,
    ingestDeferBlock Samples.env Samples.root Samples.placeholderDefer Samples.job
    = Ok (unit', job')
    /\ deferBlocksMeta Samples.job Samples.placeholderDefer = Some metadata
    /\ nextXrefId Samples.job < deferXref
    /\ ViewCompilationUnit.create unit'
       = ViewCompilationUnit.create Samples.root
         ++ [TemplateOp (nextXrefId Samples.job) TemplateKind.Block None "Defer"
               new_SlotHandle NS_HTML (t.DeferredBlock.i18n Samples.placeholderDefer) []
               (t.DeferredBlock.sourceSpan Samples.placeholderDefer)
               (t.DeferredBlock.sourceSpan Samples.placeholderDefer)]
         ++ option_list loadingOp ++ option_list placeholderOp ++ option_list errorOp
         ++ [DeferOp deferXref (nextXrefId Samples.job) new_SlotHandle metadata
               (DeferSlots.mk (option_map op_xref placeholderOp)
                  (option_map op_handle placeholderOp)
                  (option_map op_handle loadingOp) (option_map op_handle errorOp)
                  (t.DeferredBlock.placeholder Samples.placeholderDefer
                     ≫= t.DeferredBlockPlaceholder.minimumTime)
                  (t.DeferredBlock.loading Samples.placeholderDefer
                     ≫= t.DeferredBlockLoading.minimumTime)
                  (t.DeferredBlock.loading Samples.placeholderDefer
                     ≫= t.DeferredBlockLoading.afterTime))
               (t.DeferredBlock.sourceSpan Samples.placeholderDefer)]
         ++ triggers
    /\ (loadingOp = None <-> t.DeferredBlock.loading Samples.placeholderDefer = None)
    /\ (placeholderOp = None <-> t.DeferredBlock.placeholder Samples.placeholderDefer = None)
    /\ (errorOp = None <-> t.DeferredBlock.error Samples.placeholderDefer = None)
    /\ Forall (fun op => kind_of op = OpKind.Template
                         /\ nextXrefId Samples.job < op_xref op < deferXref)
         (option_list loadingOp ++ option_list placeholderOp ++ option_list errorOp).
Proof.
  eassert (H : ingestDeferBlock Samples.env Samples.root Samples.placeholderDefer Samples.job
               = Ok (_, _)) by (vm_compute; reflexivity).
  destruct (ingestDeferBlock_slots Samples.env Samples.root Samples.placeholderDefer Samples.job
              _ _ H)
    as (metadata & deferXref & loadingOp & placeholderOp & errorOp & triggers & Hshape).
  eexists _, _, metadata, deferXref, loadingOp, placeholderOp, errorOp, triggers.
  split; [exact H|exact Hshape].
Defined.

(** * Bindings of templates, by list *)

Lemma keep_none p bs : Forall (fun b => p b = false) bs -> keep p bs = [].
Proof.
  unfold keep. induction 1 as [|b bs Hb _ IH]; [reflexivity|].
  cbn [omap list_omap]. rewrite Hb, IH. reflexivity.
Qed.

Lemma keep_Forall p bs : Forall (fun op => p (Some op) = true) (keep p bs).
Proof.
  unfold keep. induction bs as [|b bs IH]; [constructor|].
  cbn [omap list_omap]. destruct (p b) eqn:Hb; [|exact IH].
  destruct b as [op|]; [|exact IH]. constructor; assumption.
Qed.

Lemma push_create_all_app u ops ops' :
  Unit.push_create_all (Unit.push_create_all u ops) ops'
  = Unit.push_create_all u (ops ++ ops').
Proof. destruct u. unfold Unit.push_create_all. cbn. rewrite <- app_assoc. reflexivity. Qed.

(** A loop each of whose steps pushes some operations onto the create
    list. *)
Lemma forM_pushes_lists {A} (f : ViewCompilationUnit.t -> A -> M ViewCompilationUnit.t)
    (P : A -> list Op -> Prop) l :
  (forall a u j u' j',
      f u a j = Ok (u', j') -> exists ops, u' = Unit.push_create_all u ops /\ P a ops) ->
  forall u j u' j',
    forM f l u j = Ok (u', j') ->
    exists opss, u' = Unit.push_create_all u (concat opss) /\ Forall2 P l opss.
Proof.
  intros Hstep. induction l as [|a l IH]; intros u j u' j' H; cbn [forM] in H.
  - apply ret_Ok in H as [-> _]. exists []. split; [symmetry; apply push_create_all_nil|].
    constructor.
  - apply bind_Ok in H as (u1 & j1 & Hf & H).
    apply Hstep in Hf as (ops & -> & Hops). apply IH in H as (opss & -> & Hopss).
    exists (ops :: opss). split; [apply push_create_all_app|]. constructor; assumption.
Qed.



(** * Utilities of the application reference *)

Lemma indexOf_from_absent {T} `{EqDecision T} (list : list T) (el : T) i :
  ~ In el list -> application_ref.indexOf_from list el i = (-1)%Z.
Proof.
  revert i. induction list as [|x rest IH]; intros i Hin; cbn; [reflexivity|].
  destruct (decide (x = el)) as [->|_]; [exfalso; apply Hin; left; reflexivity|].
  apply IH. intros Hrest. apply Hin. right. exact Hrest.
Qed.

Lemma indexOf_from_first {T} `{EqDecision T} (before after : list T) (el : T) i :
  ~ In el before ->
  application_ref.indexOf_from (before ++ el :: after) el i
  = (i + Z.of_nat (List.length before))%Z.
Proof.
  revert i. induction before as [|x before IH]; intros i Hin; cbn.
  - rewrite decide_True by reflexivity. lia.
  - destruct (decide (x = el)) as [->|_]; [exfalso; apply Hin; left; reflexivity|].
    rewrite IH by (intros Hrest; apply Hin; right; exact Hrest). lia.
Qed.

(** X25.  [remove] takes the first occurrence of the element out of the
    list and keeps every other element, in order; a list without the
    element is left as it is.  So a view that is attached once and then
    detached leaves the views as they were. *)
Theorem remove_first_occurrence {T} `{EqDecision T} (before after : list T) (el : T) :
  ~ In el before ->
  application_ref.remove (before ++ el :: after) el = before ++ after
  /\ application_ref.remove before el = before
  /\ application_ref.remove (before ++ [el]) el = before.
Proof.
  intros Hin. unfold application_ref.remove, application_ref.indexOf.
  rewrite (indexOf_from_first before after el 0 Hin).
  rewrite (indexOf_from_first before [] el 0 Hin).
  rewrite (indexOf_from_absent before el 0 Hin).
  replace (0 + Z.of_nat (List.length before) >? -1)%Z with true
    by (symmetry; apply Z.gtb_lt; lia).
  unfold application_ref.splice1. cbn [Z.gtb Z.compare].
  rewrite Z.add_0_l, Nat2Z.id.
  assert (Hdrop : forall x rest,
             drop (S (List.length before)) (before ++ x :: rest) = rest).
  { intros x rest. clear. induction before as [|y before IH]; [reflexivity|exact IH]. }
  rewrite !take_app_length, !Hdrop. cbn. rewrite app_nil_r. auto.
Qed.

Lemma remove_first_occurrence_witness :
  application_ref.remove ([1; 2] ++ 3 :: [4; 3]) 3 = [1; 2] ++ [4; 3]
  /\ application_ref.remove [1; 2] 3 = [1; 2]
  /\ application_ref.remove ([1; 2] ++ [3]) 3 = [1; 2].
Proof.
  apply (remove_first_occurrence [1; 2] [4; 3] 3).
  intros [Hin|[Hin|[]]]; discriminate Hin.
Defined.

(** X26.  [_lastDefined] returns the last of the values of the array that
    are not undefined, and undefined when there is none. *)
Theorem lastDefined_last {T} (args : list (option T)) :
  application_ref._lastDefined args = last (omap id args).
Proof.
  unfold application_ref._lastDefined.
  assert (Hloop : forall n,
             n <= List.length args ->
             (fix loop (n : nat) : option T :=
                match n with
                | 0 => None
                | S i => match args !! i with
                         | Some (Some x) => Some x
                         | _ => loop i
                         end
                end) n = last (omap id (take n args))).
  { induction n as [|i IH]; intros Hn; [reflexivity|].
    destruct (lookup_lt_is_Some_2 args i) as [x Hx]; [lia|].
    rewrite (take_S_r _ _ _ Hx), omap_app, Hx. cbn [omap list_omap].
    destruct x as [x|]; cbn [id].
    - rewrite last_snoc. reflexivity.
    - rewrite app_nil_r. apply IH. lia. }
  rewrite Hloop by lia. rewrite firstn_all. reflexivity.
Qed.

(** * The zoneless change detection scheduler *)


(** While a task identifier is held, outside code cannot change the
    scheduler: its notifications are absorbed. *)
Lemma run_absorbed {World} (add : World -> nat * World) x :
  forall s taskId,
    Scheduler.pendingRenderTaskId s = Some taskId ->
    Scheduler.pendingRenderTaskId (fst (Scheduler.run add x s)) = Some taskId
    /\ Scheduler.timeouts (fst (Scheduler.run add x s)) = Scheduler.timeouts s.
Proof.
  induction x as [w|w|w k IH]; intros s taskId Hs; cbn [Scheduler.run fst].
  - split; [exact Hs|reflexivity].
  - split; [exact Hs|reflexivity].
  - unfold Scheduler.notify. cbn [Scheduler.pendingRenderTaskId]. rewrite Hs.
    cbn [Scheduler.world].
    exact (IH w (Scheduler.mk (Some taskId) (Scheduler.timeouts s) w) taskId eq_refl).
Qed.

Lemma notify_settled {World} (add : World -> nat * World) s :
  Scheduler.settled s -> Scheduler.settled (Scheduler.notify add s).
Proof.
  unfold Scheduler.settled, Scheduler.notify. destruct s as [[taskId|] timeouts w]; cbn.
  - auto.
  - intros ->. destruct (add w). reflexivity.
Qed.

Lemma run_settled {World} (add : World -> nat * World) x :
  forall s, Scheduler.settled s -> Scheduler.settled (fst (Scheduler.run add x s)).
Proof.
  induction x as [w|w|w k IH]; intros s Hs; cbn [Scheduler.run fst].
  - exact Hs.
  - exact Hs.
  - apply IH. apply notify_settled. exact Hs.
Qed.

(** X28.  When the timer runs the callback while a task identifier is
    held, the identifier is cleared first and then handed to [remove],
    whatever the tick has done, also when it has thrown: the notifications
    of the tick are absorbed, those of [remove] and its subscribers are
    not.  The tick is skipped when the application is destroyed. *)
Theorem callback_removes_task {World} (add : World -> nat * World) destroyed tick remove
    (s : Scheduler.t World) taskId :
  Scheduler.pendingRenderTaskId s = Some taskId ->
  exists w thrown,
    Scheduler.callback add destroyed tick remove s
    = (fst (Scheduler.run add (remove (Some taskId) w)
              (Scheduler.mk None (pred (Scheduler.timeouts s)) w)),
       thrown
       || snd (Scheduler.run add (remove (Some taskId) w)
                 (Scheduler.mk None (pred (Scheduler.timeouts s)) w)))
    /\ (destroyed (Scheduler.world s) = true -> w = Scheduler.world s /\ thrown = false).
Proof.
  intros Hs. unfold Scheduler.callback. cbn [Scheduler.world Scheduler.timeouts].
  destruct (destroyed (Scheduler.world s)); cbn [negb].
  - cbn [Scheduler.pendingRenderTaskId Scheduler.timeouts Scheduler.world]. rewrite Hs.
    exists (Scheduler.world s), false.
    destruct (Scheduler.run add _ _) as [s' thrown']. split; [reflexivity|auto].
  - destruct (run_absorbed add (tick (Scheduler.world s))
                (Scheduler.mk (Scheduler.pendingRenderTaskId s)
                   (pred (Scheduler.timeouts s)) (Scheduler.world s)) taskId Hs)
      as [Hp Ht].
    destruct (Scheduler.run add (tick (Scheduler.world s)) _) as [s1 thrown].
    cbn [fst Scheduler.timeouts] in Hp, Ht. rewrite Hp, Ht.
    exists (Scheduler.world s1), thrown.
    destruct (Scheduler.run add _ _) as [s' thrown']. split; [reflexivity|discriminate].
Qed.

Lemma callback_removes_task_witness :
  exists w thrown,
    Scheduler.callback (fun n : nat => (n, S n)) (fun _ => false)
      (fun n => Scheduler.Notifies n (fun n' => Scheduler.Throws n'))
      (fun _ n => Scheduler.Notifies n (fun n' => Scheduler.Returns n'))
      (Scheduler.mk (Some 0) 1 1)
    = (fst (Scheduler.run (fun n : nat => (n, S n))
              (Scheduler.Notifies w (fun n' => Scheduler.Returns n'))
              (Scheduler.mk None (pred 1) w)),
       thrown
       || snd (Scheduler.run (fun n : nat => (n, S n))
                 (Scheduler.Notifies w (fun n' => Scheduler.Returns n'))
                 (Scheduler.mk None (pred 1) w)))
    /\ (false = true -> w = 1 /\ thrown = false).
Proof.
  exact (callback_removes_task (fun n : nat => (n, S n)) (fun _ => false)
           (fun n => Scheduler.Notifies n (fun n' => Scheduler.Throws n'))
           (fun _ n => Scheduler.Notifies n (fun n' => Scheduler.Returns n'))
           (Scheduler.mk (Some 0) 1 1) 0 eq_refl).
Defined.


